(** * Victorian crime statistics: the data processor

    A shallow embedding of [Scripts/data_ingestion/data_processor.py]
    (class [CrimeDataProcessor]) and of the pandas operations it calls,
    followed by the properties of the standardize / load / merge /
    summarise / export pipeline.

    Conventions of the embedding.
    - A table cell is an integer, a text or the missing marker.  Years and
      incident counts are integers in the canonical record, so numeric
      cells carry a [Z]; fractional readings are outside the model.
    - A frame is a list of column labels and a list of rows; every row
      carries its index label.  Labels may repeat (renaming can make them
      collide); every operation that pandas refuses on a repeated label
      raises here too.
    - Python exceptions are values of [exn]; a method of the processor is
      a function from the processor state to an outcome and a new state.
      The state also logs the file-system accesses made so far.
    - The text-to-number conversion behind [pd.to_numeric] is a parameter
      ([text_to_number]); [decimal_literal] is its decimal-integer
      fragment, used to run the model on concrete sheets.
    - The sum of a column of counts is an int64 sum, which wraps around.
      The statements about sums and means are made for counts whose
      absolute values add up to less than 2^53, where int64 and float64
      arithmetic give the same numbers. *)

From Stdlib Require Import ZArith String Ascii List Floats Uint63 Lia.
From Stdlib Require Import Sorted Permutation OrderedTypeEx.
From stdpp Require Import base option list gmap strings.

Open Scope string_scope.
Open Scope Z_scope.

(** ** Cells *)

Inductive cell : Type :=
| Num (z : Z)
| Str (s : string)
| NaN.

#[global] Instance cell_eq_dec : EqDecision cell.
Proof. solve_decision. Defined.

#[global] Instance cell_countable : Countable cell.
Proof.
  refine (inj_countable'
            (λ c, match c with
                  | Num z => inl z
                  | Str s => inr (Some s)
                  | NaN => inr None
                  end)
            (λ x, match x with
                  | inl z => Num z
                  | inr (Some s) => Str s
                  | inr None => NaN
                  end) _).
  by intros [].
Defined.

Definition isna (c : cell) : bool :=
  match c with NaN => true | _ => false end.

Definition is_text (c : cell) : bool :=
  match c with Str _ => true | _ => false end.

(** ** Exceptions and outcomes *)

Inductive exn : Type :=
| FileNotFoundError (msg : string)
| ValueError (msg : string)
| KeyError (key : string)
| TypeError (msg : string)
| AttributeError (msg : string)
| IndexError (msg : string)
| InvalidIndexError (msg : string).

#[global] Instance exn_eq_dec : EqDecision exn.
Proof. solve_decision. Defined.

Inductive result (A : Type) : Type :=
| Ok (a : A)
| Raise (e : exn).
Arguments Ok {A} a.
Arguments Raise {A} e.

#[global] Instance result_ret : MRet result := @Ok.
#[global] Instance result_bind : MBind result :=
  λ A B f m, match m with Ok a => f a | Raise e => Raise e end.

Definition is_ok {A} (r : result A) : bool :=
  match r with Ok _ => true | Raise _ => false end.

(** The four failures of the specification's taxonomy, as the code raises
    them. [NotFound] and [NoDataAvailable] are both [FileNotFoundError]
    in the source and differ by their message. *)

Definition NotFound (file_path : string) : exn :=
  FileNotFoundError ("File not found: " ++ file_path).
(** The line feed between the lines of the longer message of the
    2010-2019 loader. *)
Definition LF : string := String (ascii_of_nat 10) EmptyString.
Definition NotFound_2010_2019 (file_path : string) : exn :=
  FileNotFoundError
    ("File not found: " ++ file_path ++ LF
       ++ "Please download the 2010-2019 data from:" ++ LF
       ++ "https://www.crimestatistics.vic.gov.au/download-data-11" ++ LF
       ++ "or run: python download_2010_2019_data.py --download").
Definition NoDataAvailable : exn :=
  FileNotFoundError "No data files available to merge".
Definition UnsupportedFormat (output_format : string) : exn :=
  ValueError ("Unsupported format: " ++ output_format).
Definition MissingColumn : exn :=
  ValueError "DataFrame must contain 'offence_division' column".

(** ** Frames *)

Record row : Type := Row { label : Z; cells : list cell }.

#[global] Instance row_eq_dec : EqDecision row.
Proof. solve_decision. Defined.

Record DataFrame : Type := Frame { columns : list string; rows : list row }.

#[global] Instance DataFrame_eq_dec : EqDecision DataFrame.
Proof. solve_decision. Defined.

(** Number of columns carrying the label [c]. *)
Definition occurrences (c : string) (cols : list string) : nat :=
  length (filter (λ l, l = c) cols).

(** The cell of a row under label [c] (first column so labelled); missing
    when there is no such column. *)
Fixpoint lookup_cell (c : string) (cols : list string) (cs : list cell) : cell :=
  match cols, cs with
  | l :: cols', x :: cs' => if decide (l = c) then x else lookup_cell c cols' cs'
  | _, _ => NaN
  end.

Definition cell_at (df : DataFrame) (c : string) (r : row) : cell :=
  lookup_cell c (columns df) (cells r).

(** [df[c]]: a series when the label is unique, a sub-frame when it
    repeats, [KeyError] when it is absent. *)
Inductive selection : Type :=
| Series (s : list cell)
| SubFrame
| NoColumn.

Definition getitem (df : DataFrame) (c : string) : selection :=
  match occurrences c (columns df) with
  | O => NoColumn
  | S O => Series (cell_at df c <$> rows df)
  | _ => SubFrame
  end.

(** [df[c] = v] on one row: every column labelled [c] takes the value; a
    new last column is added when there is none. *)
Definition assign (c : string) (v : cell) (cols : list string) (r : row) : row :=
  Row (label r)
      (if decide (c ∈ cols)
       then zip_with (λ l x, if decide (l = c) then v else x) cols (cells r)
       else cells r ++ [v]).

Definition setitem (df : DataFrame) (c : string) (vals : list cell) : DataFrame :=
  Frame (if decide (c ∈ columns df) then columns df else columns df ++ [c])
        (zip_with (λ r v, assign c v (columns df) r) (rows df) vals).

Definition setitem_scalar (df : DataFrame) (c : string) (v : cell) : DataFrame :=
  setitem df c (replicate (length (rows df)) v).

(** [df.rename(columns=m)]: labels that are keys of [m] are replaced, the
    others and all the data are kept. No check of uniqueness is made. *)
Definition rename (m : gmap string string) (df : DataFrame) : DataFrame :=
  Frame ((λ c, default c (m !! c)) <$> columns df) (rows df).

(** ** Text helpers *)

(** [str.lower] on ASCII letters. *)
Definition lower_ascii (a : ascii) : ascii :=
  let n := nat_of_ascii a in
  if ((65 <=? n) && (n <=? 90))%nat then ascii_of_nat (n + 32) else a.

Fixpoint lower (s : string) : string :=
  match s with
  | EmptyString => EmptyString
  | String a s' => String (lower_ascii a) (lower s')
  end.

(** [s.strip('_')]. *)
Fixpoint lstrip_chars (a : ascii) (l : list ascii) : list ascii :=
  match l with
  | x :: l' => if decide (x = a) then lstrip_chars a l' else l
  | [] => []
  end.

Definition strip_chars (a : ascii) (l : list ascii) : list ascii :=
  rev (lstrip_chars a (rev (lstrip_chars a l))).

Definition strip_underscores (s : string) : string :=
  string_of_list_ascii (strip_chars "_"%char (list_ascii_of_string s)).

(** The decimal-integer fragment of the conversion of a text cell to a
    number: blanks around, an optional sign, then digits only. *)
Definition digit_value (a : ascii) : option Z :=
  let n := nat_of_ascii a in
  if ((48 <=? n) && (n <=? 57))%nat then Some (Z.of_nat (n - 48)) else None.

Fixpoint digits_value (acc : Z) (l : list ascii) : option Z :=
  match l with
  | [] => Some acc
  | a :: l' => d ← digit_value a; digits_value (10 * acc + d) l'
  end.

Definition decimal_literal (s : string) : option Z :=
  match strip_chars " "%char (list_ascii_of_string s) with
  | [] => None
  | a :: l =>
      if decide (a = "-"%char) then
        match l with [] => None | _ => Z.opp <$> digits_value 0 l end
      else if decide (a = "+"%char) then
        match l with [] => None | _ => digits_value 0 l end
      else digits_value 0 (a :: l)
  end.

(** ** Column mappings and data files (class attributes) *)

Definition COLUMN_MAPPINGS : gmap string (gmap string string) :=
  list_to_map [
    ("2012_2021", list_to_map [
       ("Year", "year");
       ("Year ending", "year_ending");
       ("Police Region", "police_region");
       ("Local Government Area", "lga_name");
       ("Incidents Recorded", "incidents_recorded");
       ("Rate per 100,000 population", "rate_per_100000");
       ("Offence Division", "offence_division");
       ("Offence Subdivision", "offence_subdivision");
       ("Offence Subgroup", "offence_subgroup");
       ("Police Service Area", "police_service_area");
       ("Postcode", "postcode");
       ("Suburb/Town Name", "suburb");
       ("Location Division", "location_division");
       ("Location Subdivision", "location_subdivision");
       ("Location Group", "location_group");
       ("Charge Status", "charge_status")]);
    ("2010_2019", list_to_map [
       ("Year", "year");
       ("Year ending", "year_ending");
       ("LGA_CODE", "lga_code");
       ("LGA_NAME", "lga_name");
       ("lga_name", "lga_name");
       ("Local Government Area", "lga_name");
       ("Offence Division", "offence_division");
       ("Offence Subdivision", "offence_subdivision");
       ("Offence Subgroup", "offence_subgroup");
       ("offence_division", "offence_division");
       ("Incidents Recorded", "incidents_recorded");
       ("incidents_recorded", "incidents_recorded");
       ("Rate per 100,000 population", "rate_per_100000");
       ("rate_per_100000", "rate_per_100000")])
  ].

Definition DATA_DIR : string := "Data".
Definition OUTPUT_DIR : string := "Output_data".

(** [dir / name], for a relative [name] written without redundant
    separators, as the names of the data files and the default names of
    the exports are. *)
Definition joinpath (dir name : string) : string := dir ++ "/" ++ name.

Definition DATA_FILES : gmap string string :=
  list_to_map [
    ("criminal_incidents_2012_2021",
      joinpath DATA_DIR "LGA_Criminal_Incidents_Year_Ending_September_2021.xlsx");
    ("criminal_incidents_2010_2019",
      joinpath DATA_DIR "LGA_Criminal_Incidents_Principal_Offence_2010_2019.xlsx");
    ("recorded_offences",
      joinpath DATA_DIR "LGA_Recorded_Offences_Year_Ending_September_2021.xlsx");
    ("alleged_offenders",
      joinpath DATA_DIR "LGA_Alleged_Offenders_Year_Ending_September_2021.xlsx");
    ("family_incidents",
      joinpath DATA_DIR "LGA_Family_Incidents_Year_Ending_September_2021.xlsx");
    ("victim_reports",
      joinpath DATA_DIR "LGA_Victim_Reports_Year_Ending_September_2021.xlsx")
  ].

(** [self.DATA_FILES[name]] for the names the methods use. *)
Definition data_file (name : string) : string := default "" (DATA_FILES !! name).

(** ** Workbooks and the file system *)

(** A sheet as [pd.read_excel] presents it: the header row gives the
    labels, every other row gives one record; a short row is completed
    with missing cells and the index is the row position. *)
Record Sheet : Type := { header : list string; body : list (list cell) }.

Definition Workbook : Type := list (string * Sheet).

Definition sheet_names (wb : Workbook) : list string := fst <$> wb.

Definition pad (n : nat) (cs : list cell) : list cell :=
  take n (cs ++ replicate n NaN).

Definition frame_of_sheet (s : Sheet) : DataFrame :=
  Frame (header s)
        (imap (λ i cs, Row (Z.of_nat i) (pad (length (header s)) cs)) (body s)).

Definition find_sheet (wb : Workbook) (sheet_name : string) : option Sheet :=
  snd <$> (snd <$> list_find (λ p, p.1 = sheet_name) wb).

Definition read_excel (wb : Workbook) (sheet_name : string) : result DataFrame :=
  match find_sheet wb sheet_name with
  | Some s => Ok (frame_of_sheet s)
  | None => Raise (ValueError ("Worksheet named '" ++ sheet_name ++ "' not found"))
  end.

(** The files present under the data directory, by path. *)
Record World : Type := { files : gmap string Workbook }.

(** ** Processor state *)

Inductive event : Type :=
| FsExists (file_path : string)
| FsRead (file_path : string)
| FsWrite (file_path : string) (output_format : string) (df : DataFrame).

Record State : Type := { loaded_data : gmap string DataFrame; effects : list event }.

Definition M (A : Type) : Type := State → result A * State.

#[global] Instance M_ret : MRet M := λ A a st, (Ok a, st).
#[global] Instance M_bind : MBind M :=
  λ A B f m st,
    match m st with
    | (Ok a, st') => f a st'
    | (Raise e, st') => (Raise e, st')
    end.

#[global] Instance M_fmap : FMap M :=
  λ A B f m st,
    match m st with
    | (Ok a, st') => (Ok (f a), st')
    | (Raise e, st') => (Raise e, st')
    end.

Definition raise {A} (e : exn) : M A := λ st, (Raise e, st).

Definition lift {A} (r : result A) : M A := λ st, (r, st).

Definition log (ev : event) : M unit :=
  λ st, (Ok tt, {| loaded_data := loaded_data st; effects := effects st ++ [ev] |}).

(** [self.loaded_data.get(name)] and [self.loaded_data[name] = df]. *)
Definition cache_get (name : string) : M (option DataFrame) :=
  λ st, (Ok (loaded_data st !! name), st).

Definition cache_set (name : string) (df : DataFrame) : M unit :=
  λ st, (Ok tt, {| loaded_data := <[name := df]> (loaded_data st);
                   effects := effects st |}).

(** [file_path.exists()] and the opening of a workbook. *)
Definition path_exists (w : World) (file_path : string) : M bool :=
  _ ← log (FsExists file_path);
  mret (bool_decide (is_Some (files w !! file_path))).

Definition open_workbook (w : World) (file_path : string) : M Workbook :=
  _ ← log (FsRead file_path);
  match files w !! file_path with
  | Some wb => mret wb
  | None => raise (NotFound file_path)
  end.

(** [try: body except FileNotFoundError: handler]; what the body did to the
    state before it raised stays done. *)
Definition try_except_FileNotFoundError {A} (body handler : M A) : M A :=
  λ st,
    match body st with
    | (Raise (FileNotFoundError _), st') => handler st'
    | out => out
    end.

Definition init : State := {| loaded_data := ∅; effects := [] |}.

(** ** pandas operations used by the merge *)

(** [s.dropna()] and [s.unique()] on the values of a series. *)
Definition dropna (s : list cell) : list cell :=
  filter (λ c, c ≠ NaN) s.

Definition unique (s : list cell) : list cell := remove_dups s.

(** [a < b] between two Python values: numbers with numbers, texts with
    texts; any comparison with the missing marker is false; a number
    against a text is a [TypeError]. *)
Definition py_lt (a b : cell) : result bool :=
  match a, b with
  | Num x, Num y => Ok (bool_decide (x < y))
  | Str s, Str t => Ok (String.ltb s t)
  | NaN, _ | _, NaN => Ok false
  | _, _ => Raise (TypeError "'<' not supported between instances of 'str' and 'int'")
  end.

(** [min(xs)] and [max(xs)] of a set: [ValueError] when it is empty. *)
Fixpoint py_min_from (m : cell) (l : list cell) : result cell :=
  match l with
  | [] => Ok m
  | x :: l' => b ← py_lt x m; py_min_from (if b : bool then x else m) l'
  end.

Fixpoint py_max_from (m : cell) (l : list cell) : result cell :=
  match l with
  | [] => Ok m
  | x :: l' => b ← py_lt m x; py_max_from (if b : bool then x else m) l'
  end.

Definition py_min (xs : gset cell) : result cell :=
  match elements xs with
  | [] => Raise (ValueError "min() arg is an empty sequence")
  | x :: l => py_min_from x l
  end.

Definition py_max (xs : gset cell) : result cell :=
  match elements xs with
  | [] => Raise (ValueError "max() arg is an empty sequence")
  | x :: l => py_max_from x l
  end.

(** [set(df['year'].dropna().unique())] *)
Definition year_set (df : DataFrame) : result (gset cell) :=
  match getitem df "year" with
  | Series s => Ok (list_to_set (unique (dropna s)))
  | SubFrame => Raise (AttributeError "'DataFrame' object has no attribute 'unique'")
  | NoColumn => Raise (KeyError "year")
  end.

(** The boolean series [df[c] < bound] and [df[c] > bound]. *)
Definition series_lt (s : list cell) (bound : cell) : result (list bool) :=
  mapM (λ x, py_lt x bound) s.

Definition series_gt (s : list cell) (bound : cell) : result (list bool) :=
  mapM (λ x, py_lt bound x) s.

Definition year_series (df : DataFrame) : result (list cell) :=
  match getitem df "year" with
  | Series s => Ok s
  | SubFrame => Raise (TypeError "'<' on a frame does not give a row mask")
  | NoColumn => Raise (KeyError "year")
  end.

(** [df[mask]]: the rows whose mask entry is true, index labels kept. *)
Definition boolean_index (df : DataFrame) (mask : list bool) : DataFrame :=
  Frame (columns df) (fst <$> filter (λ p, p.2 = true) (zip (rows df) mask)).

(** [pd.concat([a, b], ignore_index=True)]: the labels of [a] followed by
    the labels only [b] has; every row is laid out under the new labels,
    with missing cells where its frame had no such column; fresh index.
    With a repeated label pandas only accepts frames that carry the very
    same list of labels. *)
Definition union_columns (a b : list string) : list string :=
  a ++ filter (λ c, c ∉ a) b.

Definition reindex_columns (from to : list string) (r : row) : row :=
  Row (label r) ((λ c, lookup_cell c from (cells r)) <$> to).

Definition reset_index (df : DataFrame) : DataFrame :=
  Frame (columns df) (imap (λ i r, Row (Z.of_nat i) (cells r)) (rows df)).

Definition concat (a b : DataFrame) : result DataFrame :=
  if decide (columns a = columns b) then
    Ok (reset_index (Frame (columns a) (rows a ++ rows b)))
  else if decide (NoDup (columns a) ∧ NoDup (columns b)) then
    let cols := union_columns (columns a) (columns b) in
    Ok (reset_index
          (Frame cols ((reindex_columns (columns a) cols <$> rows a)
                         ++ (reindex_columns (columns b) cols <$> rows b))))
  else Raise (InvalidIndexError "Reindexing only valid with uniquely valued Index objects").

(** Order of the values of a sort key: numbers by value, then texts in
    lexicographic order, the missing marker last. *)
Definition cell_le (a b : cell) : Prop :=
  match a, b with
  | Num x, Num y => x ≤ y
  | Num _, _ => True
  | Str _, Num _ => False
  | Str s, Str t => String.leb s t = true
  | Str _, NaN => True
  | NaN, NaN => True
  | NaN, _ => False
  end.

#[global] Instance cell_le_dec a b : Decision (cell_le a b).
Proof. destruct a, b; simpl; apply _. Defined.

Definition cell_lt (a b : cell) : Prop := cell_le a b ∧ a ≠ b.

(** Lexicographic order of two key tuples. *)
Fixpoint key_le (k1 k2 : list cell) : Prop :=
  match k1, k2 with
  | [], _ => True
  | _ :: _, [] => False
  | a :: k1', b :: k2' => cell_lt a b ∨ (a = b ∧ key_le k1' k2')
  end.

#[global] Instance key_le_dec k1 k2 : Decision (key_le k1 k2).
Proof.
  revert k2. induction k1 as [|a k1 IH]; intros [|b k2]; simpl;
    unfold cell_lt; apply _.
Defined.

Definition sort_key (cols by_ : list string) (r : row) : list cell :=
  (λ c, lookup_cell c cols (cells r)) <$> by_.

Definition row_le (cols by_ : list string) (r1 r2 : row) : Prop :=
  key_le (sort_key cols by_ r1) (sort_key cols by_ r2).

#[global] Instance row_le_dec cols by_ r1 r2 : Decision (row_le cols by_ r1 r2).
Proof. unfold row_le. apply _. Defined.

(** Stable sort: an element is put before the first of the later elements
    that is not smaller, so elements with equal keys keep their order. *)
Section StableSort.
Context {A : Type} (le : A → A → Prop) `{!∀ x y, Decision (le x y)}.

Fixpoint insert_sorted (a : A) (l : list A) : list A :=
  match l with
  | [] => [a]
  | x :: l' =>
      if decide (le a x) then a :: x :: l'
      else x :: insert_sorted a l'
  end.

Definition stable_sort (l : list A) : list A := foldr insert_sorted [] l.
End StableSort.

(** The check pandas makes of every key label. *)
Definition check_label (cols : list string) (c : string) : result unit :=
  match occurrences c cols with
  | O => Raise (KeyError c)
  | S O => Ok tt
  | _ => Raise (ValueError ("The column label '" ++ c ++ "' is not unique."))
  end.

(** [df.sort_values(by)], ascending, missing values last, index labels
    moving with their rows. *)
Definition sort_values (by_ : list string) (df : DataFrame) : result DataFrame :=
  _ ← mapM (check_label (columns df)) by_;
  Ok (Frame (columns df) (stable_sort (row_le (columns df) by_) (rows df))).

(** ** Notions used to describe a load *)

(** The provenance stamps a loader puts on a standardized table. *)
Definition stamp (source month : string) (df : DataFrame) : DataFrame :=
  setitem_scalar (setitem_scalar df "data_source" (Str source))
                 "year_ending_month" (Str month).

(** The sheet the 2010-2019 loader reads from a workbook. *)
Definition chosen_sheet (wb : Workbook) (sheet_name : option string) : result string :=
  match sheet_name with
  | Some s => Ok s
  | None =>
      match filter (λ s, lower s ∉ ["contents"; "notes"; "metadata"]) (sheet_names wb),
            sheet_names wb with
      | s :: _, _ => Ok s
      | [], s :: _ => Ok s
      | [], [] => Raise (IndexError "list index out of range")
      end
  end.

(** The state after the file-system accesses [evs] and, possibly, the
    caching of a table. *)
Definition logged (evs : list event) (st : State) : State :=
  {| loaded_data := loaded_data st; effects := effects st ++ evs |}.

Definition cached (name : string) (df : DataFrame) (st : State) : State :=
  {| loaded_data := <[name := df]> (loaded_data st); effects := effects st |}.

(** The accesses the loaders make to their file: the test of existence,
    then one reading by [pd.read_excel]; the 2010-2019 loader first opens
    the workbook for its sheet names and reads it again once the sheet
    is chosen. *)
Definition load_events_2012_2021 (w : World) : list event :=
  let file_path := data_file "criminal_incidents_2012_2021" in
  FsExists file_path
    :: match files w !! file_path with
       | Some _ => [FsRead file_path]
       | None => []
       end.

Definition load_events_2010_2019 (w : World) (sheet_name : option string) : list event :=
  let file_path := data_file "criminal_incidents_2010_2019" in
  FsExists file_path
    :: match files w !! file_path with
       | Some wb =>
           FsRead file_path
             :: match chosen_sheet wb sheet_name with
                | Ok _ => [FsRead file_path]
                | Raise _ => []
                end
       | None => []
       end.

(** The state after a load with accesses [evs] and outcome [r]. *)
Definition after_load {A} (evs : list event) (r : result A)
  (cache : A → State → State) (st : State) : State :=
  match r with
  | Ok a => cache a (logged evs st)
  | Raise _ => logged evs st
  end.

(** What the merge gets for one source: the cached table, else the
    loaded one, else nothing when the load raised [FileNotFoundError]. *)
Definition fetch (cached_table : option DataFrame) (load : result DataFrame)
  : result (option DataFrame) :=
  match cached_table, load with
  | Some df, _ => Ok (Some df)
  | None, Ok df => Ok (Some df)
  | None, Raise (FileNotFoundError _) => Ok None
  | None, Raise e => Raise e
  end.

(** ** The processor *)

Section Processor.

(** The conversion of a text cell by [pd.to_numeric]: the number read,
    or nothing when the text is not a number. *)
Variable text_to_number : string → option Z.

(** [pd.to_numeric(s, errors='coerce')] *)
Definition coerce (c : cell) : cell :=
  match c with
  | Num z => Num z
  | Str s => match text_to_number s with Some z => Num z | None => NaN end
  | NaN => NaN
  end.

Definition to_numeric (s : list cell) : list cell := coerce <$> s.

Definition _standardize_columns (df : DataFrame) (source_type : string)
  : result DataFrame :=
  let mapping : gmap string string := default ∅ (COLUMN_MAPPINGS !! source_type) in
  (* Rename columns that exist in the mapping *)
  let columns_to_rename : gmap string string :=
    list_to_map (omap (λ col, (λ v, (col, v)) <$> mapping !! col) (columns df)) in
  let df := rename columns_to_rename df in
  (* Ensure year is integer *)
  if decide ("year" ∈ columns df) then
    match getitem df "year" with
    | Series s => Ok (setitem df "year" (to_numeric s))
    | SubFrame => Raise (TypeError "arg must be a list, tuple, 1-d array, or Series")
    | NoColumn => Raise (KeyError "year")
    end
  else Ok df.

Definition load_criminal_incidents_2012_2021 (w : World) (sheet_name : string)
  : M DataFrame :=
  let file_path := data_file "criminal_incidents_2012_2021" in
  present ← path_exists w file_path;
  if negb present then raise (NotFound file_path) else
  wb ← open_workbook w file_path;
  df ← lift (read_excel wb sheet_name);
  df ← lift (_standardize_columns df "2012_2021");
  let df := setitem_scalar df "data_source" (Str "CSA_2012_2021") in
  let df := setitem_scalar df "year_ending_month" (Str "September") in
  _ ← cache_set "criminal_incidents_2012_2021" df;
  mret df.

Definition load_criminal_incidents_2010_2019 (w : World) (sheet_name : option string)
  : M DataFrame :=
  let file_path := data_file "criminal_incidents_2010_2019" in
  present ← path_exists w file_path;
  if negb present then
    raise (NotFound_2010_2019 file_path)
  else
  (* Read Excel file *)
  excel_file ← open_workbook w file_path;
  let sheets := sheet_names excel_file in
  (* Find the data sheet (skip contents/metadata sheets) *)
  sheet_name ←
    match sheet_name with
    | Some s => mret s
    | None =>
        let data_sheets :=
          filter (λ s, lower s ∉ ["contents"; "notes"; "metadata"]) sheets in
        match data_sheets, sheets with
        | s :: _, _ => mret s
        | [], s :: _ => mret s
        | [], [] => raise (IndexError "list index out of range")
        end
    end;
  wb ← open_workbook w file_path;
  df ← lift (read_excel wb sheet_name);
  df ← lift (_standardize_columns df "2010_2019");
  let df := setitem_scalar df "data_source" (Str "CSA_2010_2019") in
  let df := setitem_scalar df "year_ending_month" (Str "March") in
  _ ← cache_set "criminal_incidents_2010_2019" df;
  mret df.

(** Lines 272-294 of [merge_time_series]: the policy applied once both
    tables are at hand. The three diagnostic [print]s are left out: the
    sorted year sets they show are not part of the result. *)
Definition merge_both (prefer_september : bool) (df_2012 df_2010 : DataFrame)
  : result DataFrame :=
  (* Identify overlapping years *)
  years_2012 ← year_set df_2012;
  years_2010 ← year_set df_2010;
  let overlapping := years_2012 ∩ years_2010 in
  merged ←
    (if prefer_september then
       (* Use 2012-2021 for overlapping years *)
       bound ← py_min years_2012;
       year ← year_series df_2010;
       mask ← series_lt year bound;
       let df_early := boolean_index df_2010 mask in
       concat df_early df_2012
     else
       (* Use 2010-2019 for overlapping years *)
       bound ← py_max years_2010;
       year ← year_series df_2012;
       mask ← series_gt year bound;
       let df_late := boolean_index df_2012 mask in
       concat df_2010 df_late);
  merged ← sort_values ["year"; "lga_name"] merged;
  Ok (reset_index merged).

Definition merge_time_series (w : World) (prefer_september : bool) : M DataFrame :=
  (* Load both datasets if not already loaded *)
  df_2012 ← cache_get "criminal_incidents_2012_2021";
  df_2010 ← cache_get "criminal_incidents_2010_2019";
  df_2012 ←
    match df_2012 with
    | None =>
        try_except_FileNotFoundError
          (Some <$> load_criminal_incidents_2012_2021 w "Table 01")
          (mret None)
    | Some df => mret (Some df)
    end;
  df_2010 ←
    match df_2010 with
    | None =>
        try_except_FileNotFoundError
          (Some <$> load_criminal_incidents_2010_2019 w None)
          (mret None)
    | Some df => mret (Some df)
    end;
  match df_2012, df_2010 with
  | None, None => raise NoDataAvailable
  | None, Some df_2010 => mret df_2010
  | Some df_2012, None => mret df_2012
  | Some df_2012, Some df_2010 => lift (merge_both prefer_september df_2012 df_2010)
  end.

(** The file written is recorded in the log, with the table and the
    format. The writers are taken to succeed: the output directory is
    there, as the constructor leaves it, the file name is a plain name
    inside it, and the engine of the format is installed and accepts
    the name. *)
Definition export_merged_data (w : World) (output_format : string)
  (filename : option string) : M string :=
  merged ← merge_time_series w true;
  let filename :=
    default ("criminal_incidents_extended_2010_2021." ++ output_format) filename in
  let output_path := joinpath OUTPUT_DIR filename in
  if decide (output_format = "csv") then
    _ ← log (FsWrite output_path "csv" merged); mret output_path
  else if decide (output_format = "excel") then
    _ ← log (FsWrite output_path "excel" merged); mret output_path
  else if decide (output_format = "parquet") then
    _ ← log (FsWrite output_path "parquet" merged); mret output_path
  else raise (UnsupportedFormat output_format).

(** *** What the loaders return, as a function of the files *)
Definition read_table_2012_2021 (w : World) (sheet_name : string) : result DataFrame :=
  match files w !! data_file "criminal_incidents_2012_2021" with
  | None => Raise (NotFound (data_file "criminal_incidents_2012_2021"))
  | Some wb =>
      raw ← read_excel wb sheet_name;
      std ← _standardize_columns raw "2012_2021";
      Ok (stamp "CSA_2012_2021" "September" std)
  end.

Definition read_table_2010_2019 (w : World) (sheet_name : option string)
  : result DataFrame :=
  match files w !! data_file "criminal_incidents_2010_2019" with
  | None => Raise (NotFound_2010_2019 (data_file "criminal_incidents_2010_2019"))
  | Some wb =>
      sheet_name ← chosen_sheet wb sheet_name;
      raw ← read_excel wb sheet_name;
      std ← _standardize_columns raw "2010_2019";
      Ok (stamp "CSA_2010_2019" "March" std)
  end.

(** *** Sessions

    The tables a merge works from (lines 248-261 run on their own), and
    the states a processor reaches from a fresh one through its
    methods, whatever the files are at each call. *)
Definition obtain_tables (w : World) : M (option DataFrame * option DataFrame) :=
  df_2012 ← cache_get "criminal_incidents_2012_2021";
  df_2010 ← cache_get "criminal_incidents_2010_2019";
  df_2012 ←
    match df_2012 with
    | None =>
        try_except_FileNotFoundError
          (Some <$> load_criminal_incidents_2012_2021 w "Table 01")
          (mret None)
    | Some df => mret (Some df)
    end;
  df_2010 ←
    match df_2010 with
    | None =>
        try_except_FileNotFoundError
          (Some <$> load_criminal_incidents_2010_2019 w None)
          (mret None)
    | Some df => mret (Some df)
    end;
  mret (df_2012, df_2010).

Inductive call : Type :=
| Load_2012_2021 (sheet_name : string)
| Load_2010_2019 (sheet_name : option string)
| Merge (prefer_september : bool)
| Export (output_format : string) (filename : option string).

Definition run (c : call) (w : World) (st : State) : State :=
  match c with
  | Load_2012_2021 s => (load_criminal_incidents_2012_2021 w s st).2
  | Load_2010_2019 s => (load_criminal_incidents_2010_2019 w s st).2
  | Merge b => (merge_time_series w b st).2
  | Export f n => (export_merged_data w f n st).2
  end.

Inductive reachable : State → Prop :=
| reachable_init : reachable init
| reachable_run st w c : reachable st → reachable (run c w st).

End Processor.

(** ** Summaries and trends *)

(** Integer to float64, exact below 2^53. *)
Definition Z2float (z : Z) : float :=
  if bool_decide (z < 0) then PrimFloat.opp (PrimFloat.of_uint63 (Uint63.of_Z (- z)))
  else PrimFloat.of_uint63 (Uint63.of_Z z).

(** The check pandas makes of every group key. *)
Definition check_grouper (cols : list string) (c : string) : result unit :=
  match occurrences c cols with
  | O => Raise (KeyError c)
  | S O => Ok tt
  | _ => Raise (ValueError ("Grouper for '" ++ c ++ "' not 1-dimensional"))
  end.

(** [df.groupby(by)]: one group per distinct key tuple, in ascending order
    of the keys; rows with a missing key are dropped. *)
Definition group_keys (df : DataFrame) (by_ : list string) : list (list cell) :=
  stable_sort key_le
    (remove_dups (filter (λ k, NaN ∉ k) (sort_key (columns df) by_ <$> rows df))).

Definition groups_of (df : DataFrame) (by_ : list string) : list (list cell * list row) :=
  (λ k, (k, filter (λ r, sort_key (columns df) by_ r = k) (rows df))) <$> group_keys df by_.

Definition groupby (df : DataFrame) (by_ : list string)
  : result (list (list cell * list row)) :=
  match by_ with
  | [] => Raise (ValueError "No group keys passed!")
  | _ =>
      _ ← mapM (check_grouper (columns df)) by_;
      Ok (groups_of df by_)
  end.

(** The column aggregated inside each group is looked up among all the
    columns of the frame, the group keys included; its label has to be
    unique. *)
Definition check_aggregated (cols : list string) (c : string) : result unit :=
  match occurrences c cols with
  | O => Raise (KeyError ("Column(s) ['" ++ c ++ "'] do not exist"))
  | S O => Ok tt
  | _ => Raise (ValueError ("Column label '" ++ c ++ "' is not unique"))
  end.

(** Arithmetic on int64: a result is kept modulo 2^64, between -2^63 and
    2^63 - 1. *)
Definition wrap64 (z : Z) : Z := (z + 2 ^ 63) mod 2 ^ 64 - 2 ^ 63.

(** ['sum'] and ['count'] of a group: missing values are skipped. The sum
    of a column of integers is an int64 and wraps around. With a missing
    value in the column pandas holds the numbers as float64 and adds them
    up as such: this is the same number as long as the absolute values
    add up to less than 2^53, the range in which the statements about
    sums are made. Adding up texts is not modelled as a value: it is
    reported as [TypeError] (pandas raises it as soon as a mean or a
    ratio of the sum is taken). *)
Fixpoint agg_sum (vals : list cell) : result Z :=
  match vals with
  | [] => Ok 0
  | Num z :: vals' => s ← agg_sum vals'; Ok (wrap64 (z + s))
  | NaN :: vals' => agg_sum vals'
  | Str _ :: _ => Raise (TypeError "unsupported operand type(s): 'str'")
  end.

Definition agg_count (vals : list cell) : Z := Z.of_nat (length (dropna vals)).

(** ['mean']: the sum divided by the count, in float64; within the exact
    range the sum is the number pandas divides. *)
Definition agg_mean (sum count : Z) : float := (Z2float sum / Z2float count)%float.

(** A value of a summary: a group key, an integer or a float. *)
Inductive value : Type :=
| Key (c : cell)
| Int (z : Z)
| Float (f : float).

Record Summary : Type := { summary_columns : list string; summary_rows : list (list value) }.

(** Insertion of the group keys as columns by [reset_index]. *)
Definition check_insert (names : list string) : result unit :=
  if decide (NoDup names) then Ok tt
  else Raise (ValueError "cannot insert, already exists").

(** ['_'.join(col).strip('_')] on a two-level column name. *)
Definition flatten (col : string * string) : string :=
  strip_underscores (col.1 ++ "_" ++ col.2).

Definition get_lga_summary (df : DataFrame) (group_cols : option (list string))
  : result Summary :=
  let group_cols := default ["year"; "lga_name"] group_cols in
  (* Filter to only include valid group columns *)
  let valid_cols := filter (λ c, c ∈ columns df) group_cols in
  if decide ("incidents_recorded" ∈ columns df) then
    groups ← groupby df valid_cols;
    _ ← check_aggregated (columns df) "incidents_recorded";
    stats ← mapM (λ g : list cell * list row,
                    let vals := cell_at df "incidents_recorded" <$> g.2 in
                    total ← agg_sum vals;
                    let count := agg_count vals in
                    Ok ((Key <$> g.1)
                          ++ [Int total; Float (agg_mean total count); Int count])%list)
                 groups;
    _ ← check_insert valid_cols;
    (* Flatten column names *)
    Ok {| summary_columns :=
            flatten <$> (((λ c, (c, "")) <$> valid_cols)
                           ++ [("incidents_recorded", "sum");
                               ("incidents_recorded", "mean");
                               ("incidents_recorded", "count")])%list;
          summary_rows := stats |}
  else
    groups ← groupby df valid_cols;
    _ ← check_insert (valid_cols ++ ["count"])%list;
    Ok {| summary_columns := (valid_cols ++ ["count"])%list;
          summary_rows :=
            (λ g : list cell * list row,
               ((Key <$> g.1) ++ [Int (Z.of_nat (length g.2))])%list) <$> groups |}.

(** A row of the trend table. *)
Record trend : Type := Trend {
  tr_year : cell;
  tr_offence_division : cell;
  tr_incidents_recorded : Z;
  tr_yoy_change : float
}.

Definition trend_le (t1 t2 : trend) : Prop :=
  key_le [tr_offence_division t1; tr_year t1] [tr_offence_division t2; tr_year t2].

#[global] Instance trend_le_dec t1 t2 : Decision (trend_le t1 t2).
Proof. unfold trend_le. apply _. Defined.

(** [groupby(g)[v].pct_change()] over rows given as (group, value) pairs,
    in their current order: the ratio to the previous value of the same
    group minus one, and the missing marker on the first row of a group.
    [seen] holds the rows already passed, latest first. *)
Fixpoint pct_change (seen l : list (cell * Z)) : list float :=
  match l with
  | [] => []
  | (g, v) :: l' =>
      match list_find (λ p, p.1 = g) seen with
      | Some (_, (_, v0)) => (Z2float v / Z2float v0 - 1)%float
      | None => nan
      end :: pct_change ((g, v) :: seen) l'
  end.

Definition get_offence_trends (df : DataFrame) : result (list trend) :=
  if decide ("offence_division" ∉ columns df) then Raise MissingColumn else
  groups ← groupby df ["year"; "offence_division"];
  _ ← check_aggregated (columns df) "incidents_recorded";
  trends ← mapM (λ g : list cell * list row,
                   total ← agg_sum (cell_at df "incidents_recorded" <$> g.2);
                   Ok (Trend (default NaN (g.1 !! 0%nat)) (default NaN (g.1 !! 1%nat))
                             total nan))
                groups;
  (* Calculate year-over-year change *)
  let trends := stable_sort trend_le trends in
  let changes :=
    pct_change [] ((λ t, (tr_offence_division t, tr_incidents_recorded t)) <$> trends) in
  Ok (zip_with (λ t c, Trend (tr_year t) (tr_offence_division t)
                             (tr_incidents_recorded t) (c * 100)%float)
               trends changes).

(** ** Notions used in the statements *)

(** Every row has one cell per column. *)
Definition aligned (df : DataFrame) : Prop :=
  Forall (λ r, length (cells r) = length (columns df)) (rows df).

(** No text under the label [c]. *)
Definition numeric_column (c : string) (df : DataFrame) : Prop :=
  Forall (λ r, is_text (cell_at df c r) = false) (rows df).

(** Every row carries [v] under the label [c]. *)
Definition constant_column (c : string) (v : cell) (df : DataFrame) : Prop :=
  c ∈ columns df ∧ Forall (λ r, cell_at df c r = v) (rows df).

(** What the loaders guarantee of a table of vintage [source]. *)
Record loaded (source : string) (df : DataFrame) : Prop := {
  loaded_aligned : aligned df;
  loaded_year_unique : (occurrences "year" (columns df) ≤ 1)%nat;
  loaded_year_numeric : numeric_column "year" df;
  loaded_source : constant_column "data_source" (Str source) df
}.

Definition cache_ok (st : State) : Prop :=
  (∀ df, loaded_data st !! "criminal_incidents_2012_2021" = Some df →
         loaded "CSA_2012_2021" df) ∧
  (∀ df, loaded_data st !! "criminal_incidents_2010_2019" = Some df →
         loaded "CSA_2010_2019" df).

(** The years present in a table, and the least / greatest of a set. *)
Definition years_of (df : DataFrame) : gset cell :=
  list_to_set (unique (dropna (cell_at df "year" <$> rows df))).

Definition year_range (first last : Z) : gset cell :=
  list_to_set (Num <$> seqZ first (last - first + 1)).

Definition least (xs : gset cell) (m : Z) : Prop :=
  Num m ∈ xs ∧ ∀ y, Num y ∈ xs → m ≤ y.

Definition greatest (xs : gset cell) (m : Z) : Prop :=
  Num m ∈ xs ∧ ∀ y, Num y ∈ xs → y ≤ m.

(** A source table is absent: not cached, and its file is not there. *)
Definition absent (name : string) (w : World) (st : State) : Prop :=
  loaded_data st !! name = None ∧ files w !! data_file name = None.

(** The formats [export_merged_data] writes. *)
Definition supported (output_format : string) : Prop :=
  output_format ∈ ["csv"; "excel"; "parquet"].

Definition is_write (ev : event) : bool :=
  match ev with FsWrite _ _ _ => true | _ => false end.

(** The label a raw column gets from the mapping of a vintage. *)
Definition canonical (source_type : string) (c : string) : string :=
  default c (default ∅ (COLUMN_MAPPINGS !! source_type) !! c).

(** The frame after the renaming step of [_standardize_columns]. *)
Definition renamed (source_type : string) (df : DataFrame) : DataFrame :=
  Frame (canonical source_type <$> columns df) (rows df).

(** [cell < bound] and [cell > bound] for a numeric bound, on a cell that
    is no text. *)
Definition num_lt (bound : Z) (c : cell) : bool :=
  match c with Num y => bool_decide (y < bound) | _ => false end.

Definition num_gt (bound : Z) (c : cell) : bool :=
  match c with Num y => bool_decide (bound < y) | _ => false end.

(** The rows each table contributes to the merge, given the bound year:
    the least year of the 2012-2021 table when September is preferred,
    the greatest year of the 2010-2019 table otherwise. *)
Definition kept_2010 (prefer_september : bool) (bound : Z) (df_2010 : DataFrame)
  : list row :=
  if prefer_september
  then filter (λ r, num_lt bound (cell_at df_2010 "year" r) = true) (rows df_2010)
  else rows df_2010.

Definition kept_2012 (prefer_september : bool) (bound : Z) (df_2012 : DataFrame)
  : list row :=
  if prefer_september
  then rows df_2012
  else filter (λ r, num_gt bound (cell_at df_2012 "year" r) = true) (rows df_2012).

Definition is_bound (prefer_september : bool) (df_2012 df_2010 : DataFrame) (bound : Z)
  : Prop :=
  if prefer_september then least (years_of df_2012) bound
  else greatest (years_of df_2010) bound.

(** The outcome of a merge from the tables obtained. *)
Definition merge_outcome (merge_both : DataFrame → DataFrame → result DataFrame)
  (tables : option DataFrame * option DataFrame) : result DataFrame :=
  match tables with
  | (None, None) => Raise NoDataAvailable
  | (None, Some df_2010) => Ok df_2010
  | (Some df_2012, None) => Ok df_2012
  | (Some df_2012, Some df_2010) => merge_both df_2012 df_2010
  end.

(** The state after the merge has fetched one table. *)
Definition after_fetch {A} (evs : list event) (cached_table : option DataFrame)
  (r : result A) (cache : A → State → State) (st : State) : State :=
  match cached_table with
  | Some _ => st
  | None => after_load evs r cache st
  end.

(** The accesses made so far are kept, and what is added holds no write. *)
Definition reads_only (st st' : State) : Prop :=
  ∃ evs, effects st' = (effects st ++ evs)%list ∧ Forall (λ ev, is_write ev = false) evs.

(** The row [r] of [out] shows, under the labels of [src], the cells of
    the row [r0] of [src]. *)
Definition drawn_from (out src : DataFrame) (r r0 : row) : Prop :=
  ∀ col, col ∈ columns src → cell_at out col r = cell_at src col r0.

(** The years present in both tables a merge works from. *)
Definition overlap_window (tables : option DataFrame * option DataFrame) : gset cell :=
  match tables with
  | (Some df_2012, Some df_2010) => years_of df_2012 ∩ years_of df_2010
  | _ => ∅
  end.

(** The stamp of the vintage a merge prefers. *)
Definition preferred_source (prefer_september : bool) : cell :=
  Str (if prefer_september then "CSA_2012_2021" else "CSA_2010_2019").

(** ** Sample workbooks *)

(** Years ending March 2010-2019 (some years typed as text, one year
    unreadable) and years ending September 2012-2021, not in order. *)
Definition march_sheet : Sheet :=
  {| header := ["Year"; "LGA_NAME"; "Offence Division"; "Incidents Recorded"];
     body := [ [Str "2019"; Str "Yarra"; Str "A"; Num 119];
               [Str "n.a."; Str "Yarra"; Str "A"; Num 1] ]
             ++ ((λ y, [Num y; Str "Ararat"; Str "B"; Num (y - 2000)]) <$> seqZ 2010 9) |}.

Definition september_sheet : Sheet :=
  {| header := ["Year"; "Police Region"; "Local Government Area"; "Incidents Recorded"];
     body := [ [Num 2021; Str "4 Western"; Str "Ararat"; Num 221];
               [Str "2020"; Str "1 North West Metro"; Str "Yarra"; Num 220] ]
             ++ ((λ y, [Num y; Str "4 Western"; Str "Ararat"; Num (y - 1900)])
                   <$> seqZ 2012 8) |}.

Definition contents_sheet : Sheet :=
  {| header := ["Contents"]; body := [[Str "Table 01"]] |}.

Definition september_workbook : Workbook :=
  [("Contents", contents_sheet); ("Table 01", september_sheet)].

Definition march_workbook : Workbook :=
  [("Contents", contents_sheet); ("Notes", contents_sheet); ("Data", march_sheet)].

Definition both_files : World :=
  {| files := {[ data_file "criminal_incidents_2012_2021" := september_workbook;
                 data_file "criminal_incidents_2010_2019" := march_workbook ]} |}.

Definition only_september : World :=
  {| files := {[ data_file "criminal_incidents_2012_2021" := september_workbook ]} |}.

Definition only_march : World :=
  {| files := {[ data_file "criminal_incidents_2010_2019" := march_workbook ]} |}.

Definition no_files : World := {| files := ∅ |}.

(** Two sheets that have a year but no area name. *)
Definition bare_workbook (first : Z) : Workbook :=
  [("Table 01", {| header := ["Year"; "Incidents Recorded"];
                   body := [[Num first; Num 10]; [Num (first + 1); Num 20]] |})].

Definition bare_files : World :=
  {| files := {[ data_file "criminal_incidents_2012_2021" := bare_workbook 2012;
                 data_file "criminal_incidents_2010_2019" := bare_workbook 2010 ]} |}.

(** The tables the loaders make of the sample sheets. *)
Definition september_table : DataFrame :=
  Eval vm_compute in
    match read_table_2012_2021 decimal_literal both_files "Table 01" with
    | Ok df => df
    | Raise _ => Frame [] []
    end.

Definition march_table : DataFrame :=
  Eval vm_compute in
    match read_table_2010_2019 decimal_literal both_files None with
    | Ok df => df
    | Raise _ => Frame [] []
    end.

Definition bare_table_2012 : DataFrame :=
  Eval vm_compute in
    match read_table_2012_2021 decimal_literal bare_files "Table 01" with
    | Ok df => df
    | Raise _ => Frame [] []
    end.

Definition bare_table_2010 : DataFrame :=
  Eval vm_compute in
    match read_table_2010_2019 decimal_literal bare_files (Some "Table 01") with
    | Ok df => df
    | Raise _ => Frame [] []
    end.

Definition is_fnf (e : exn) : bool :=
  match e with FileNotFoundError _ => true | _ => false end.

(** A computation that never raises [FileNotFoundError]. *)
Definition no_fnf {A} (r : result A) : Prop :=
  ∀ e, r = Raise e → is_fnf e = false.

(** The merges of the sample tables. *)
Definition merged_prefer_september : DataFrame :=
  Eval vm_compute in
    match merge_both true september_table march_table with
    | Ok df => df
    | Raise _ => Frame [] []
    end.

Definition merged_prefer_march : DataFrame :=
  Eval vm_compute in
    match merge_both false september_table march_table with
    | Ok df => df
    | Raise _ => Frame [] []
    end.

(** The sum of the numbers of a group. *)
Definition sum_numbers (vals : list cell) : Z :=
  foldr (λ c s, match c with Num z => z + s | _ => s end) 0 vals.



(** Sample tables for the aggregations. *)
Definition two_year_table : DataFrame :=
  Frame ["year"; "lga_name"; "offence_division"; "incidents_recorded"]
        [Row 0 [Num 2021; Str "Yarra"; Str "A"; Num 90];
         Row 1 [Num 2020; Str "Yarra"; Str "A"; Num 60];
         Row 2 [Num 2021; Str "Ararat"; Str "A"; Num 60];
         Row 3 [Num 2020; Str "Ararat"; Str "A"; Num 40];
         Row 4 [NaN; Str "Ararat"; Str "A"; Num 7]].





(** The trend row of a group before the changes are computed, the row
    with its change, and the key of a trend row. *)
Definition trend_of_group (df : DataFrame) (g : list cell * list row) : trend :=
  Trend (default NaN (g.1 !! 0%nat)) (default NaN (g.1 !! 1%nat))
        (wrap64 (sum_numbers (cell_at df "incidents_recorded" <$> g.2))) nan.

Definition with_change (t : trend) (c : float) : trend :=
  Trend (tr_year t) (tr_offence_division t) (tr_incidents_recorded t) (c * 100)%float.



(** Two trend rows that differ by their change only. *)
Definition same_trend (t t' : trend) : Prop :=
  tr_year t' = tr_year t
  ∧ tr_offence_division t' = tr_offence_division t
  ∧ tr_incidents_recorded t' = tr_incidents_recorded t.

(** The trend table, as a function of the table: the groups in the order
    (offence division, year), then the same rows with their changes. *)
Definition trend_pairs (l : list trend) : list (cell * Z) :=
  (λ t, (tr_offence_division t, tr_incidents_recorded t)) <$> l.

Definition sorted_trends (df : DataFrame) : list trend :=
  stable_sort trend_le (trend_of_group df <$> groups_of df ["year"; "offence_division"]).

Definition trends_of (df : DataFrame) : list trend :=
  zip_with with_change (sorted_trends df) (pct_change [] (trend_pairs (sorted_trends df))).

(** Canonical names are not renamed again: every value of a mapping is
    either no key of it or a key mapped to itself. *)
Definition closed_mapping (m : gmap string string) : Prop :=
  map_Forall (λ _ v, default v (m !! v) = v) m.

(** Sample tables for the standardization: two columns that both become
    [year], and raw years typed as text. *)
Definition two_year_columns : DataFrame :=
  Frame ["Year"; "year"; "Suburb"] [Row 0 [Num 2015; Str "2015"; Str "Kew"]].

Definition year_and_Year : DataFrame :=
  Frame ["year"; "Year"] [Row 0 [Str "2015"; Num 2015]; Row 1 [Str "N/A"; Num 2016]].

Definition raw_years : DataFrame :=
  Frame ["Year"; "LGA_NAME"; "Notes"]
        [Row 0 [Str "2015"; Str "Yarra"; Str "2015"];
         Row 1 [Str "N/A"; Str "Yarra"; Num 3];
         Row 2 [Num 2017; Str "Ararat"; NaN]].

(** A decidable statement about concrete data is settled by evaluating
    its decision procedure. *)
Ltac by_evaluation := apply (bool_decide_unpack _); vm_compute; reflexivity.

(** ** The constructor's check and the availability of the files *)

(** [_validate_paths], on the set of the paths that exist (relative to
    the project root, which is there when [Data] is): the data directory
    must exist; the output directory is created when it does not. *)
Definition _validate_paths (existing : gset string) : result (gset string) :=
  if decide (DATA_DIR ∉ existing) then
    Raise (FileNotFoundError ("Data directory not found: " ++ DATA_DIR))
  else if decide (OUTPUT_DIR ∉ existing) then Ok ({[OUTPUT_DIR]} ∪ existing)
  else Ok existing.

(** [self.DATA_FILES.items()], in the order of the class attribute. *)
Definition DATA_FILES_items : list (string * string) :=
  [ ("criminal_incidents_2012_2021",
      joinpath DATA_DIR "LGA_Criminal_Incidents_Year_Ending_September_2021.xlsx");
    ("criminal_incidents_2010_2019",
      joinpath DATA_DIR "LGA_Criminal_Incidents_Principal_Offence_2010_2019.xlsx");
    ("recorded_offences",
      joinpath DATA_DIR "LGA_Recorded_Offences_Year_Ending_September_2021.xlsx");
    ("alleged_offenders",
      joinpath DATA_DIR "LGA_Alleged_Offenders_Year_Ending_September_2021.xlsx");
    ("family_incidents",
      joinpath DATA_DIR "LGA_Family_Incidents_Year_Ending_September_2021.xlsx");
    ("victim_reports",
      joinpath DATA_DIR "LGA_Victim_Reports_Year_Ending_September_2021.xlsx") ].

(** The dictionary a comprehension builds from its items: a later item
    replaces an earlier one with the same key. *)
Definition dict_of {V} (items : list (string * V)) : gmap string V :=
  foldl (λ d item, <[item.1 := item.2]> d) ∅ items.

Definition get_available_files (w : World) : M (gmap string bool) :=
  entries ← mapM (λ item : string * string,
                    present ← path_exists w item.2;
                    mret (item.1, present))
                 DATA_FILES_items;
  mret (dict_of entries).

(** ** Notions used in the further statements *)

(** The sheets the 2010-2019 loader skips when it looks for the data. *)
Definition skipped_sheet (s : string) : Prop :=
  lower s ∈ ["contents"; "notes"; "metadata"].

(** A row whose key under the labels [by_] has no missing value. *)
Definition complete_key (df : DataFrame) (by_ : list string) (r : row) : Prop :=
  NaN ∉ sort_key (columns df) by_ r.

(** The integer at position [i] of a summary row, and the sum of a list
    of integers. *)
Definition int_at (i : nat) (vs : list value) : Z :=
  match vs !! i with Some (Int z) => z | _ => 0 end.

Definition sum_list_Z (l : list Z) : Z := foldr Z.add 0 l.

(** A write made by an export: in one of the supported formats. *)
Definition export_write (ev : event) : Prop :=
  match ev with
  | FsWrite _ output_format _ => supported output_format
  | _ => True
  end.

(** The calls that are no export. *)
Definition is_export (c : call) : bool :=
  match c with Export _ _ => true | _ => false end.

(** The number a cell counts for in a sum. *)
Definition number_of (c : cell) : Z := match c with Num z => z | _ => 0 end.

(** The numbers under the label [c] add up, in absolute value, to less
    than 2^53: every sum of some of them is the same number in int64 and
    in float64 arithmetic. *)
Definition exact_total (c : string) (df : DataFrame) : Prop :=
  sum_list_Z (Z.abs ∘ number_of ∘ cell_at df c <$> rows df) < 2 ^ 53.

#[global] Instance exact_total_dec c df : Decision (exact_total c df).
Proof. unfold exact_total. apply _. Defined.

(** The rows of the group of key [k], and the row a summary has for this
    group: the key, then the sum, the mean and the count of the incident
    counts, or the size of the group. *)
Definition group_rows (df : DataFrame) (by_ : list string) (k : list cell) : list row :=
  filter (λ r, sort_key (columns df) by_ r = k) (rows df).

Definition aggregates_row (df : DataFrame) (by_ : list string) (k : list cell)
  : list value :=
  let vals := cell_at df "incidents_recorded" <$> group_rows df by_ k in
  ((Key <$> k) ++ [Int (sum_numbers vals);
                   Float (agg_mean (sum_numbers vals) (agg_count vals));
                   Int (agg_count vals)])%list.

Definition size_row (df : DataFrame) (by_ : list string) (k : list cell) : list value :=
  ((Key <$> k) ++ [Int (Z.of_nat (length (group_rows df by_ k)))])%list.

(** The relation between a frame as read and the table a loader returns
    for it: the row labels are kept, the stamps are set, the year is
    coerced and every other cell is the one read, under its new label. *)
Definition made_from (text_to_number : string → option Z)
  (source_type source month : string) (raw df : DataFrame) : Prop :=
  let cols := canonical source_type <$> columns raw in
  columns df = union_columns cols ["data_source"; "year_ending_month"]
  ∧ Forall2 (λ r0 r,
       label r = label r0
       ∧ cell_at df "data_source" r = Str source
       ∧ cell_at df "year_ending_month" r = Str month
       ∧ cell_at df "year" r = coerce text_to_number (lookup_cell "year" cols (cells r0))
       ∧ ∀ c, c ∉ ["year"; "data_source"; "year_ending_month"] →
              cell_at df c r = lookup_cell c cols (cells r0))
     (rows raw) (rows df).

(** Every cached table was returned by its loader for some files, and
    nothing else is cached. *)
Definition cache_from_loaders (text_to_number : string → option Z) (st : State) : Prop :=
  dom (loaded_data st)
    ⊆ ({["criminal_incidents_2012_2021"; "criminal_incidents_2010_2019"]} : gset string)
  ∧ (∀ df, loaded_data st !! "criminal_incidents_2012_2021" = Some df →
           ∃ w sheet_name, read_table_2012_2021 text_to_number w sheet_name = Ok df)
  ∧ (∀ df, loaded_data st !! "criminal_incidents_2010_2019" = Some df →
           ∃ w sheet_name, read_table_2010_2019 text_to_number w sheet_name = Ok df).

(** ** Further samples *)

(** A sheet without a year, a sheet whose years are all unreadable, and
    a table whose years are numbers already. *)
Definition unlabelled_workbook : Workbook :=
  [("Table 01", {| header := ["Local Government Area"; "Incidents Recorded"];
                   body := [[Str "Yarra"; Num 5]] |})].

Definition blank_years_workbook : Workbook :=
  [("Table 01", {| header := ["Year"; "Local Government Area"];
                   body := [[Str "n.a."; Str "Yarra"]; [NaN; Str "Ararat"]] |})].

Definition files_without_year : World :=
  {| files := {[ data_file "criminal_incidents_2012_2021" := unlabelled_workbook;
                 data_file "criminal_incidents_2010_2019" := march_workbook ]} |}.

Definition files_with_blank_years : World :=
  {| files := {[ data_file "criminal_incidents_2012_2021" := blank_years_workbook;
                 data_file "criminal_incidents_2010_2019" := blank_years_workbook ]} |}.

Definition numeric_years : DataFrame :=
  Frame ["Year"; "LGA_NAME"] [Row 0 [Num 2015; Str "Yarra"]; Row 1 [NaN; Str "Ararat"]].

(** A March sheet that names the area twice: both labels become
    [lga_name]. *)
Definition twice_named_workbook : Workbook :=
  [("Data", {| header := ["Year"; "LGA_NAME"; "Local Government Area"; "Incidents Recorded"];
               body := [[Num 2010; Str "Yarra"; Str "Yarra"; Num 5]] |})].

Definition twice_named_files : World :=
  {| files := {[ data_file "criminal_incidents_2012_2021" := september_workbook;
                 data_file "criminal_incidents_2010_2019" := twice_named_workbook ]} |}.

Definition twice_named_table : DataFrame :=
  Eval vm_compute in
    match read_table_2010_2019 decimal_literal twice_named_files None with
    | Ok df => df
    | Raise _ => Frame [] []
    end.

(** The table a loader returns, or an empty frame when it raises. *)
Definition table_of (r : result DataFrame) : DataFrame :=
  match r with Ok df => df | Raise _ => Frame [] [] end.

Set Warnings "-clear-no-such-hyp".

(** * Labels and cells *)

Lemma occurrences_cons c l cols :
  occurrences c (l :: cols) = ((if decide (l = c) then 1 else 0) + occurrences c cols)%nat.
Proof. unfold occurrences. rewrite filter_cons. by destruct (decide (l = c)). Qed.

Lemma occurrences_zero c cols : occurrences c cols = 0%nat ↔ c ∉ cols.
Proof.
  induction cols as [|l cols IH].
  - split; [intros _; apply not_elem_of_nil|done].
  - rewrite occurrences_cons, not_elem_of_cons.
    destruct (decide (l = c)) as [->|Hne].
    + split; [lia|]. by intros [? _].
    + rewrite Nat.add_0_l, IH. split; [by intros ?; split; [congruence|]|by intros [_ ?]].
Qed.

Lemma occurrences_pos c cols : c ∈ cols ↔ (0 < occurrences c cols)%nat.
Proof.
  destruct (decide (c ∈ cols)) as [Hin|Hin].
  - split; [|done]. intros _. apply Nat.neq_0_lt_0.
    intros Hz. by apply occurrences_zero in Hz.
  - apply occurrences_zero in Hin as Hz. rewrite Hz. split; [done|lia].
Qed.

Lemma occurrences_NoDup c cols : NoDup cols → c ∈ cols → occurrences c cols = 1%nat.
Proof.
  induction 1 as [|l cols Hl Hnd IH]; [by rewrite elem_of_nil|].
  rewrite occurrences_cons, elem_of_cons. intros [->|Hin].
  - rewrite decide_True by done. apply occurrences_zero in Hl. lia.
  - rewrite decide_False by (intros ->; done). by rewrite IH.
Qed.

Lemma occurrences_app c l1 l2 :
  occurrences c (l1 ++ l2) = (occurrences c l1 + occurrences c l2)%nat.
Proof. unfold occurrences. by rewrite filter_app, length_app. Qed.

Lemma lookup_cell_nil_r c cols : lookup_cell c cols [] = NaN.
Proof. by destruct cols. Qed.

Lemma lookup_cell_absent c cols cs : c ∉ cols → lookup_cell c cols cs = NaN.
Proof.
  revert cs. induction cols as [|l cols IH]; intros [|x cs] Hc; simpl; try done.
  apply not_elem_of_cons in Hc as [? ?]. rewrite decide_False by done. by apply IH.
Qed.

(** Reading a row laid out under new labels gives what the row had. *)
Lemma lookup_cell_reindex c from to cs :
  c ∈ to →
  lookup_cell c to ((λ c', lookup_cell c' from cs) <$> to) = lookup_cell c from cs.
Proof.
  induction to as [|l to IH]; [by rewrite elem_of_nil|].
  rewrite elem_of_cons. intros Hc. simpl.
  destruct (decide (l = c)) as [->|Hne]; [done|].
  apply IH. by destruct Hc as [->|].
Qed.

Lemma lookup_cell_reindex_absent c from to cs :
  c ∉ from →
  lookup_cell c to ((λ c', lookup_cell c' from cs) <$> to) = NaN.
Proof.
  intros Hc. induction to as [|l to IH]; [done|]. simpl.
  destruct (decide (l = c)) as [->|Hne]; [by apply lookup_cell_absent|done].
Qed.

(** Laying a row out under its own labels changes nothing. *)
Lemma reindex_same_cells cols cs :
  NoDup cols → length cs = length cols →
  (λ c, lookup_cell c cols cs) <$> cols = cs.
Proof.
  intros Hnd. revert cs. induction Hnd as [|l cols Hl Hnd IH]; intros [|x cs] Hlen;
    simpl in *; try done.
  rewrite decide_True by done. f_equal.
  transitivity ((λ c, lookup_cell c cols cs) <$> cols); [|apply IH; lia].
  apply list_fmap_ext. intros i c Hc.
  rewrite decide_False; [done|]. intros ->. apply Hl. by eapply list_elem_of_lookup_2.
Qed.

(** Assignment to a label, read back. *)
Lemma lookup_cell_set_ne c c' v cols cs :
  c' ≠ c →
  lookup_cell c' cols (zip_with (λ l x, if decide (l = c) then v else x) cols cs)
  = lookup_cell c' cols cs.
Proof.
  intros Hne. revert cs. induction cols as [|l cols IH]; intros [|x cs]; simpl; try done.
  destruct (decide (l = c')) as [->|]; [by rewrite decide_False|]. apply IH.
Qed.

Lemma lookup_cell_set_eq c v cols cs :
  c ∈ cols → length cs = length cols →
  lookup_cell c cols (zip_with (λ l x, if decide (l = c) then v else x) cols cs) = v.
Proof.
  revert cs. induction cols as [|l cols IH]; intros [|x cs]; simpl;
    rewrite ?elem_of_nil; try done.
  rewrite elem_of_cons. intros Hc Hlen.
  destruct (decide (l = c)) as [->|Hne]; [done|].
  apply IH; [by destruct Hc as [->|]|lia].
Qed.

Lemma lookup_cell_snoc_ne c c' v cols cs :
  c' ≠ c → length cs = length cols →
  lookup_cell c' (cols ++ [c]) (cs ++ [v]) = lookup_cell c' cols cs.
Proof.
  intros Hne. revert cs. induction cols as [|l cols IH]; intros [|x cs] Hlen;
    simpl in *; try done.
  - by rewrite decide_False.
  - destruct (decide (l = c')); [done|]. apply IH. lia.
Qed.

Lemma lookup_cell_snoc_eq c v cols cs :
  c ∉ cols → length cs = length cols →
  lookup_cell c (cols ++ [c]) (cs ++ [v]) = v.
Proof.
  revert cs. induction cols as [|l cols IH]; intros [|x cs] Hc Hlen;
    simpl in *; try done.
  - by rewrite decide_True.
  - apply not_elem_of_cons in Hc as [? ?]. rewrite decide_False by done. apply IH; [done|lia].
Qed.

(** * Standardization *)

Lemma lookup_cell_set_same c v cols cs :
  let cs' := zip_with (λ l x, if decide (l = c) then v else x) cols cs in
  lookup_cell c cols cs' = v ∨ (lookup_cell c cols cs' = NaN ∧ lookup_cell c cols cs = NaN).
Proof.
  revert cs. induction cols as [|l cols IH]; intros [|x cs]; simpl; auto.
  destruct (decide (l = c)); [by left|]. apply IH.
Qed.

Lemma zip_with_set_idem c v cols cs :
  let f := (λ (l : string) (x : cell), if decide (l = c) then v else x) in
  zip_with f cols (zip_with f cols cs) = zip_with f cols cs.
Proof.
  revert cs. induction cols as [|l cols IH]; intros [|x cs]; simpl; try done.
  f_equal; [by destruct (decide (l = c))|apply IH].
Qed.

Section Standardize.
Variable text_to_number : string → option Z.
Local Abbreviation coerce := (coerce text_to_number).
Local Abbreviation standardize := (_standardize_columns text_to_number).

Lemma coerce_idem x : coerce (coerce x) = coerce x.
Proof. destruct x as [z|s|]; simpl; try done. by destruct (text_to_number s). Qed.

Lemma coerce_not_text x : is_text (coerce x) = false.
Proof. destruct x as [z|s|]; simpl; try done. by destruct (text_to_number s). Qed.

Lemma coerce_id x : is_text x = false → coerce x = x.
Proof. by destruct x. Qed.

Lemma columns_to_rename_lookup (m : gmap string string) cols c :
  c ∈ cols →
  (list_to_map (omap (λ col, (λ v, (col, v)) <$> m !! col) cols) : gmap string string) !! c
  = m !! c.
Proof.
  induction cols as [|a cols IH]; [by intros ?%elem_of_nil|].
  intros Hc. cbn [omap list_omap].
  destruct (decide (c = a)) as [->|Hne].
  - destruct (m !! a) as [v|] eqn:Ha; cbn.
    + by rewrite lookup_insert_eq.
    + destruct (decide (a ∈ cols)) as [Hin|Hin]; [by rewrite IH|].
      apply not_elem_of_list_to_map_1. rewrite list_elem_of_fmap.
      intros ([k v] & -> & Hkv). apply list_elem_of_omap in Hkv as (col & Hcol & Heq).
      destruct (m !! col); simplify_eq/=. done.
  - apply elem_of_cons in Hc as [?|Hc]; [done|].
    destruct (m !! a) as [v|] eqn:Ha; cbn.
    + rewrite lookup_insert_ne by done. by apply IH.
    + by apply IH.
Qed.

Lemma rename_renamed source_type df :
  rename (list_to_map
            (omap (λ col, (λ v, (col, v)) <$> default ∅ (COLUMN_MAPPINGS !! source_type) !! col)
                  (columns df))) df
  = renamed source_type df.
Proof.
  unfold rename, renamed. f_equal. apply list_fmap_ext. intros i c Hc.
  rewrite columns_to_rename_lookup by (by eapply list_elem_of_lookup_2). done.
Qed.

(** The three outcomes of the standardization, by the number of columns
    that end up labelled [year]. *)
Lemma standardize_unfold df source_type :
  standardize df source_type =
    match occurrences "year" (columns (renamed source_type df)) with
    | O => Ok (renamed source_type df)
    | S O => Ok (setitem (renamed source_type df) "year"
                   (to_numeric text_to_number
                      (cell_at (renamed source_type df) "year" <$> rows df)))
    | _ => Raise (TypeError "arg must be a list, tuple, 1-d array, or Series")
    end.
Proof.
  unfold _standardize_columns. rewrite rename_renamed.
  destruct (decide ("year" ∈ columns (renamed source_type df))) as [Hin|Hin].
  - unfold getitem. apply occurrences_pos in Hin.
    destruct (occurrences "year" (columns (renamed source_type df))) as [|[|n]]; [lia|done..].
  - apply occurrences_zero in Hin. by rewrite Hin.
Qed.
End Standardize.

Lemma COLUMN_MAPPINGS_closed :
  map_Forall (λ _ m, closed_mapping m) COLUMN_MAPPINGS.
Proof. unfold closed_mapping. apply (bool_decide_unpack _). vm_compute. reflexivity. Qed.

Lemma canonical_idem source_type c :
  canonical source_type (canonical source_type c) = canonical source_type c.
Proof.
  unfold canonical.
  destruct (COLUMN_MAPPINGS !! source_type) as [m|] eqn:Hm; simpl.
  - apply COLUMN_MAPPINGS_closed in Hm.
    destruct (m !! c) as [v|] eqn:Hc; simpl.
    + by apply Hm in Hc.
    + by rewrite Hc.
  - by rewrite !lookup_empty.
Qed.

Section StandardizeProperties.
Variable text_to_number : string → option Z.
Local Abbreviation standardize := (_standardize_columns text_to_number).

Lemma setitem_year_rows df :
  rows (setitem df "year" (to_numeric text_to_number (cell_at df "year" <$> rows df)))
  = (λ r, assign "year" (coerce text_to_number (cell_at df "year" r)) (columns df) r)
      <$> rows df.
Proof.
  unfold setitem, to_numeric. cbn [rows].
  rewrite <- list_fmap_compose, zip_with_fmap_r, zip_with_diag. done.
Qed.

Lemma setitem_year_frame cols rs :
  "year" ∈ cols →
  setitem (Frame cols rs) "year"
          (to_numeric text_to_number (cell_at (Frame cols rs) "year" <$> rs))
  = Frame cols ((λ r, assign "year" (coerce text_to_number (lookup_cell "year" cols (cells r)))
                             cols r)
                  <$> rs).
Proof.
  intros Hin. unfold setitem, to_numeric. cbn [rows columns].
  rewrite decide_True by done. f_equal.
  rewrite <- list_fmap_compose, zip_with_fmap_r, zip_with_diag. done.
Qed.

Lemma assign_coerce_idem cols r :
  "year" ∈ cols →
  let r' := assign "year" (coerce text_to_number (lookup_cell "year" cols (cells r))) cols r in
  assign "year" (coerce text_to_number (lookup_cell "year" cols (cells r'))) cols r' = r'.
Proof.
  intros Hin r'. subst r'. unfold assign. rewrite !decide_True by done. cbn [label cells].
  f_equal.
  destruct (lookup_cell_set_same "year" (coerce text_to_number (lookup_cell "year" cols (cells r)))
              cols (cells r)) as [->|[-> Hna]].
  - rewrite coerce_idem. apply zip_with_set_idem.
  - rewrite Hna. apply zip_with_set_idem.
Qed.

Lemma standardize_ok df source_type :
  (occurrences "year" (canonical source_type <$> columns df) ≤ 1)%nat →
  ∃ df', standardize df source_type = Ok df'
    ∧ columns df' = canonical source_type <$> columns df
    ∧ rows df' =
        if decide ("year" ∈ canonical source_type <$> columns df)
        then (λ r, assign "year" (coerce text_to_number (cell_at (renamed source_type df) "year" r))
                          (canonical source_type <$> columns df) r) <$> rows df
        else rows df.
Proof.
  intros Hocc. rewrite standardize_unfold. cbn [renamed columns].
  destruct (occurrences "year" (canonical source_type <$> columns df)) as [|[|n]] eqn:Ho;
    [| |lia].
  - eexists. split; [done|]. split; [done|]. cbn [rows renamed].
    apply occurrences_zero in Ho. by rewrite decide_False.
  - assert ("year" ∈ canonical source_type <$> columns df) as Hin
        by (apply occurrences_pos; lia).
    eexists. split; [done|]. split.
    + unfold setitem. cbn [columns renamed]. by rewrite decide_True.
    + etrans; [apply (setitem_year_rows (renamed source_type df))|].
      by rewrite decide_True.
Qed.

Lemma standardize_raises df source_type :
  (1 < occurrences "year" (canonical source_type <$> columns df))%nat →
  standardize df source_type
  = Raise (TypeError "arg must be a list, tuple, 1-d array, or Series").
Proof.
  intros Hocc. rewrite standardize_unfold. cbn [renamed columns].
  by destruct (occurrences "year" (canonical source_type <$> columns df)) as [|[|n]]; [lia..|].
Qed.

(** C5, for tables in which at most one column becomes [year]. The
    standardization succeeds, whatever the labels and the vintage
    identifier; every label that is a key of the vintage's mapping is
    replaced by its canonical name and every other label is kept; the
    row labels and the cells outside the [year] column are unchanged;
    and standardizing the result again returns it unchanged. *)
Theorem standardize_renames_mapped_columns df source_type :
  (occurrences "year" (canonical source_type <$> columns df) ≤ 1)%nat →
  ∃ df', standardize df source_type = Ok df'
    ∧ columns df' = canonical source_type <$> columns df
    ∧ Forall2 (λ r r', label r' = label r
                 ∧ ∀ c, c ≠ "year" →
                        cell_at df' c r' = lookup_cell c (columns df') (cells r))
              (rows df) (rows df')
    ∧ standardize df' source_type = Ok df'.
Proof.
  intros Hocc. destruct (standardize_ok df source_type Hocc) as (df' & Hok & Hcols & Hrows).
  exists df'. split; [done|]. split; [done|]. split.
  - rewrite Hrows. case_decide as Hin.
    + apply Forall2_fmap_r, Forall_Forall2_diag, Forall_forall. intros r _.
      split; [done|]. intros c Hc. unfold cell_at, assign. rewrite Hcols.
      rewrite decide_True by done. cbn [cells]. by apply lookup_cell_set_ne.
    + apply Forall_Forall2_diag, Forall_forall. intros r _. done.
  - assert (renamed source_type df' = df') as Hren.
    { unfold renamed. rewrite Hcols, <- list_fmap_compose.
      rewrite (list_fmap_ext _ (canonical source_type) (columns df)).
      - rewrite <- Hcols. by destruct df'.
      - intros i c _. apply canonical_idem. }
    rewrite standardize_unfold, Hren, Hcols.
    destruct (occurrences "year" (canonical source_type <$> columns df)) as [|[|n]] eqn:Ho;
      [done| |lia].
    assert ("year" ∈ canonical source_type <$> columns df) as Hin
        by (apply occurrences_pos; lia).
    f_equal. destruct df' as [cols' rows']. cbn [columns rows] in *. subst cols'.
    rewrite decide_True in Hrows by done.
    rewrite setitem_year_frame by done. f_equal.
    rewrite Hrows, <- list_fmap_compose.
    apply list_fmap_ext. intros i r _. cbn. unfold cell_at. cbn [columns renamed].
    apply assign_coerce_idem. done.
Qed.

(** C6, for tables in which exactly one column becomes [year]. The
    standardization succeeds whatever the values of that column; each
    year cell of the result is the coercion of the cell it replaces, so
    the column holds no text; the coercion keeps a number, turns a text
    that reads as a number into that number and any other text into the
    missing marker. With decimal literals, the text 2015 becomes the
    number 2015 and the text N/A becomes missing. *)
Theorem year_is_numeric_after_standardization df source_type :
  occurrences "year" (canonical source_type <$> columns df) = 1%nat →
  ∃ df', standardize df source_type = Ok df'
    ∧ Forall2 (λ r r', cell_at df' "year" r'
                       = coerce text_to_number (cell_at (renamed source_type df) "year" r))
              (rows df) (rows df')
    ∧ numeric_column "year" df'
    ∧ (∀ z, coerce text_to_number (Num z) = Num z)
    ∧ (∀ s z, text_to_number s = Some z → coerce text_to_number (Str s) = Num z)
    ∧ (∀ s, text_to_number s = None → coerce text_to_number (Str s) = NaN)
    ∧ coerce decimal_literal (Str "2015") = Num 2015
    ∧ coerce decimal_literal (Str "N/A") = NaN.
Proof.
  intros Hocc.
  destruct (standardize_ok df source_type) as (df' & Hok & Hcols & Hrows); [lia|].
  assert ("year" ∈ canonical source_type <$> columns df) as Hin
      by (apply occurrences_pos; lia).
  rewrite decide_True in Hrows by done.
  assert (∀ r, lookup_cell "year" (canonical source_type <$> columns df)
                 (cells (assign "year"
                           (coerce text_to_number (cell_at (renamed source_type df) "year" r))
                           (canonical source_type <$> columns df) r))
               = coerce text_to_number (cell_at (renamed source_type df) "year" r)) as Hyear.
  { intros r. unfold assign. rewrite decide_True by done. cbn [cells].
    destruct (lookup_cell_set_same "year"
                (coerce text_to_number (cell_at (renamed source_type df) "year" r))
                (canonical source_type <$> columns df) (cells r)) as [->|[-> Hna]]; [done|].
    unfold cell_at. cbn [renamed columns]. by rewrite Hna. }
  exists df'. split; [done|]. split; [|split].
  - rewrite Hrows. apply Forall2_fmap_r, Forall_Forall2_diag, Forall_forall. intros r _.
    unfold cell_at at 1. rewrite Hcols. apply Hyear.
  - unfold numeric_column. rewrite Hrows. apply Forall_fmap, Forall_forall. intros r _.
    unfold compose. unfold cell_at at 1. rewrite Hcols, Hyear. apply coerce_not_text.
  - repeat split; try done.
    + intros s z Hs. cbn. by rewrite Hs.
    + intros s Hs. cbn. by rewrite Hs.
Qed.
End StandardizeProperties.

(** * The order of sort keys *)

Lemma string_leb_refl s : String.leb s s = true.
Proof. by destruct (String.leb_total s s). Qed.

Lemma string_leb_trans s t u :
  String.leb s t = true → String.leb t u = true → String.leb s u = true.
Proof.
  unfold String.leb. intros Hst Htu.
  destruct (String.compare s t) eqn:Est; try done.
  - apply String.compare_eq_iff in Est as ->. done.
  - destruct (String.compare t u) eqn:Etu; try done.
    + apply String.compare_eq_iff in Etu as <-. by rewrite Est.
    + apply String_as_OT.cmp_lt in Est, Etu.
      pose proof (String_as_OT.lt_trans _ _ _ Est Etu) as Hsu.
      apply String_as_OT.cmp_lt in Hsu. unfold String_as_OT.cmp in Hsu. by rewrite Hsu.
Qed.

#[global] Instance cell_le_refl : Reflexive cell_le.
Proof. intros [z|s|]; simpl; [lia|apply string_leb_refl|done]. Qed.

#[global] Instance cell_le_trans : Transitive cell_le.
Proof.
  intros [x|s|] [y|t|] [z|u|]; simpl; try done; [lia|apply string_leb_trans].
Qed.

#[global] Instance cell_le_antisym : AntiSymm (=) cell_le.
Proof.
  intros [x|s|] [y|t|]; simpl; try done.
  - intros. f_equal. lia.
  - intros. f_equal. by apply String.leb_antisym.
Qed.

#[global] Instance cell_le_total : Total cell_le.
Proof.
  intros [x|s|] [y|t|]; simpl; auto; [lia|apply String.leb_total].
Qed.

Lemma cell_lt_trans a b c : cell_lt a b → cell_lt b c → cell_lt a c.
Proof.
  intros [Hab Hne] [Hbc Hne']. split; [by etrans|].
  intros ->. apply Hne. by apply (anti_symm cell_le).
Qed.

Lemma cell_trichotomy a b : cell_lt a b ∨ a = b ∨ cell_lt b a.
Proof.
  destruct (decide (a = b)) as [|Hne]; [auto|].
  destruct (total cell_le a b); [left|right; right]; split; auto.
Qed.

Lemma cell_lt_irrefl a : ¬ cell_lt a a.
Proof. by intros [_ ?]. Qed.

#[global] Instance key_le_refl : Reflexive key_le.
Proof. intros k. induction k as [|a k IH]; simpl; auto. Qed.

#[global] Instance key_le_trans : Transitive key_le.
Proof.
  intros k1. induction k1 as [|a k1 IH]; intros [|b k2] [|c k3]; simpl; try done.
  intros [Hab|[-> H12]] [Hbc|[-> H23]]; eauto using cell_lt_trans.
Qed.

#[global] Instance key_le_total : Total key_le.
Proof.
  intros k1. induction k1 as [|a k1 IH]; intros [|b k2]; simpl; auto.
  destruct (cell_trichotomy a b) as [?|[->|?]]; auto.
  destruct (IH k2); auto.
Qed.

#[global] Instance row_le_trans cols by_ : Transitive (row_le cols by_).
Proof. intros r1 r2 r3. unfold row_le. apply key_le_trans. Qed.

#[global] Instance row_le_total cols by_ : Total (row_le cols by_).
Proof. intros r1 r2. unfold row_le. apply key_le_total. Qed.

#[global] Instance trend_le_trans : Transitive trend_le.
Proof. intros r1 r2 r3. unfold trend_le. apply key_le_trans. Qed.

#[global] Instance trend_le_total : Total trend_le.
Proof. intros r1 r2. unfold trend_le. apply key_le_total. Qed.

(** * Stable insertion sort *)

Section StableSortFacts.
Context {A : Type} (le : A → A → Prop) `{!∀ x y, Decision (le x y)}.

Lemma insert_sorted_Permutation a l : insert_sorted le a l ≡ₚ a :: l.
Proof.
  induction l as [|x l IH]; simpl; [done|].
  destruct (decide (le a x)); [done|]. rewrite IH. apply Permutation_swap.
Qed.

Lemma stable_sort_Permutation l : stable_sort le l ≡ₚ l.
Proof.
  induction l as [|x l IH]; simpl; [done|].
  rewrite insert_sorted_Permutation. by f_equiv.
Qed.

Lemma stable_sort_length l : length (stable_sort le l) = length l.
Proof. apply Permutation_length, stable_sort_Permutation. Qed.

Lemma stable_sort_elem_of a l : a ∈ stable_sort le l ↔ a ∈ l.
Proof. by rewrite stable_sort_Permutation. Qed.

Context `{!Total le}.

Lemma insert_sorted_HdRel a b l :
  le b a → HdRel le b l → HdRel le b (insert_sorted le a l).
Proof.
  intros Hba Hl. destruct l as [|x l]; simpl; [by constructor|].
  destruct (decide (le a x)); constructor; [done|]. by inversion Hl.
Qed.

Lemma insert_sorted_Sorted a l : Sorted le l → Sorted le (insert_sorted le a l).
Proof.
  induction 1 as [|x l Hl IH Hhd]; simpl; [by repeat constructor|].
  destruct (decide (le a x)) as [Hax|Hax].
  - by repeat constructor.
  - constructor; [done|]. apply insert_sorted_HdRel; [|done].
    by destruct (total le a x).
Qed.

Lemma stable_sort_Sorted l : Sorted le (stable_sort le l).
Proof.
  induction l as [|x l IH]; simpl; [constructor|]. by apply insert_sorted_Sorted.
Qed.

Lemma stable_sort_StronglySorted `{!Transitive le} l : StronglySorted le (stable_sort le l).
Proof. apply Sorted_StronglySorted; [done|]. apply stable_sort_Sorted. Qed.
End StableSortFacts.

(** * The loaders and the cache *)

Lemma logged_logged evs1 evs2 st : logged evs2 (logged evs1 st) = logged (evs1 ++ evs2) st.
Proof. unfold logged. cbn. by rewrite app_assoc. Qed.

Section Loaders.
Variable text_to_number : string → option Z.
Local Abbreviation standardize := (_standardize_columns text_to_number).
Local Abbreviation load_2012 := (load_criminal_incidents_2012_2021 text_to_number).
Local Abbreviation load_2010 := (load_criminal_incidents_2010_2019 text_to_number).
Local Abbreviation read_2012 := (read_table_2012_2021 text_to_number).
Local Abbreviation read_2010 := (read_table_2010_2019 text_to_number).

Lemma load_2012_run w sheet_name st :
  load_2012 w sheet_name st =
    (read_2012 w sheet_name,
     after_load (load_events_2012_2021 w) (read_2012 w sheet_name)
                (cached "criminal_incidents_2012_2021") st).
Proof.
  unfold load_criminal_incidents_2012_2021, read_table_2012_2021, after_load,
    load_events_2012_2021.
  generalize (data_file "criminal_incidents_2012_2021"). intros file_path.
  unfold mbind, M_bind, path_exists, open_workbook, log, mret, M_ret, raise, lift, cache_set,
    mbind, M_bind, stamp, logged, cached.
  cbn [loaded_data effects].
  destruct (files w !! file_path) as [wb|]; cbn; [|done].
  rewrite <- !app_assoc. cbn.
  destruct (read_excel wb sheet_name) as [raw|e]; cbn; [|done].
  destruct (standardize raw "2012_2021") as [std|e]; cbn; done.
Qed.

Lemma load_2010_run w sheet_name st :
  load_2010 w sheet_name st =
    (read_2010 w sheet_name,
     after_load (load_events_2010_2019 w sheet_name) (read_2010 w sheet_name)
                (cached "criminal_incidents_2010_2019") st).
Proof.
  unfold load_criminal_incidents_2010_2019, read_table_2010_2019, after_load,
    load_events_2010_2019, chosen_sheet.
  generalize (data_file "criminal_incidents_2010_2019"). intros file_path.
  unfold mbind, M_bind, path_exists, open_workbook, log, mret, M_ret, raise, lift, cache_set,
    mbind, M_bind, stamp, logged, cached.
  cbn [loaded_data effects].
  destruct (files w !! file_path) as [wb|]; cbn; [|done].
  rewrite <- !app_assoc. cbn.
  destruct sheet_name as [s|]; cbn.
  - rewrite <- !app_assoc. cbn.
    destruct (read_excel wb s) as [raw|e]; cbn; [|done].
    destruct (standardize raw "2010_2019") as [std|e]; cbn; done.
  - destruct (filter _ (sheet_names wb)) as [|s ?]; [destruct (sheet_names wb) as [|s ?]|];
      cbn; try done.
    all: rewrite <- !app_assoc; cbn.
    all: destruct (read_excel wb s) as [raw|e]; cbn; [|done].
    all: destruct (standardize raw "2010_2019") as [std|e]; cbn; done.
Qed.
End Loaders.

(** * Frames produced by the loaders *)

Lemma length_pad n cs : length (pad n cs) = n.
Proof. unfold pad. rewrite length_take, length_app, length_replicate. lia. Qed.

Lemma aligned_frame_of_sheet s : aligned (frame_of_sheet s).
Proof.
  unfold aligned, frame_of_sheet. cbn [rows columns]. apply Forall_forall.
  intros r (i & cs & -> & _)%elem_of_lookup_imap. cbn. apply length_pad.
Qed.

Lemma length_assign c v cols r :
  length (cells r) = length cols →
  length (cells (assign c v cols r))
  = length (if decide (c ∈ cols) then cols else cols ++ [c]).
Proof.
  intros Hlen. unfold assign. cbn [cells]. case_decide.
  - rewrite length_zip_with. lia.
  - rewrite !length_app. cbn. lia.
Qed.

Lemma lookup_cell_assign_ne c c' v cols r :
  c' ≠ c → length (cells r) = length cols →
  lookup_cell c' (if decide (c ∈ cols) then cols else cols ++ [c])
              (cells (assign c v cols r))
  = lookup_cell c' cols (cells r).
Proof.
  intros Hne Hlen. unfold assign. cbn [cells]. case_decide.
  - by apply lookup_cell_set_ne.
  - by apply lookup_cell_snoc_ne.
Qed.

Lemma lookup_cell_assign_eq c v cols r :
  length (cells r) = length cols →
  lookup_cell c (if decide (c ∈ cols) then cols else cols ++ [c])
              (cells (assign c v cols r))
  = v.
Proof.
  intros Hlen. unfold assign. cbn [cells]. case_decide.
  - by apply lookup_cell_set_eq.
  - by apply lookup_cell_snoc_eq.
Qed.

Lemma setitem_scalar_columns df c v :
  columns (setitem_scalar df c v)
  = if decide (c ∈ columns df) then columns df else (columns df ++ [c])%list.
Proof. done. Qed.

Lemma setitem_scalar_rows df c v :
  rows (setitem_scalar df c v) = (λ r, assign c v (columns df) r) <$> rows df.
Proof.
  unfold setitem_scalar, setitem. cbn [rows].
  by rewrite zip_with_replicate_r_eq.
Qed.

Lemma setitem_scalar_aligned df c v : aligned df → aligned (setitem_scalar df c v).
Proof.
  unfold aligned. rewrite setitem_scalar_rows, setitem_scalar_columns, Forall_fmap.
  intros Hal. eapply Forall_impl; [exact Hal|]. intros r Hr. by apply length_assign.
Qed.

Lemma setitem_scalar_in df c v : c ∈ columns (setitem_scalar df c v).
Proof.
  rewrite setitem_scalar_columns. case_decide; [done|]. set_solver.
Qed.

Lemma setitem_scalar_occurrences df c c' v :
  c' ≠ c →
  occurrences c' (columns (setitem_scalar df c v)) = occurrences c' (columns df).
Proof.
  intros Hne. rewrite setitem_scalar_columns. case_decide; [done|].
  rewrite occurrences_app. unfold occurrences at 2. rewrite filter_cons, decide_False by done.
  cbn. lia.
Qed.

(** A property of the cells under a label other than the one assigned
    is kept; the assigned label reads the value. *)
Lemma setitem_scalar_keeps (P : cell → Prop) df c c' v :
  c' ≠ c → aligned df →
  Forall (λ r, P (cell_at df c' r)) (rows df) →
  Forall (λ r, P (cell_at (setitem_scalar df c v) c' r)) (rows (setitem_scalar df c v)).
Proof.
  intros Hne Hal HP. rewrite setitem_scalar_rows, Forall_fmap.
  unfold aligned in Hal. rewrite Forall_forall in Hal, HP. apply Forall_forall.
  intros r Hr. unfold compose, cell_at. rewrite setitem_scalar_columns.
  rewrite lookup_cell_assign_ne by auto. by apply HP.
Qed.

Lemma setitem_scalar_constant df c v :
  aligned df → constant_column c v (setitem_scalar df c v).
Proof.
  intros Hal. split; [apply setitem_scalar_in|].
  rewrite setitem_scalar_rows, Forall_fmap.
  unfold aligned in Hal. rewrite Forall_forall in Hal. apply Forall_forall.
  intros r Hr. unfold compose, cell_at. rewrite setitem_scalar_columns.
  by rewrite lookup_cell_assign_eq by auto.
Qed.

Lemma setitem_scalar_constant_keeps df c c' v v' :
  c' ≠ c → aligned df →
  constant_column c' v' df → constant_column c' v' (setitem_scalar df c v).
Proof.
  intros Hne Hal [Hin Hall]. split.
  - rewrite setitem_scalar_columns. case_decide; [done|]. set_solver.
  - by apply (setitem_scalar_keeps (λ x, x = v')).
Qed.

Lemma stamp_loaded source month std :
  aligned std → (occurrences "year" (columns std) ≤ 1)%nat → numeric_column "year" std →
  loaded source (stamp source month std).
Proof.
  intros Hal Hocc Hnum. unfold stamp.
  pose proof (setitem_scalar_aligned std "data_source" (Str source) Hal) as Hal1.
  split.
  - by apply setitem_scalar_aligned.
  - by rewrite !setitem_scalar_occurrences by done.
  - apply (setitem_scalar_keeps (λ x, is_text x = false)); [done..|].
    by apply (setitem_scalar_keeps (λ x, is_text x = false)).
  - apply setitem_scalar_constant_keeps; [done..|]. by apply setitem_scalar_constant.
Qed.

Section LoadedTables.
Variable text_to_number : string → option Z.
Local Abbreviation coerce := (coerce text_to_number).
Local Abbreviation standardize := (_standardize_columns text_to_number).

Lemma standardize_inv raw std source_type :
  standardize raw source_type = Ok std →
  columns std = canonical source_type <$> columns raw
  ∧ (occurrences "year" (columns std) ≤ 1)%nat
  ∧ rows std =
      if decide ("year" ∈ columns std)
      then (λ r, assign "year" (coerce (lookup_cell "year" (columns std) (cells r)))
                        (columns std) r) <$> rows raw
      else rows raw.
Proof.
  intros Hok.
  destruct (decide (occurrences "year" (canonical source_type <$> columns raw) ≤ 1)%nat)
    as [Hocc|Hocc].
  - destruct (standardize_ok text_to_number raw source_type Hocc) as (df' & Hok' & Hc & Hr).
    rewrite Hok in Hok'. injection Hok' as <-. rewrite Hc. done.
  - rewrite standardize_raises in Hok by lia. done.
Qed.

Lemma year_after_assign cols r :
  lookup_cell "year" cols
    (cells (assign "year" (coerce (lookup_cell "year" cols (cells r))) cols r))
  = coerce (lookup_cell "year" cols (cells r)).
Proof.
  unfold assign. cbn [cells]. case_decide as Hin.
  - destruct (lookup_cell_set_same "year" (coerce (lookup_cell "year" cols (cells r)))
                cols (cells r)) as [->|[-> Hna]]; [done|]. by rewrite Hna.
  - rewrite !lookup_cell_absent by done. done.
Qed.

Lemma standardize_loaded raw std source_type :
  aligned raw → standardize raw source_type = Ok std →
  aligned std ∧ (occurrences "year" (columns std) ≤ 1)%nat ∧ numeric_column "year" std.
Proof.
  intros Hal (Hcols & Hocc & Hrows)%standardize_inv.
  assert (length (columns std) = length (columns raw)) as Hlen
      by (by rewrite Hcols, length_fmap).
  unfold aligned, numeric_column. rewrite Hrows. unfold aligned in Hal.
  split; [|split; [done|]]; case_decide as Hin.
  - rewrite Forall_fmap. eapply Forall_impl; [exact Hal|]. intros r Hr.
    unfold compose, assign. cbn [cells].
    rewrite decide_True by done. rewrite length_zip_with. cbn beta in Hr. lia.
  - eapply Forall_impl; [exact Hal|]. intros r Hr. cbn beta in *. lia.
  - rewrite Forall_fmap. apply Forall_forall. intros r _. unfold compose, cell_at.
    rewrite year_after_assign. apply coerce_not_text.
  - apply Forall_forall. intros r _. unfold cell_at. by rewrite lookup_cell_absent.
Qed.

Lemma read_table_2012_2021_loaded w sheet_name df :
  read_table_2012_2021 text_to_number w sheet_name = Ok df → loaded "CSA_2012_2021" df.
Proof.
  unfold read_table_2012_2021. destruct (files w !! _) as [wb|]; [|done].
  unfold read_excel at 1. destruct (find_sheet wb sheet_name) as [s|]; [|done]. cbn.
  destruct (standardize _ _) as [std|] eqn:Hstd; [|done]. cbn. intros [= <-].
  apply standardize_loaded in Hstd as (? & ? & ?); [|apply aligned_frame_of_sheet].
  by apply stamp_loaded.
Qed.

Lemma read_table_2010_2019_loaded w sheet_name df :
  read_table_2010_2019 text_to_number w sheet_name = Ok df → loaded "CSA_2010_2019" df.
Proof.
  unfold read_table_2010_2019. destruct (files w !! _) as [wb|]; [|done].
  destruct (chosen_sheet wb sheet_name) as [s0|]; [|done]. cbn.
  unfold read_excel at 1. destruct (find_sheet wb s0) as [s|]; [|done]. cbn.
  destruct (standardize _ _) as [std|] eqn:Hstd; [|done]. cbn. intros [= <-].
  apply standardize_loaded in Hstd as (? & ? & ?); [|apply aligned_frame_of_sheet].
  by apply stamp_loaded.
Qed.
End LoadedTables.

Section Sessions.
Variable text_to_number : string → option Z.
Local Abbreviation load_2012 := (load_criminal_incidents_2012_2021 text_to_number).
Local Abbreviation load_2010 := (load_criminal_incidents_2010_2019 text_to_number).
Local Abbreviation read_2012 := (read_table_2012_2021 text_to_number).
Local Abbreviation read_2010 := (read_table_2010_2019 text_to_number).
Local Abbreviation obtain := (obtain_tables text_to_number).
Local Abbreviation merge := (merge_time_series text_to_number).

Lemma try_load_2012_run w sheet_name st :
  try_except_FileNotFoundError (Some <$> load_2012 w sheet_name) (mret None) st
  = (fetch None (read_2012 w sheet_name),
     after_load (load_events_2012_2021 w) (read_2012 w sheet_name)
                (cached "criminal_incidents_2012_2021") st).
Proof.
  unfold try_except_FileNotFoundError, fmap, M_fmap. rewrite load_2012_run.
  by destruct (read_2012 w sheet_name) as [df|[]].
Qed.

Lemma try_load_2010_run w sheet_name st :
  try_except_FileNotFoundError (Some <$> load_2010 w sheet_name) (mret None) st
  = (fetch None (read_2010 w sheet_name),
     after_load (load_events_2010_2019 w sheet_name) (read_2010 w sheet_name)
                (cached "criminal_incidents_2010_2019") st).
Proof.
  unfold try_except_FileNotFoundError, fmap, M_fmap. rewrite load_2010_run.
  by destruct (read_2010 w sheet_name) as [df|[]].
Qed.

Lemma obtain_tables_run w st :
  let c12 := loaded_data st !! "criminal_incidents_2012_2021" in
  let c10 := loaded_data st !! "criminal_incidents_2010_2019" in
  let r12 := read_2012 w "Table 01" in
  let r10 := read_2010 w None in
  let st1 := after_fetch (load_events_2012_2021 w) c12 r12
               (cached "criminal_incidents_2012_2021") st in
  let st2 := after_fetch (load_events_2010_2019 w None) c10 r10
               (cached "criminal_incidents_2010_2019") st1 in
  obtain w st =
    match fetch c12 r12 with
    | Raise e => (Raise e, st1)
    | Ok o12 =>
        match fetch c10 r10 with
        | Raise e => (Raise e, st2)
        | Ok o10 => (Ok (o12, o10), st2)
        end
    end.
Proof.
  intros c12 c10 r12 r10 st1 st2. subst st1 st2.
  unfold obtain_tables, mbind, M_bind, cache_get. fold c12 c10.
  destruct c12 as [d12|], c10 as [d10|]; cbn [after_fetch];
    repeat match goal with
      | |- context [@mret M _ ?A ?a ?s] => change (@mret M _ A a s) with (Ok a, s)
      end; cbv iota beta.
  - done.
  - rewrite try_load_2010_run. fold r10. cbn. by destruct (fetch None r10).
  - rewrite try_load_2012_run. fold r12. cbn. by destruct (fetch None r12).
  - rewrite try_load_2012_run. fold r12. destruct (fetch None r12); [|done].
    rewrite try_load_2010_run. fold r10. by destruct (fetch None r10).
Qed.

Lemma merge_time_series_run w prefer_september st :
  merge w prefer_september st =
    match obtain w st with
    | (Ok tables, st') =>
        (merge_outcome (merge_both prefer_september) tables, st')
    | (Raise e, st') => (Raise e, st')
    end.
Proof.
  unfold merge_time_series, obtain_tables, mbind, M_bind, cache_get.
  destruct (loaded_data st !! "criminal_incidents_2012_2021") as [d12|],
           (loaded_data st !! "criminal_incidents_2010_2019") as [d10|]; cbn.
  - done.
  - destruct (try_except_FileNotFoundError _ _ st) as [[[o10|]|e] st']; done.
  - destruct (try_except_FileNotFoundError _ _ st) as [[[o12|]|e] st']; done.
  - destruct (try_except_FileNotFoundError _ _ st) as [[[o12|]|e] st']; [| |done].
    all: destruct (try_except_FileNotFoundError _ _ st') as [[[o10|]|e] st'']; done.
Qed.
End Sessions.

Lemma cache_ok_logged evs st : cache_ok st → cache_ok (logged evs st).
Proof. done. Qed.

Lemma cache_ok_cached_2012 df st :
  loaded "CSA_2012_2021" df → cache_ok st →
  cache_ok (cached "criminal_incidents_2012_2021" df st).
Proof.
  intros Hdf [H12 H10]. split; intros df'; cbn.
  - rewrite lookup_insert_eq. by intros [= <-].
  - rewrite lookup_insert_ne by done. apply H10.
Qed.

Lemma cache_ok_cached_2010 df st :
  loaded "CSA_2010_2019" df → cache_ok st →
  cache_ok (cached "criminal_incidents_2010_2019" df st).
Proof.
  intros Hdf [H12 H10]. split; intros df'; cbn.
  - rewrite lookup_insert_ne by done. apply H12.
  - rewrite lookup_insert_eq. by intros [= <-].
Qed.

Lemma cache_ok_init : cache_ok init.
Proof. split; intros df; cbn; by rewrite lookup_empty. Qed.

Lemma reads_only_refl st : reads_only st st.
Proof. exists []. by rewrite app_nil_r. Qed.

Lemma reads_only_trans st1 st2 st3 :
  reads_only st1 st2 → reads_only st2 st3 → reads_only st1 st3.
Proof.
  intros (e1 & H1 & F1) (e2 & H2 & F2). exists (e1 ++ e2)%list.
  rewrite H2, H1, app_assoc. split; [done|]. by apply Forall_app.
Qed.

Lemma reads_only_after_load {A} evs (r : result A) cache st :
  Forall (λ ev, is_write ev = false) evs →
  (∀ a st0, effects (cache a st0) = effects st0) →
  reads_only st (after_load evs r cache st).
Proof.
  intros Hevs Hc. exists evs. split; [|done].
  unfold after_load. destruct r; [rewrite Hc|]; done.
Qed.

Lemma load_events_2012_2021_reads w :
  Forall (λ ev, is_write ev = false) (load_events_2012_2021 w).
Proof. unfold load_events_2012_2021. destruct (files w !! _); repeat constructor. Qed.

Lemma load_events_2010_2019_reads w sheet_name :
  Forall (λ ev, is_write ev = false) (load_events_2010_2019 w sheet_name).
Proof.
  unfold load_events_2010_2019. destruct (files w !! _) as [wb|]; [|repeat constructor].
  destruct (chosen_sheet wb sheet_name); repeat constructor.
Qed.

Section Reachable.
Variable text_to_number : string → option Z.
Local Abbreviation read_2012 := (read_table_2012_2021 text_to_number).
Local Abbreviation read_2010 := (read_table_2010_2019 text_to_number).
Local Abbreviation obtain := (obtain_tables text_to_number).
Local Abbreviation merge := (merge_time_series text_to_number).

Lemma cache_ok_after_load_2012 w sheet_name st :
  cache_ok st →
  cache_ok (after_load (load_events_2012_2021 w) (read_2012 w sheet_name)
              (cached "criminal_incidents_2012_2021") st).
Proof.
  intros Hst. unfold after_load.
  destruct (read_2012 w sheet_name) as [df|e] eqn:Hr; [|done].
  apply cache_ok_cached_2012; [|done]. by eapply read_table_2012_2021_loaded.
Qed.

Lemma cache_ok_after_load_2010 w sheet_name st :
  cache_ok st →
  cache_ok (after_load (load_events_2010_2019 w sheet_name) (read_2010 w sheet_name)
              (cached "criminal_incidents_2010_2019") st).
Proof.
  intros Hst. unfold after_load.
  destruct (read_2010 w sheet_name) as [df|e] eqn:Hr; [|done].
  apply cache_ok_cached_2010; [|done]. by eapply read_table_2010_2019_loaded.
Qed.

Lemma after_fetch_2012_state w c sheet_name st :
  let st' := after_fetch (load_events_2012_2021 w) c (read_2012 w sheet_name)
               (cached "criminal_incidents_2012_2021") st in
  cache_ok st → cache_ok st' ∧ reads_only st st'.
Proof.
  intros st' Hst. subst st'. destruct c; cbn [after_fetch].
  - split; [done|apply reads_only_refl].
  - split; [by apply cache_ok_after_load_2012|].
  by apply reads_only_after_load; [apply load_events_2012_2021_reads|].
Qed.

Lemma after_fetch_2010_state w c sheet_name st :
  let st' := after_fetch (load_events_2010_2019 w sheet_name) c (read_2010 w sheet_name)
               (cached "criminal_incidents_2010_2019") st in
  cache_ok st → cache_ok st' ∧ reads_only st st'.
Proof.
  intros st' Hst. subst st'. destruct c; cbn [after_fetch].
  - split; [done|apply reads_only_refl].
  - split; [by apply cache_ok_after_load_2010|].
  by apply reads_only_after_load; [apply load_events_2010_2019_reads|].
Qed.

Lemma obtain_tables_state w st :
  cache_ok st → cache_ok (obtain w st).2 ∧ reads_only st (obtain w st).2.
Proof.
  intros Hst. rewrite obtain_tables_run.
  set (st1 := after_fetch _ _ _ _ st).
  set (st2 := after_fetch _ _ _ _ st1).
  destruct (after_fetch_2012_state w (loaded_data st !! "criminal_incidents_2012_2021")
              "Table 01" st Hst) as [Hst1 Hr1]. fold st1 in Hst1, Hr1.
  destruct (after_fetch_2010_state w (loaded_data st !! "criminal_incidents_2010_2019")
              None st1 Hst1) as [Hst2 Hr2]. fold st2 in Hst2, Hr2.
  destruct (fetch _ _); [|done].
  destruct (fetch _ _); cbn; eauto using reads_only_trans.
Qed.

(** The tables a merge works from are tables of the loaders. *)
Lemma obtain_tables_loaded w st o12 o10 :
  cache_ok st → (obtain w st).1 = Ok (o12, o10) →
  (∀ df, o12 = Some df → loaded "CSA_2012_2021" df)
  ∧ (∀ df, o10 = Some df → loaded "CSA_2010_2019" df).
Proof.
  intros [H12 H10]. rewrite obtain_tables_run.
  destruct (fetch _ (read_2012 _ _)) as [o12'|] eqn:F12; [|done].
  destruct (fetch _ (read_2010 _ _)) as [o10'|] eqn:F10; [|done].
  cbn. intros [= <- <-]. split; intros df ->.
  - unfold fetch in F12.
    destruct (loaded_data st !! "criminal_incidents_2012_2021") as [d|] eqn:Hc.
    + injection F12 as <-. by apply H12.
    + destruct (read_2012 w "Table 01") as [d|[]] eqn:Hr; simplify_eq.
      by eapply read_table_2012_2021_loaded.
  - unfold fetch in F10.
    destruct (loaded_data st !! "criminal_incidents_2010_2019") as [d|] eqn:Hc.
    + injection F10 as <-. by apply H10.
    + destruct (read_2010 w None) as [d|[]] eqn:Hr; simplify_eq.
      by eapply read_table_2010_2019_loaded.
Qed.

Lemma merge_time_series_state w prefer_september st :
  (merge w prefer_september st).2 = (obtain w st).2.
Proof.
  rewrite merge_time_series_run. by destruct (obtain w st) as [[tables|e] st'].
Qed.

Lemma merge_time_series_fst w prefer_september st :
  (merge w prefer_september st).1
  = (obtain w st).1 ≫= merge_outcome (merge_both prefer_september).
Proof.
  rewrite merge_time_series_run. by destruct (obtain w st) as [[tables|e] st'].
Qed.

Lemma export_merged_data_run w output_format filename st :
  export_merged_data text_to_number w output_format filename st =
    match merge w true st with
    | (Ok merged, st') =>
        let output_path :=
          joinpath OUTPUT_DIR
            (default ("criminal_incidents_extended_2010_2021." ++ output_format) filename) in
        if decide (supported output_format)
        then (Ok output_path, logged [FsWrite output_path output_format merged] st')
        else (Raise (UnsupportedFormat output_format), st')
    | (Raise e, st') => (Raise e, st')
    end.
Proof.
  unfold export_merged_data, mbind, M_bind.
  destruct (merge w true st) as [[merged|e] st']; [|done]. cbv zeta.
  unfold supported.
  destruct (decide (output_format = "csv")) as [->|Hcsv].
  { rewrite decide_True by set_solver. done. }
  destruct (decide (output_format = "excel")) as [->|Hxl].
  { rewrite decide_True by set_solver. done. }
  destruct (decide (output_format = "parquet")) as [->|Hpq].
  { rewrite decide_True by set_solver. done. }
  rewrite decide_False; [done|]. set_solver.
Qed.

Lemma run_cache_ok c w st : cache_ok st → cache_ok (run text_to_number c w st).
Proof.
  intros Hst. destruct c as [s|s|b|f n]; cbn [run].
  - rewrite load_2012_run. by apply cache_ok_after_load_2012.
  - rewrite load_2010_run. by apply cache_ok_after_load_2010.
  - rewrite merge_time_series_state. by apply obtain_tables_state.
  - rewrite export_merged_data_run.
    pose proof (merge_time_series_state w true st) as Hm.
    destruct (merge w true st) as [[merged|e] st']; cbn in Hm; subst st'.
    + case_decide; cbn; [apply cache_ok_logged|]; by apply obtain_tables_state.
    + by apply obtain_tables_state.
Qed.

Lemma reachable_cache_ok st : reachable text_to_number st → cache_ok st.
Proof. induction 1; [apply cache_ok_init|by apply run_cache_ok]. Qed.
End Reachable.

(** * The primitives of the merge *)

Lemma mapM_total {A B} (f : A → B) (l : list A) :
  mapM (λ x, Ok (f x)) l = Ok (f <$> l).
Proof. induction l as [|x l IH]; [done|]. cbn. by rewrite IH. Qed.

Lemma mapM_ext_Forall {A B} (P : A → Prop) (f g : A → result B) (l : list A) :
  (∀ x, P x → f x = g x) → Forall P l → mapM f l = mapM g l.
Proof.
  intros Hfg. induction 1 as [|x l Hx Hl IH]; [done|]. cbn. by rewrite Hfg, IH.
Qed.

Lemma year_set_unique df :
  occurrences "year" (columns df) = 1%nat → year_set df = Ok (years_of df).
Proof. intros Hocc. unfold year_set, getitem. by rewrite Hocc. Qed.

Lemma year_set_inv df ys :
  year_set df = Ok ys → occurrences "year" (columns df) = 1%nat ∧ ys = years_of df.
Proof.
  unfold year_set, getitem.
  destruct (occurrences "year" (columns df)) as [|[|n]]; [done| |done].
  by intros [= <-].
Qed.

Lemma year_series_unique df :
  occurrences "year" (columns df) = 1%nat →
  year_series df = Ok (cell_at df "year" <$> rows df).
Proof. intros Hocc. unfold year_series, getitem. by rewrite Hocc. Qed.

Lemma elem_of_years_of df x :
  x ∈ years_of df ↔ x ≠ NaN ∧ ∃ r, r ∈ rows df ∧ cell_at df "year" r = x.
Proof.
  unfold years_of, unique, dropna.
  rewrite elem_of_list_to_set, elem_of_remove_dups, list_elem_of_filter, list_elem_of_fmap.
  naive_solver.
Qed.

Lemma years_of_numeric df x :
  numeric_column "year" df → x ∈ years_of df → ∃ z, x = Num z.
Proof.
  intros Hnum (Hna & r & Hr & <-)%elem_of_years_of.
  unfold numeric_column in Hnum. rewrite Forall_forall in Hnum. specialize (Hnum r Hr).
  destruct (cell_at df "year" r); [eauto|done..].
Qed.

(** [min] and [max] of a set of numbers. *)
Lemma py_min_from_numeric m l :
  Forall (λ x, ∃ z, x = Num z) l →
  ∃ m', py_min_from (Num m) l = Ok (Num m')
        ∧ Num m' ∈ Num m :: l ∧ ∀ y, Num y ∈ Num m :: l → m' ≤ y.
Proof.
  intros Hl. revert m. induction Hl as [|x l [z ->] Hl IH]; intros m.
  - exists m. split; [done|]. split; [set_solver|].
    intros y [[= ->]|[]%elem_of_nil]%elem_of_cons. lia.
  - cbn. destruct (IH (if bool_decide (z < m) then z else m)) as (m' & Hm' & Hin & Hle).
    exists m'. split.
    { by destruct (bool_decide (z < m)). }
    split.
    + apply elem_of_cons in Hin as [Heq|Hin]; [|set_solver].
      injection Heq as ->. case_bool_decide; set_solver.
    + intros y Hy.
      assert (m' ≤ (if bool_decide (z < m) then z else m)) as Hm
          by (apply Hle; set_solver).
      apply elem_of_cons in Hy as [[= ->]|Hy]; [case_bool_decide; lia|].
      apply elem_of_cons in Hy as [[= ->]|Hy]; [case_bool_decide; lia|].
      apply Hle. set_solver.
Qed.

Lemma py_max_from_numeric m l :
  Forall (λ x, ∃ z, x = Num z) l →
  ∃ m', py_max_from (Num m) l = Ok (Num m')
        ∧ Num m' ∈ Num m :: l ∧ ∀ y, Num y ∈ Num m :: l → y ≤ m'.
Proof.
  intros Hl. revert m. induction Hl as [|x l [z ->] Hl IH]; intros m.
  - exists m. split; [done|]. split; [set_solver|].
    intros y [[= ->]|[]%elem_of_nil]%elem_of_cons. lia.
  - cbn. destruct (IH (if bool_decide (m < z) then z else m)) as (m' & Hm' & Hin & Hle).
    exists m'. split.
    { by destruct (bool_decide (m < z)). }
    split.
    + apply elem_of_cons in Hin as [Heq|Hin]; [|set_solver].
      injection Heq as ->. case_bool_decide; set_solver.
    + intros y Hy.
      assert ((if bool_decide (m < z) then z else m) ≤ m') as Hm
          by (apply Hle; set_solver).
      apply elem_of_cons in Hy as [[= ->]|Hy]; [case_bool_decide; lia|].
      apply elem_of_cons in Hy as [[= ->]|Hy]; [case_bool_decide; lia|].
      apply Hle. set_solver.
Qed.

Lemma least_unique xs m m' : least xs m → least xs m' → m = m'.
Proof. intros [H1 H2] [H1' H2']. apply H2 in H1'. apply H2' in H1. lia. Qed.

Lemma greatest_unique xs m m' : greatest xs m → greatest xs m' → m = m'.
Proof. intros [H1 H2] [H1' H2']. apply H2 in H1'. apply H2' in H1. lia. Qed.

Lemma py_min_numeric (xs : gset cell) :
  (∀ x, x ∈ xs → ∃ z, x = Num z) → xs ≠ ∅ →
  ∃ m, py_min xs = Ok (Num m) ∧ least xs m.
Proof.
  intros Hnum Hne. unfold py_min.
  destruct (elements xs) as [|x l] eqn:Hel.
  { by apply elements_empty_inv, leibniz_equiv in Hel. }
  assert (∀ y, y ∈ x :: l ↔ y ∈ xs) as Hin by (intros y; by rewrite <- Hel, elem_of_elements).
  destruct (Hnum x) as [z ->]; [apply Hin; set_solver|].
  destruct (py_min_from_numeric z l) as (m & Hm & Hmin & Hle).
  { apply Forall_forall. intros y Hy. apply Hnum, Hin. set_solver. }
  exists m. split; [done|]. split; [by apply Hin|]. intros y Hy. by apply Hle, Hin.
Qed.

Lemma py_max_numeric (xs : gset cell) :
  (∀ x, x ∈ xs → ∃ z, x = Num z) → xs ≠ ∅ →
  ∃ m, py_max xs = Ok (Num m) ∧ greatest xs m.
Proof.
  intros Hnum Hne. unfold py_max.
  destruct (elements xs) as [|x l] eqn:Hel.
  { by apply elements_empty_inv, leibniz_equiv in Hel. }
  assert (∀ y, y ∈ x :: l ↔ y ∈ xs) as Hin by (intros y; by rewrite <- Hel, elem_of_elements).
  destruct (Hnum x) as [z ->]; [apply Hin; set_solver|].
  destruct (py_max_from_numeric z l) as (m & Hm & Hmin & Hle).
  { apply Forall_forall. intros y Hy. apply Hnum, Hin. set_solver. }
  exists m. split; [done|]. split; [by apply Hin|]. intros y Hy. by apply Hle, Hin.
Qed.

Lemma py_min_empty : py_min ∅ = Raise (ValueError "min() arg is an empty sequence").
Proof. unfold py_min. by rewrite elements_empty. Qed.

Lemma py_max_empty : py_max ∅ = Raise (ValueError "max() arg is an empty sequence").
Proof. unfold py_max. by rewrite elements_empty. Qed.

(** The row masks. *)
Lemma series_lt_numeric s bound :
  Forall (λ x, is_text x = false) s → series_lt s (Num bound) = Ok (num_lt bound <$> s).
Proof.
  intros Hs. unfold series_lt. rewrite <- mapM_total.
  eapply mapM_ext_Forall; [|exact Hs]. by intros [z|t|].
Qed.

Lemma series_gt_numeric s bound :
  Forall (λ x, is_text x = false) s → series_gt s (Num bound) = Ok (num_gt bound <$> s).
Proof.
  intros Hs. unfold series_gt. rewrite <- mapM_total.
  eapply mapM_ext_Forall; [|exact Hs]. by intros [z|t|].
Qed.

Lemma boolean_index_filter df (f : row → bool) :
  boolean_index df (f <$> rows df)
  = Frame (columns df) (filter (λ r, f r = true) (rows df)).
Proof.
  unfold boolean_index. f_equal. induction (rows df) as [|r l IH]; [done|].
  cbn [fmap list_fmap zip zip_with]. rewrite !filter_cons. cbn [snd].
  destruct (decide (f r = true)); cbn; by rewrite IH.
Qed.

(** * Re-indexing, concatenation, sorting *)

Lemma imap_labels {A B} (g : nat → B) (l : list A) :
  imap (λ i _, g i) l = g <$> seq 0 (length l).
Proof.
  revert g. induction l as [|x l IH]; intros g; [done|].
  rewrite imap_cons. cbn [length seq fmap list_fmap]. f_equal.
  rewrite <- fmap_S_seq, <- list_fmap_compose. apply (IH (g ∘ S)).
Qed.

Lemma reset_index_columns df : columns (reset_index df) = columns df.
Proof. done. Qed.

Lemma reset_index_cells df : cells <$> rows (reset_index df) = cells <$> rows df.
Proof.
  unfold reset_index. cbn [rows]. rewrite fmap_imap.
  rewrite (imap_ext _ (const cells) (rows df)) by done. apply imap_const.
Qed.

Lemma reset_index_labels df :
  label <$> rows (reset_index df) = Z.of_nat <$> seq 0 (length (rows df)).
Proof.
  unfold reset_index. cbn [rows]. rewrite fmap_imap.
  rewrite (imap_ext _ (λ i _, Z.of_nat i) (rows df)) by done. apply imap_labels.
Qed.

Lemma reset_index_length df : length (rows (reset_index df)) = length (rows df).
Proof. unfold reset_index. cbn [rows]. apply length_imap. Qed.

Lemma Sorted_imap {A B} (R : A → A → Prop) (R' : B → B → Prop) (f : nat → A → B) l :
  (∀ i j x y, R x y → R' (f i x) (f j y)) → Sorted R l → Sorted R' (imap f l).
Proof.
  intros Hf Hl. revert f Hf. induction Hl as [|x l Hl IH Hhd]; intros f Hf.
  - constructor.
  - rewrite imap_cons. constructor; [apply IH; intros; by apply Hf|].
    destruct Hhd as [|y l' Hxy]; [constructor|]. rewrite imap_cons. constructor. by apply Hf.
Qed.

Lemma reset_index_Sorted by_ df :
  Sorted (row_le (columns df) by_) (rows df) →
  Sorted (row_le (columns (reset_index df)) by_) (rows (reset_index df)).
Proof. unfold reset_index. cbn [rows columns]. apply Sorted_imap. by intros i j x y. Qed.

(** Every row of a re-indexed frame is a row of the frame, up to its
    index label. *)
Lemma elem_of_reset_index df r :
  r ∈ rows (reset_index df) → ∃ r0, r0 ∈ rows df ∧ cells r = cells r0.
Proof.
  intros Hr. apply (list_elem_of_fmap_2 cells) in Hr. rewrite reset_index_cells in Hr.
  apply list_elem_of_fmap in Hr as (r0 & ? & ?). eauto.
Qed.

Lemma filter_absent_sub (l k : list string) :
  (∀ c, c ∈ l → c ∈ k) → filter (λ c, c ∉ k) l = [].
Proof.
  induction l as [|x l IH]; intros Hsub; [done|].
  rewrite filter_cons, decide_False by (intros Hx; apply Hx, Hsub; set_solver).
  apply IH. intros c Hc. apply Hsub. set_solver.
Qed.

Lemma elem_of_union_columns a b c : c ∈ union_columns a b ↔ c ∈ a ∨ c ∈ b.
Proof.
  unfold union_columns. rewrite elem_of_app, list_elem_of_filter.
  destruct (decide (c ∈ a)); naive_solver.
Qed.

Lemma NoDup_union_columns a b : NoDup a → NoDup b → NoDup (union_columns a b).
Proof.
  intros Ha Hb. unfold union_columns. apply NoDup_app. split; [done|]. split.
  - intros c Hc (? & ?)%list_elem_of_filter. done.
  - by apply NoDup_filter.
Qed.

(** What a concatenation is made of: the cells of the rows of [a], then
    those of [b], each readable under the labels of its frame. *)
Lemma concat_inv a b c :
  concat a b = Ok c →
  ∃ fa fb : row → list cell,
    cells <$> rows c = ((fa <$> rows a) ++ (fb <$> rows b))%list
    ∧ (∀ col r, col ∈ columns a → lookup_cell col (columns c) (fa r) = cell_at a col r)
    ∧ (∀ col r, col ∈ columns b → lookup_cell col (columns c) (fb r) = cell_at b col r)
    ∧ (∀ col, col ∈ columns c ↔ col ∈ columns a ∨ col ∈ columns b).
Proof.
  unfold concat. case_decide as Heq; [|case_decide as Hnd; [|done]]; intros [= <-].
  - exists cells, cells. rewrite reset_index_cells, reset_index_columns. cbn [rows columns].
    rewrite fmap_app. split; [done|]. unfold cell_at. rewrite <- Heq. naive_solver.
  - set (cols := union_columns (columns a) (columns b)).
    exists (λ r, cells (reindex_columns (columns a) cols r)),
           (λ r, cells (reindex_columns (columns b) cols r)).
    rewrite reset_index_cells, reset_index_columns. cbn [rows columns].
    rewrite fmap_app, <- !list_fmap_compose. split; [done|].
    split; [|split].
    + intros col r Hcol. cbn. apply lookup_cell_reindex, elem_of_union_columns. auto.
    + intros col r Hcol. cbn. apply lookup_cell_reindex, elem_of_union_columns. auto.
    + intros col. apply elem_of_union_columns.
Qed.

(** With distinct labels and full rows the concatenation always succeeds,
    and lays every row out under the union of the labels. *)
Lemma concat_NoDup a b :
  NoDup (columns a) → NoDup (columns b) → aligned a → aligned b →
  ∃ c, concat a b = Ok c
    ∧ columns c = union_columns (columns a) (columns b)
    ∧ cells <$> rows c
      = ((cells ∘ reindex_columns (columns a) (columns c) <$> rows a)
           ++ (cells ∘ reindex_columns (columns b) (columns c) <$> rows b))%list.
Proof.
  intros Ha Hb Hala Halb. unfold concat. case_decide as Heq.
  - eexists. split; [done|]. rewrite reset_index_cells, reset_index_columns. cbn [rows columns].
    assert (union_columns (columns a) (columns b) = columns a) as Hu.
    { unfold union_columns. rewrite <- Heq.
      rewrite filter_absent_sub by done. by rewrite app_nil_r. }
    split; [done|]. rewrite fmap_app. f_equal.
    + apply list_fmap_ext. intros i r Hr. cbn.
      symmetry. apply reindex_same_cells; [done|].
      unfold aligned in Hala. rewrite Forall_forall in Hala.
      apply Hala. by eapply list_elem_of_lookup_2.
    + apply list_fmap_ext. intros i r Hr. cbn. rewrite Heq.
      symmetry. apply reindex_same_cells; [done|].
      unfold aligned in Halb. rewrite Forall_forall in Halb.
      apply Halb. by eapply list_elem_of_lookup_2.
  - rewrite decide_True by done. eexists. split; [done|].
    rewrite reset_index_cells, reset_index_columns. cbn [rows columns].
    split; [done|]. by rewrite fmap_app, <- !list_fmap_compose.
Qed.

Lemma mapM_cons {A B} (f : A → result B) x l :
  mapM f (x :: l) = y ← f x; k ← mapM f l; Ok (y :: k).
Proof. done. Qed.

Lemma check_label_ok cols c : occurrences c cols = 1%nat → check_label cols c = Ok ().
Proof. intros Hc. unfold check_label. by rewrite Hc. Qed.

Lemma check_label_inv cols c u : check_label cols c = Ok u → occurrences c cols = 1%nat.
Proof. unfold check_label. by destruct (occurrences c cols) as [|[|n]]. Qed.

Lemma check_labels_ok cols by_ :
  Forall (λ c, occurrences c cols = 1%nat) by_ → is_ok (mapM (check_label cols) by_) = true.
Proof.
  induction 1 as [|c by_ Hc Hby IH]; [done|]. rewrite mapM_cons.
  rewrite check_label_ok by done. cbn. by destruct (mapM _ by_).
Qed.

Lemma check_labels_inv cols by_ u :
  mapM (check_label cols) by_ = Ok u → Forall (λ c, occurrences c cols = 1%nat) by_.
Proof.
  revert u. induction by_ as [|c by_ IH]; intros u; [done|]. rewrite mapM_cons.
  destruct (check_label cols c) eqn:Hc; [|done]. apply check_label_inv in Hc. cbn.
  destruct (mapM _ by_) eqn:Hm; [|done]. intros _. constructor; eauto.
Qed.

Lemma sort_values_ok by_ df :
  Forall (λ c, occurrences c (columns df) = 1%nat) by_ →
  sort_values by_ df
  = Ok (Frame (columns df) (stable_sort (row_le (columns df) by_) (rows df))).
Proof.
  intros Hby%check_labels_ok. unfold sort_values.
  by destruct (mapM _ by_).
Qed.

Lemma sort_values_inv by_ df out :
  sort_values by_ df = Ok out →
  Forall (λ c, occurrences c (columns df) = 1%nat) by_
  ∧ out = Frame (columns df) (stable_sort (row_le (columns df) by_) (rows df)).
Proof.
  unfold sort_values. destruct (mapM _ by_) eqn:Hm; [|done]. cbn. intros [= <-].
  split; [by eapply check_labels_inv|done].
Qed.

(** * The merge policy *)

Lemma numeric_year_series df :
  numeric_column "year" df → Forall (λ x, is_text x = false) (cell_at df "year" <$> rows df).
Proof. intros Hnum. by rewrite Forall_fmap. Qed.

Lemma is_bound_nonempty b a12 a10 bound :
  is_bound b a12 a10 bound → (if b then years_of a12 else years_of a10) ≠ ∅.
Proof. destruct b; intros [Hin _]; set_solver. Qed.

(** The policy, once the years are known to be numbers: the rows kept of
    each table are concatenated, sorted and re-indexed. *)
Lemma merge_both_bound b a12 a10 bound :
  occurrences "year" (columns a12) = 1%nat → occurrences "year" (columns a10) = 1%nat →
  numeric_column "year" a12 → numeric_column "year" a10 →
  is_bound b a12 a10 bound →
  merge_both b a12 a10 =
    merged ← concat (Frame (columns a10) (kept_2010 b bound a10))
                    (Frame (columns a12) (kept_2012 b bound a12));
    sorted ← sort_values ["year"; "lga_name"] merged;
    Ok (reset_index sorted).
Proof.
  intros Ho12 Ho10 Hn12 Hn10 Hb. unfold merge_both.
  rewrite !year_set_unique by done. cbn [mbind result_bind].
  destruct b; cbn [is_bound kept_2010 kept_2012] in *.
  - destruct (py_min_numeric (years_of a12)) as (m & Hm & Hleast).
    { intros x. by apply years_of_numeric. }
    { destruct Hb. set_solver. }
    rewrite Hm. rewrite (least_unique _ _ _ Hleast Hb). cbn [mbind result_bind].
    rewrite year_series_unique by done. cbn [mbind result_bind].
    rewrite series_lt_numeric by (by apply numeric_year_series). cbn [mbind result_bind].
    rewrite <- list_fmap_compose.
    rewrite (boolean_index_filter a10 (num_lt bound ∘ cell_at a10 "year")).
    by destruct a12.
  - destruct (py_max_numeric (years_of a10)) as (m & Hm & Hgreatest).
    { intros x. by apply years_of_numeric. }
    { destruct Hb. set_solver. }
    rewrite Hm. rewrite (greatest_unique _ _ _ Hgreatest Hb). cbn [mbind result_bind].
    rewrite year_series_unique by done. cbn [mbind result_bind].
    rewrite series_gt_numeric by (by apply numeric_year_series). cbn [mbind result_bind].
    rewrite <- list_fmap_compose.
    rewrite (boolean_index_filter a12 (num_gt bound ∘ cell_at a12 "year")).
    by destruct a10.
Qed.

Lemma merge_both_Ok_bound b a12 a10 out :
  numeric_column "year" a12 → numeric_column "year" a10 →
  merge_both b a12 a10 = Ok out →
  occurrences "year" (columns a12) = 1%nat ∧ occurrences "year" (columns a10) = 1%nat
  ∧ ∃ bound, is_bound b a12 a10 bound.
Proof.
  intros Hn12 Hn10. unfold merge_both.
  destruct (year_set a12) as [ys12|] eqn:H12; [|done].
  destruct (year_set a10) as [ys10|] eqn:H10; [|done].
  apply year_set_inv in H12 as [Ho12 ->]. apply year_set_inv in H10 as [Ho10 ->].
  cbn [mbind result_bind]. intros Hout. split; [done|]. split; [done|].
  destruct b; cbn [is_bound].
  - destruct (decide (years_of a12 = ∅)) as [He|Hne].
    { rewrite He, py_min_empty in Hout. done. }
    destruct (py_min_numeric (years_of a12)) as (m & _ & Hm); eauto using years_of_numeric.
  - destruct (decide (years_of a10 = ∅)) as [He|Hne].
    { rewrite He, py_max_empty in Hout. done. }
    destruct (py_max_numeric (years_of a10)) as (m & _ & Hm); eauto using years_of_numeric.
Qed.

(** The shape of every successful merge of two tables. *)
Lemma merge_both_inv b a12 a10 out :
  numeric_column "year" a12 → numeric_column "year" a10 →
  merge_both b a12 a10 = Ok out →
  ∃ bound merged,
    is_bound b a12 a10 bound
    ∧ occurrences "year" (columns a12) = 1%nat ∧ occurrences "year" (columns a10) = 1%nat
    ∧ concat (Frame (columns a10) (kept_2010 b bound a10))
             (Frame (columns a12) (kept_2012 b bound a12)) = Ok merged
    ∧ Forall (λ c, occurrences c (columns merged) = 1%nat) ["year"; "lga_name"]
    ∧ out = reset_index
              (Frame (columns merged)
                     (stable_sort (row_le (columns merged) ["year"; "lga_name"])
                                  (rows merged))).
Proof.
  intros Hn12 Hn10 Hout.
  destruct (merge_both_Ok_bound b a12 a10 out) as (Ho12 & Ho10 & bound & Hb); [done..|].
  rewrite (merge_both_bound b a12 a10 bound) in Hout by done.
  destruct (concat _ _) as [merged|] eqn:Hc; [|done]. cbn [mbind result_bind] in Hout.
  destruct (sort_values _ merged) as [sorted|] eqn:Hs; [|done].
  cbn [mbind result_bind] in Hout. injection Hout as <-.
  apply sort_values_inv in Hs as [Hocc ->]. eauto 10.
Qed.

Lemma merge_both_sorted b a12 a10 out :
  numeric_column "year" a12 → numeric_column "year" a10 →
  merge_both b a12 a10 = Ok out →
  Sorted (row_le (columns out) ["year"; "lga_name"]) (rows out)
  ∧ label <$> rows out = Z.of_nat <$> seq 0 (length (rows out)).
Proof.
  intros Hn12 Hn10 (bound & merged & _ & _ & _ & _ & _ & ->)%merge_both_inv; [|done..].
  split.
  - apply reset_index_Sorted. cbn [rows columns]. apply stable_sort_Sorted. apply _.
  - by rewrite reset_index_labels, reset_index_length.
Qed.

(** Where the rows of a merge come from: every row of the result shows,
    under the labels of one table, the cells of a row kept of that
    table; and every row kept shows in the result. *)

Lemma merge_both_rows b a12 a10 out :
  numeric_column "year" a12 → numeric_column "year" a10 →
  merge_both b a12 a10 = Ok out →
  ∃ bound,
    is_bound b a12 a10 bound
    ∧ occurrences "year" (columns a12) = 1%nat ∧ occurrences "year" (columns a10) = 1%nat
    ∧ (∀ col, col ∈ columns out ↔ col ∈ columns a10 ∨ col ∈ columns a12)
    ∧ length (rows out)
      = (length (kept_2010 b bound a10) + length (kept_2012 b bound a12))%nat
    ∧ (∀ r, r ∈ rows out →
            (∃ r0, r0 ∈ kept_2010 b bound a10 ∧ drawn_from out a10 r r0)
            ∨ (∃ r0, r0 ∈ kept_2012 b bound a12 ∧ drawn_from out a12 r r0))
    ∧ (∀ r0, r0 ∈ kept_2010 b bound a10 → ∃ r, r ∈ rows out ∧ drawn_from out a10 r r0)
    ∧ (∀ r0, r0 ∈ kept_2012 b bound a12 → ∃ r, r ∈ rows out ∧ drawn_from out a12 r r0).
Proof.
  intros Hn12 Hn10 (bound & merged & Hb & Ho12 & Ho10 & Hc & _ & ->)%merge_both_inv; [|done..].
  exists bound. split; [done|]. split; [done|]. split; [done|].
  apply concat_inv in Hc as (fa & fb & Hcells & Hfa & Hfb & Hcols). cbn [rows columns] in *.
  assert (cells <$> rows (reset_index
            (Frame (columns merged)
               (stable_sort (row_le (columns merged) ["year"; "lga_name"]) (rows merged))))
          ≡ₚ (fa <$> kept_2010 b bound a10) ++ (fb <$> kept_2012 b bound a12)) as Hperm.
  { rewrite reset_index_cells. cbn [rows]. rewrite stable_sort_Permutation. by rewrite Hcells. }
  split; [done|]. split; [|split; [|split]].
  - apply Permutation_length in Hperm.
    by rewrite !length_fmap, length_app, !length_fmap in Hperm.
  - intros r Hr. apply (list_elem_of_fmap_2 cells) in Hr. rewrite Hperm in Hr.
    apply elem_of_app in Hr as [(r0 & Hr & Hr0)%list_elem_of_fmap|(r0 & Hr & Hr0)%list_elem_of_fmap];
      [left|right]; exists r0; (split; [done|]); intros col Hcol;
      unfold cell_at at 1; cbn [columns reset_index]; rewrite Hr; auto.
  - intros r0 Hr0.
    assert (fa r0 ∈ cells <$> rows (reset_index
              (Frame (columns merged)
                 (stable_sort (row_le (columns merged) ["year"; "lga_name"]) (rows merged)))))
      as (r & Hr & Hin)%list_elem_of_fmap.
    { rewrite Hperm. apply elem_of_app. left. by apply list_elem_of_fmap_2. }
    exists r. split; [done|]. intros col Hcol.
    unfold cell_at at 1. cbn [columns reset_index]. rewrite <- Hr. auto.
  - intros r0 Hr0.
    assert (fb r0 ∈ cells <$> rows (reset_index
              (Frame (columns merged)
                 (stable_sort (row_le (columns merged) ["year"; "lga_name"]) (rows merged)))))
      as (r & Hr & Hin)%list_elem_of_fmap.
    { rewrite Hperm. apply elem_of_app. right. by apply list_elem_of_fmap_2. }
    exists r. split; [done|]. intros col Hcol.
    unfold cell_at at 1. cbn [columns reset_index]. rewrite <- Hr. auto.
Qed.

Lemma elem_of_year_range first last x :
  x ∈ year_range first last ↔ ∃ y, x = Num y ∧ first ≤ y ≤ last.
Proof.
  unfold year_range. rewrite elem_of_list_to_set, list_elem_of_fmap.
  split.
  - intros (y & -> & Hy%elem_of_seqZ). exists y. split; [done|lia].
  - intros (y & -> & Hy). exists y. split; [done|]. apply elem_of_seqZ. lia.
Qed.

Lemma least_year_range first last m : least (year_range first last) m → m = first.
Proof.
  intros [(y & [= <-] & Hy)%elem_of_year_range Hle].
  assert (m ≤ first); [|lia]. apply Hle, elem_of_year_range. exists first. split; [done|lia].
Qed.

Lemma greatest_year_range first last m : greatest (year_range first last) m → m = last.
Proof.
  intros [(y & [= <-] & Hy)%elem_of_year_range Hle].
  assert (last ≤ m); [|lia]. apply Hle, elem_of_year_range. exists last. split; [done|lia].
Qed.

Lemma aligned_sub cols l l' :
  (∀ r, r ∈ l' → r ∈ l) → aligned (Frame cols l) → aligned (Frame cols l').
Proof.
  unfold aligned. cbn [rows columns]. rewrite !Forall_forall. auto.
Qed.

Lemma elem_of_kept_2010 b bound a10 r :
  r ∈ kept_2010 b bound a10 →
  r ∈ rows a10 ∧ (b = true → num_lt bound (cell_at a10 "year" r) = true).
Proof.
  unfold kept_2010. destruct b; [by intros [? ?]%list_elem_of_filter|].
  intros Hr. split; [done|intros [=]].
Qed.

Lemma elem_of_kept_2012 b bound a12 r :
  r ∈ kept_2012 b bound a12 →
  r ∈ rows a12 ∧ (b = false → num_gt bound (cell_at a12 "year" r) = true).
Proof.
  unfold kept_2012. destruct b; [|by intros [? ?]%list_elem_of_filter].
  intros Hr. split; [done|intros [=]].
Qed.

(** With distinct labels, a year in each table that decides the bound,
    and an area name in one of them, the merge of two loaded tables
    succeeds and holds exactly the rows kept. *)
Lemma merge_both_ok (b : bool) a12 a10 :
  loaded "CSA_2012_2021" a12 → loaded "CSA_2010_2019" a10 →
  NoDup (columns a12) → NoDup (columns a10) →
  "year" ∈ columns a12 → "year" ∈ columns a10 →
  (if b then years_of a12 else years_of a10) ≠ ∅ →
  "lga_name" ∈ columns a12 ∨ "lga_name" ∈ columns a10 →
  ∃ out bound,
    merge_both b a12 a10 = Ok out
    ∧ is_bound b a12 a10 bound
    ∧ columns out = union_columns (columns a10) (columns a12)
    ∧ cells <$> rows out ≡ₚ
        (cells ∘ reindex_columns (columns a10) (columns out) <$> kept_2010 b bound a10)
        ++ (cells ∘ reindex_columns (columns a12) (columns out) <$> kept_2012 b bound a12).
Proof.
  intros L12 L10 Hnd12 Hnd10 Hy12 Hy10 Hne Hlga.
  assert (∃ bound, is_bound b a12 a10 bound) as [bound Hb].
  { destruct b; cbn [is_bound].
    - destruct (py_min_numeric (years_of a12)) as (m & _ & Hm); [|done|eauto].
      intros x. apply years_of_numeric, L12.
    - destruct (py_max_numeric (years_of a10)) as (m & _ & Hm); [|done|eauto].
      intros x. apply years_of_numeric, L10. }
  rewrite (merge_both_bound b a12 a10 bound);
    [|by apply occurrences_NoDup..|apply L12|apply L10|done].
  destruct (concat_NoDup (Frame (columns a10) (kept_2010 b bound a10))
              (Frame (columns a12) (kept_2012 b bound a12)))
    as (merged & -> & Hcols & Hcells); [done|done| | |].
  { apply (aligned_sub _ (rows a10)); [by intros r [? _]%elem_of_kept_2010|].
    destruct a10. apply L10. }
  { apply (aligned_sub _ (rows a12)); [by intros r [? _]%elem_of_kept_2012|].
    destruct a12. apply L12. }
  cbn [rows columns mbind result_bind] in *.
  assert (NoDup (columns merged)) as Hnd by (rewrite Hcols; by apply NoDup_union_columns).
  rewrite sort_values_ok.
  2:{ repeat constructor; apply occurrences_NoDup; try done;
        rewrite Hcols; apply elem_of_union_columns; tauto. }
  cbn [mbind result_bind]. eexists _, bound. split; [done|]. split; [done|]. split; [done|].
  rewrite reset_index_cells. cbn [rows columns reset_index].
  rewrite stable_sort_Permutation. by rewrite Hcells.
Qed.

(** The merge of two loaded tables that have years: the rows kept are
    concatenated, sorted and re-indexed. *)
Lemma merge_both_policy (b : bool) a12 a10 :
  loaded "CSA_2012_2021" a12 → loaded "CSA_2010_2019" a10 →
  "year" ∈ columns a12 → "year" ∈ columns a10 →
  (if b then years_of a12 else years_of a10) ≠ ∅ →
  ∃ bound,
    is_bound b a12 a10 bound
    ∧ merge_both b a12 a10 =
        merged ← concat (Frame (columns a10) (kept_2010 b bound a10))
                        (Frame (columns a12) (kept_2012 b bound a12));
        sorted ← sort_values ["year"; "lga_name"] merged;
        Ok (reset_index sorted).
Proof.
  intros L12 L10 Hy12%occurrences_pos Hy10%occurrences_pos Hne.
  pose proof (loaded_year_unique _ _ L12). pose proof (loaded_year_unique _ _ L10).
  assert (∃ bound, is_bound b a12 a10 bound) as [bound Hb].
  { destruct b; cbn [is_bound].
    - destruct (py_min_numeric (years_of a12)) as (m & _ & Hm); [|done|eauto].
      intros x. apply years_of_numeric, L12.
    - destruct (py_max_numeric (years_of a10)) as (m & _ & Hm); [|done|eauto].
      intros x. apply years_of_numeric, L10. }
  exists bound. split; [done|].
  apply merge_both_bound; [lia|lia|apply L12|apply L10|done].
Qed.

(** Without an area name in either table, the final sort raises. *)
Lemma merge_both_without_lga_name (b : bool) a12 a10 :
  loaded "CSA_2012_2021" a12 → loaded "CSA_2010_2019" a10 →
  NoDup (columns a12) → NoDup (columns a10) →
  "year" ∈ columns a12 → "year" ∈ columns a10 →
  (if b then years_of a12 else years_of a10) ≠ ∅ →
  "lga_name" ∉ columns a12 → "lga_name" ∉ columns a10 →
  merge_both b a12 a10 = Raise (KeyError "lga_name").
Proof.
  intros L12 L10 Hnd12 Hnd10 Hy12 Hy10 Hne Hno12 Hno10.
  destruct (merge_both_policy b a12 a10) as (bound & Hb & ->); [done..|].
  destruct (concat_NoDup (Frame (columns a10) (kept_2010 b bound a10))
              (Frame (columns a12) (kept_2012 b bound a12)))
    as (merged & -> & Hcols & _); [done|done| | |].
  { apply (aligned_sub _ (rows a10)); [by intros r [? _]%elem_of_kept_2010|].
    destruct a10. apply L10. }
  { apply (aligned_sub _ (rows a12)); [by intros r [? _]%elem_of_kept_2012|].
    destruct a12. apply L12. }
  cbn [rows columns mbind result_bind] in *.
  unfold sort_values. rewrite !mapM_cons. unfold check_label. rewrite Hcols.
  rewrite (occurrences_NoDup "year");
    [|by apply NoDup_union_columns|apply elem_of_union_columns; tauto].
  assert (occurrences "lga_name" (union_columns (columns a10) (columns a12)) = 0%nat) as ->;
    [|done].
  apply occurrences_zero. rewrite elem_of_union_columns. tauto.
Qed.

(** With a repeated label in one table, two tables that do not carry
    the very same labels cannot be concatenated. *)
Lemma merge_both_repeated_label (b : bool) a12 a10 :
  loaded "CSA_2012_2021" a12 → loaded "CSA_2010_2019" a10 →
  "year" ∈ columns a12 → "year" ∈ columns a10 →
  (if b then years_of a12 else years_of a10) ≠ ∅ →
  columns a12 ≠ columns a10 →
  ¬ (NoDup (columns a12) ∧ NoDup (columns a10)) →
  ∃ msg, merge_both b a12 a10 = Raise (InvalidIndexError msg).
Proof.
  intros L12 L10 Hy12 Hy10 Hne Hcols Hnd.
  destruct (merge_both_policy b a12 a10) as (bound & Hb & ->); [done..|].
  unfold concat. cbn [columns].
  rewrite decide_False by congruence. rewrite decide_False by tauto.
  by eexists.
Qed.

(** The year and the stamp of a row of the merge are those of the row
    it is drawn from. *)
Lemma drawn_from_year out a r r0 y :
  occurrences "year" (columns a) = 1%nat → drawn_from out a r r0 →
  cell_at out "year" r = Num y → cell_at a "year" r0 = Num y.
Proof.
  intros Hocc Hd Hy. rewrite <- Hd; [done|]. apply occurrences_pos. lia.
Qed.

Lemma drawn_from_source out a source r r0 :
  loaded source a → r0 ∈ rows a → drawn_from out a r r0 →
  cell_at out "data_source" r = Str source.
Proof.
  intros [_ _ _ [Hin Hall]] Hr0 Hd. rewrite Hd by done.
  rewrite Forall_forall in Hall. by apply Hall.
Qed.

Lemma year_in_years_of a r y : r ∈ rows a → cell_at a "year" r = Num y → Num y ∈ years_of a.
Proof. intros Hr Hy. apply elem_of_years_of. split; [done|eauto]. Qed.

(** In a merge of two loaded tables, a year the preferred table has
    comes from the preferred table only. *)
Lemma merge_both_preferred (b : bool) a12 a10 out r y :
  loaded "CSA_2012_2021" a12 → loaded "CSA_2010_2019" a10 →
  merge_both b a12 a10 = Ok out →
  r ∈ rows out → cell_at out "year" r = Num y →
  Num y ∈ (if b then years_of a12 else years_of a10) →
  cell_at out "data_source" r = preferred_source b.
Proof.
  intros L12 L10 Hout Hr Hy Hin.
  apply merge_both_rows in Hout
      as (bound & Hb & Ho12 & Ho10 & _ & _ & Hfrom & _); [|apply L12|apply L10].
  destruct (Hfrom r Hr) as [(r0 & Hr0 & Hd)|(r0 & Hr0 & Hd)].
  - apply elem_of_kept_2010 in Hr0 as [Hr0 Hlt].
    pose proof (drawn_from_year _ _ _ _ _ Ho10 Hd Hy) as Hy0.
    destruct b; cbn [is_bound preferred_source] in *.
    + specialize (Hlt eq_refl). rewrite Hy0 in Hlt. cbn in Hlt.
      apply bool_decide_eq_true in Hlt. destruct Hb as [_ Hle]. apply Hle in Hin. lia.
    + by eapply drawn_from_source.
  - apply elem_of_kept_2012 in Hr0 as [Hr0 Hgt].
    pose proof (drawn_from_year _ _ _ _ _ Ho12 Hd Hy) as Hy0.
    destruct b; cbn [is_bound preferred_source] in *.
    + by eapply drawn_from_source.
    + specialize (Hgt eq_refl). rewrite Hy0 in Hgt. cbn in Hgt.
      apply bool_decide_eq_true in Hgt. destruct Hb as [_ Hle]. apply Hle in Hin. lia.
Qed.

(** A year only the other table has comes from the other table. *)
Lemma merge_both_other (b : bool) a12 a10 out r y :
  loaded "CSA_2012_2021" a12 → loaded "CSA_2010_2019" a10 →
  merge_both b a12 a10 = Ok out →
  r ∈ rows out → cell_at out "year" r = Num y →
  Num y ∉ (if b then years_of a12 else years_of a10) →
  cell_at out "data_source" r = preferred_source (negb b).
Proof.
  intros L12 L10 Hout Hr Hy Hin.
  apply merge_both_rows in Hout
      as (bound & Hb & Ho12 & Ho10 & _ & _ & Hfrom & _); [|apply L12|apply L10].
  destruct (Hfrom r Hr) as [(r0 & Hr0 & Hd)|(r0 & Hr0 & Hd)].
  - apply elem_of_kept_2010 in Hr0 as [Hr0 Hlt].
    pose proof (drawn_from_year _ _ _ _ _ Ho10 Hd Hy) as Hy0.
    destruct b; cbn [negb preferred_source] in *.
    + by eapply drawn_from_source.
    + destruct Hin. by eapply year_in_years_of.
  - apply elem_of_kept_2012 in Hr0 as [Hr0 Hgt].
    pose proof (drawn_from_year _ _ _ _ _ Ho12 Hd Hy) as Hy0.
    destruct b; cbn [negb preferred_source] in *.
    + destruct Hin. by eapply year_in_years_of.
    + by eapply drawn_from_source.
Qed.

(** The years of a merge: those of the rows kept. *)
Lemma merge_both_years b a12 a10 out x :
  loaded "CSA_2012_2021" a12 → loaded "CSA_2010_2019" a10 →
  merge_both b a12 a10 = Ok out →
  x ∈ years_of out ↔
    x ≠ NaN ∧ ∃ bound, is_bound b a12 a10 bound ∧
      ((∃ r0, r0 ∈ kept_2010 b bound a10 ∧ cell_at a10 "year" r0 = x)
       ∨ (∃ r0, r0 ∈ kept_2012 b bound a12 ∧ cell_at a12 "year" r0 = x)).
Proof.
  intros L12 L10 Hout.
  apply merge_both_rows in Hout
      as (bound & Hb & Ho12 & Ho10 & _ & _ & Hfrom & Hto10 & Hto12); [|apply L12|apply L10].
  assert ("year" ∈ columns a12) as Hy12 by (apply occurrences_pos; lia).
  assert ("year" ∈ columns a10) as Hy10 by (apply occurrences_pos; lia).
  rewrite elem_of_years_of. split.
  - intros (Hna & r & Hr & <-). split; [done|]. exists bound. split; [done|].
    destruct (Hfrom r Hr) as [(r0 & Hr0 & Hd)|(r0 & Hr0 & Hd)]; [left|right];
      exists r0; by rewrite Hd.
  - intros (Hna & bound' & Hb' & Hx). split; [done|].
    assert (bound' = bound) as ->.
    { destruct b; cbn [is_bound] in *; eauto using least_unique, greatest_unique. }
    destruct Hx as [(r0 & Hr0 & <-)|(r0 & Hr0 & <-)].
    + destruct (Hto10 r0 Hr0) as (r & Hr & Hd). exists r. by rewrite Hd.
    + destruct (Hto12 r0 Hr0) as (r & Hr & Hd). exists r. by rewrite Hd.
Qed.

Section MergePolicy.
Variable text_to_number : string → option Z.
Local Abbreviation obtain := (obtain_tables text_to_number).
Local Abbreviation merge := (merge_time_series text_to_number).
Local Abbreviation reachable := (reachable text_to_number).

Lemma merge_of_both w st b df_2012 df_2010 :
  reachable st → (obtain w st).1 = Ok (Some df_2012, Some df_2010) →
  loaded "CSA_2012_2021" df_2012 ∧ loaded "CSA_2010_2019" df_2010
  ∧ (merge w b st).1 = merge_both b df_2012 df_2010.
Proof.
  intros Hst%reachable_cache_ok Hob.
  destruct (obtain_tables_loaded text_to_number w st _ _ Hst Hob) as [H12 H10].
  rewrite merge_time_series_fst, Hob. auto.
Qed.

(** C1, under the conditions the code needs. In a state reached through
    the processor's calls, let the merge obtain both tables, each with
    a [year] column holding at least one value. When the labels of each
    table are pairwise distinct and one of the tables has the column
    [lga_name], [merge_time_series] with [prefer_september = true]
    returns a table whose columns are the March labels followed by the
    new September labels and whose rows are, up to the order the final
    sort gives them, all rows of the September table together with
    exactly the March rows whose year is strictly below the least
    September year; when the March years are 2010..2019 and the
    September years are 2012..2021, the years of the result are
    2010..2021, every row of 2010-2011 is stamped as March data and
    every row of 2012-2021 as September data. When the labels of each
    table are pairwise distinct and neither table has the column
    [lga_name], the merge raises [KeyError] for that label. When a
    table has a repeated label and the two tables do not carry the same
    labels, it raises [InvalidIndexError]. *)
Theorem merge_prefer_september w st df_2012 df_2010 :
  reachable st →
  (obtain w st).1 = Ok (Some df_2012, Some df_2010) →
  "year" ∈ columns df_2012 → "year" ∈ columns df_2010 →
  years_of df_2012 ≠ ∅ → years_of df_2010 ≠ ∅ →
  (NoDup (columns df_2012) → NoDup (columns df_2010) →
   "lga_name" ∈ columns df_2012 ∨ "lga_name" ∈ columns df_2010 →
   ∃ out bound,
     (merge w true st).1 = Ok out
     ∧ least (years_of df_2012) bound
     ∧ columns out = union_columns (columns df_2010) (columns df_2012)
     ∧ cells <$> rows out ≡ₚ
         (cells ∘ reindex_columns (columns df_2010) (columns out)
            <$> filter (λ r, num_lt bound (cell_at df_2010 "year" r) = true) (rows df_2010))
         ++ (cells ∘ reindex_columns (columns df_2012) (columns out) <$> rows df_2012)
     ∧ (years_of df_2010 = year_range 2010 2019 →
        years_of df_2012 = year_range 2012 2021 →
        years_of out = year_range 2010 2021
        ∧ ∀ r y, r ∈ rows out → cell_at out "year" r = Num y →
            (2010 ≤ y ≤ 2011 → cell_at out "data_source" r = Str "CSA_2010_2019")
            ∧ (2012 ≤ y ≤ 2021 → cell_at out "data_source" r = Str "CSA_2012_2021")))
  ∧ (NoDup (columns df_2012) → NoDup (columns df_2010) →
     "lga_name" ∉ columns df_2012 → "lga_name" ∉ columns df_2010 →
     (merge w true st).1 = Raise (KeyError "lga_name"))
  ∧ (columns df_2012 ≠ columns df_2010 →
     ¬ (NoDup (columns df_2012) ∧ NoDup (columns df_2010)) →
     ∃ msg, (merge w true st).1 = Raise (InvalidIndexError msg)).
Proof.
  intros Hst Hob Hy12 Hy10 Hne12 Hne10.
  destruct (merge_of_both w st true _ _ Hst Hob) as (L12 & L10 & Hm). rewrite Hm.
  split; [|split].
  2:{ intros Hnd12 Hnd10 Hno12 Hno10. by apply (merge_both_without_lga_name true). }
  2:{ intros Hcols Hnd. by apply (merge_both_repeated_label true). }
  intros Hnd12 Hnd10 Hlga.
  destruct (merge_both_ok true df_2012 df_2010) as (out & bound & Hout & Hb & Hcols & Hperm);
    [done..|].
  exists out, bound. split; [done|]. split; [done|]. split; [done|].
  split; [done|]. intros Hr10 Hr12.
  cbn [is_bound] in Hb. rewrite Hr12 in Hb. apply least_year_range in Hb as ->.
  split.
  - apply set_eq. intros x. rewrite (merge_both_years true _ _ _ _ L12 L10 Hout).
    rewrite elem_of_year_range. cbn [is_bound kept_2010 kept_2012]. split.
    + intros (Hna & bound & Hb & [(r0 & [Hlt Hr0]%list_elem_of_filter & <-)|(r0 & Hr0 & <-)]).
      * rewrite Hr12 in Hb. apply least_year_range in Hb as ->.
        destruct (cell_at df_2010 "year" r0) as [y| |] eqn:Hy; [|done..].
        cbn in Hlt. apply bool_decide_eq_true in Hlt.
        apply year_in_years_of in Hy; [|done]. rewrite Hr10 in Hy.
        apply elem_of_year_range in Hy as (y' & [= <-] & ?). exists y. split; [done|lia].
      * assert (cell_at df_2012 "year" r0 ∈ years_of df_2012) as Hin
            by (apply elem_of_years_of; eauto).
        rewrite Hr12 in Hin. apply elem_of_year_range in Hin as (y & -> & ?).
        exists y. split; [done|lia].
    + intros (y & -> & Hy). split; [done|]. exists 2012. split.
      { rewrite Hr12. split; [apply elem_of_year_range; exists 2012; split; [done|lia]|].
        intros y' (? & [= <-] & ?)%elem_of_year_range. lia. }
      destruct (decide (y < 2012)) as [Hlt|Hge].
      * left. assert (Num y ∈ years_of df_2010) as (_ & r0 & Hr0 & Hy0)%elem_of_years_of.
        { rewrite Hr10. apply elem_of_year_range. exists y. split; [done|lia]. }
        exists r0. split; [|done]. apply list_elem_of_filter. split; [|done].
        rewrite Hy0. cbn. by apply bool_decide_eq_true.
      * right. assert (Num y ∈ years_of df_2012) as (_ & r0 & Hr0 & Hy0)%elem_of_years_of.
        { rewrite Hr12. apply elem_of_year_range. exists y. split; [done|lia]. }
        eauto.
  - intros r y Hr Hy. split; intros Hrange.
    + apply (merge_both_other true _ _ _ _ _ L12 L10 Hout Hr Hy).
      rewrite Hr12. intros (y' & [= <-] & ?)%elem_of_year_range. lia.
    + apply (merge_both_preferred true _ _ _ _ _ L12 L10 Hout Hr Hy).
      rewrite Hr12. apply elem_of_year_range. exists y. split; [done|lia].
Qed.

(** C2, under the conditions the code needs. With the hypotheses of the
    September-first merge, when the labels of each table are pairwise
    distinct and one of the tables has the column [lga_name],
    [merge_time_series] with [prefer_september = false] returns a table
    whose rows are, up to the order the final sort gives them, all rows
    of the March table together with exactly the September rows whose
    year is strictly above the greatest March year; when the March
    years are 2010..2019 and the September years are 2012..2021, the
    years of the result are 2010..2021, every row of 2010-2019 is
    stamped as March data and every row of 2020-2021 as September data.
    When the labels of each table are pairwise distinct and neither
    table has the column [lga_name], the merge raises [KeyError] for
    that label. When a table has a repeated label and the two tables do
    not carry the same labels, it raises [InvalidIndexError]. *)
Theorem merge_prefer_march w st df_2012 df_2010 :
  reachable st →
  (obtain w st).1 = Ok (Some df_2012, Some df_2010) →
  "year" ∈ columns df_2012 → "year" ∈ columns df_2010 →
  years_of df_2012 ≠ ∅ → years_of df_2010 ≠ ∅ →
  (NoDup (columns df_2012) → NoDup (columns df_2010) →
   "lga_name" ∈ columns df_2012 ∨ "lga_name" ∈ columns df_2010 →
   ∃ out bound,
     (merge w false st).1 = Ok out
     ∧ greatest (years_of df_2010) bound
     ∧ columns out = union_columns (columns df_2010) (columns df_2012)
     ∧ cells <$> rows out ≡ₚ
         (cells ∘ reindex_columns (columns df_2010) (columns out) <$> rows df_2010)
         ++ (cells ∘ reindex_columns (columns df_2012) (columns out)
               <$> filter (λ r, num_gt bound (cell_at df_2012 "year" r) = true)
                          (rows df_2012))
     ∧ (years_of df_2010 = year_range 2010 2019 →
        years_of df_2012 = year_range 2012 2021 →
        years_of out = year_range 2010 2021
        ∧ ∀ r y, r ∈ rows out → cell_at out "year" r = Num y →
            (2010 ≤ y ≤ 2019 → cell_at out "data_source" r = Str "CSA_2010_2019")
            ∧ (2020 ≤ y ≤ 2021 → cell_at out "data_source" r = Str "CSA_2012_2021")))
  ∧ (NoDup (columns df_2012) → NoDup (columns df_2010) →
     "lga_name" ∉ columns df_2012 → "lga_name" ∉ columns df_2010 →
     (merge w false st).1 = Raise (KeyError "lga_name"))
  ∧ (columns df_2012 ≠ columns df_2010 →
     ¬ (NoDup (columns df_2012) ∧ NoDup (columns df_2010)) →
     ∃ msg, (merge w false st).1 = Raise (InvalidIndexError msg)).
Proof.
  intros Hst Hob Hy12 Hy10 Hne12 Hne10.
  destruct (merge_of_both w st false _ _ Hst Hob) as (L12 & L10 & Hm). rewrite Hm.
  split; [|split].
  2:{ intros Hnd12 Hnd10 Hno12 Hno10. by apply (merge_both_without_lga_name false). }
  2:{ intros Hcols Hnd. by apply (merge_both_repeated_label false). }
  intros Hnd12 Hnd10 Hlga.
  destruct (merge_both_ok false df_2012 df_2010) as (out & bound & Hout & Hb & Hcols & Hperm);
    [done..|].
  exists out, bound. split; [done|]. split; [done|]. split; [done|].
  split; [done|]. intros Hr10 Hr12.
  cbn [is_bound] in Hb. rewrite Hr10 in Hb. apply greatest_year_range in Hb as ->.
  split.
  - apply set_eq. intros x. rewrite (merge_both_years false _ _ _ _ L12 L10 Hout).
    rewrite elem_of_year_range. cbn [is_bound kept_2010 kept_2012]. split.
    + intros (Hna & bound & Hb & [(r0 & Hr0 & <-)|(r0 & [Hgt Hr0]%list_elem_of_filter & <-)]).
      * assert (cell_at df_2010 "year" r0 ∈ years_of df_2010) as Hin
            by (apply elem_of_years_of; eauto).
        rewrite Hr10 in Hin. apply elem_of_year_range in Hin as (y & -> & ?).
        exists y. split; [done|lia].
      * assert (cell_at df_2012 "year" r0 ∈ years_of df_2012) as Hin
            by (apply elem_of_years_of; eauto).
        rewrite Hr12 in Hin. apply elem_of_year_range in Hin as (y & -> & ?).
        exists y. split; [done|lia].
    + intros (y & -> & Hy). split; [done|]. exists 2019. split.
      { rewrite Hr10. split; [apply elem_of_year_range; exists 2019; split; [done|lia]|].
        intros y' (? & [= <-] & ?)%elem_of_year_range. lia. }
      destruct (decide (y ≤ 2019)) as [Hle|Hgt].
      * left. assert (Num y ∈ years_of df_2010) as (_ & r0 & Hr0 & Hy0)%elem_of_years_of.
        { rewrite Hr10. apply elem_of_year_range. exists y. split; [done|lia]. }
        eauto.
      * right. assert (Num y ∈ years_of df_2012) as (_ & r0 & Hr0 & Hy0)%elem_of_years_of.
        { rewrite Hr12. apply elem_of_year_range. exists y. split; [done|lia]. }
        exists r0. split; [|done]. apply list_elem_of_filter. split; [|done].
        rewrite Hy0. cbn. apply bool_decide_eq_true. lia.
  - intros r y Hr Hy. split; intros Hrange.
    + apply (merge_both_preferred false _ _ _ _ _ L12 L10 Hout Hr Hy).
      rewrite Hr10. apply elem_of_year_range. exists y. split; [done|lia].
    + apply (merge_both_other false _ _ _ _ _ L12 L10 Hout Hr Hy).
      rewrite Hr10. intros (y' & [= <-] & ?)%elem_of_year_range. lia.
Qed.

(** C4. In the table a merge returns, a row whose year is present in
    both inputs carries the stamp of the preferred vintage; hence two
    rows with the same year inside the overlap, the same area and the
    same offence division have the same source. The rows are selected
    per table and never removed afterwards: the result has as many rows
    as the two selections together. *)
Theorem merge_one_source_per_overlap_year w st prefer_september tables out :
  reachable st →
  (obtain w st).1 = Ok tables →
  (merge w prefer_september st).1 = Ok out →
  (∀ r y, r ∈ rows out → cell_at out "year" r = Num y → Num y ∈ overlap_window tables →
          cell_at out "data_source" r = preferred_source prefer_september)
  ∧ (∀ r1 r2 y,
       r1 ∈ rows out → r2 ∈ rows out →
       cell_at out "year" r1 = Num y → cell_at out "year" r2 = Num y →
       Num y ∈ overlap_window tables →
       cell_at out "lga_name" r1 = cell_at out "lga_name" r2 →
       cell_at out "offence_division" r1 = cell_at out "offence_division" r2 →
       cell_at out "data_source" r1 = cell_at out "data_source" r2)
  ∧ (∀ df_2012 df_2010, tables = (Some df_2012, Some df_2010) →
       ∃ bound, is_bound prefer_september df_2012 df_2010 bound
         ∧ length (rows out)
           = (length (kept_2010 prefer_september bound df_2010)
              + length (kept_2012 prefer_september bound df_2012))%nat).
Proof.
  intros Hst Hob Hout.
  assert (∀ r y, r ∈ rows out → cell_at out "year" r = Num y →
                 Num y ∈ overlap_window tables →
                 cell_at out "data_source" r = preferred_source prefer_september) as Hpref.
  { intros r y Hr Hy Hin. destruct tables as [[df_2012|] [df_2010|]];
      cbn [overlap_window] in Hin; try by apply elem_of_empty in Hin.
    destruct (merge_of_both w st prefer_september _ _ Hst Hob) as (L12 & L10 & Hm).
    rewrite Hm in Hout. apply elem_of_intersection in Hin as [Hin12 Hin10].
    apply (merge_both_preferred _ _ _ _ _ _ L12 L10 Hout Hr Hy).
    by destruct prefer_september. }
  split; [done|]. split.
  - intros r1 r2 y Hr1 Hr2 Hy1 Hy2 Hin _ _. by rewrite (Hpref r1 y), (Hpref r2 y).
  - intros df_2012 df_2010 ->.
    destruct (merge_of_both w st prefer_september _ _ Hst Hob) as (L12 & L10 & Hm).
    rewrite Hm in Hout.
    apply merge_both_rows in Hout as (bound & Hb & _ & _ & _ & Hlen & _);
      [eauto|apply L12|apply L10].
Qed.

End MergePolicy.

(** * Which errors a merge can raise *)

Lemma no_fnf_Ok {A} (a : A) : no_fnf (Ok a).
Proof. by intros e. Qed.

Lemma no_fnf_bind {A B} (m : result A) (f : A → result B) :
  no_fnf m → (∀ a, no_fnf (f a)) → no_fnf (m ≫= f).
Proof.
  intros Hm Hf e. destruct m as [a|e']; cbn; [apply Hf|]. intros [= <-]. by apply Hm.
Qed.

Lemma no_fnf_mapM {A B} (f : A → result B) l : (∀ x, no_fnf (f x)) → no_fnf (mapM f l).
Proof.
  intros Hf. induction l as [|x l IH]; [apply no_fnf_Ok|]. rewrite mapM_cons.
  apply no_fnf_bind; [done|]. intros y. apply no_fnf_bind; [done|]. intros k. apply no_fnf_Ok.
Qed.

Lemma no_fnf_py_lt a b : no_fnf (py_lt a b).
Proof. destruct a, b; intros e; cbn; by intros [= <-]. Qed.

Lemma no_fnf_py_min xs : no_fnf (py_min xs).
Proof.
  unfold py_min. destruct (elements xs) as [|x l]; [by intros e [= <-]|].
  revert x. induction l as [|y l IH]; intros x; [apply no_fnf_Ok|]. cbn.
  apply no_fnf_bind; [apply no_fnf_py_lt|]. intros b. apply IH.
Qed.

Lemma no_fnf_py_max xs : no_fnf (py_max xs).
Proof.
  unfold py_max. destruct (elements xs) as [|x l]; [by intros e [= <-]|].
  revert x. induction l as [|y l IH]; intros x; [apply no_fnf_Ok|]. cbn.
  apply no_fnf_bind; [apply no_fnf_py_lt|]. intros b. apply IH.
Qed.

Lemma no_fnf_year_set df : no_fnf (year_set df).
Proof. unfold year_set. destruct (getitem df "year"); intros e; by intros [= <-]. Qed.

Lemma no_fnf_year_series df : no_fnf (year_series df).
Proof. unfold year_series. destruct (getitem df "year"); intros e; by intros [= <-]. Qed.

Lemma no_fnf_concat a b : no_fnf (concat a b).
Proof. unfold concat. repeat case_decide; intros e; by intros [= <-]. Qed.

Lemma no_fnf_check_label cols c : no_fnf (check_label cols c).
Proof.
  unfold check_label. destruct (occurrences c cols) as [|[|n]]; intros e; by intros [= <-].
Qed.

Lemma no_fnf_sort_values by_ df : no_fnf (sort_values by_ df).
Proof.
  unfold sort_values. apply no_fnf_bind; [|intros; apply no_fnf_Ok].
  apply no_fnf_mapM, no_fnf_check_label.
Qed.

Lemma no_fnf_merge_both b a12 a10 : no_fnf (merge_both b a12 a10).
Proof.
  unfold merge_both.
  apply no_fnf_bind; [apply no_fnf_year_set|]. intros ys12.
  apply no_fnf_bind; [apply no_fnf_year_set|]. intros ys10.
  apply no_fnf_bind.
  - destruct b.
    + apply no_fnf_bind; [apply no_fnf_py_min|]. intros bound.
      apply no_fnf_bind; [apply no_fnf_year_series|]. intros s.
      apply no_fnf_bind; [apply no_fnf_mapM; intros; apply no_fnf_py_lt|]. intros mask.
      apply no_fnf_concat.
    + apply no_fnf_bind; [apply no_fnf_py_max|]. intros bound.
      apply no_fnf_bind; [apply no_fnf_year_series|]. intros s.
      apply no_fnf_bind; [apply no_fnf_mapM; intros; apply no_fnf_py_lt|]. intros mask.
      apply no_fnf_concat.
  - intros merged. apply no_fnf_bind; [apply no_fnf_sort_values|]. intros. apply no_fnf_Ok.
Qed.

Lemma no_fnf_read_excel wb sheet_name : no_fnf (read_excel wb sheet_name).
Proof. unfold read_excel. destruct (find_sheet wb sheet_name); intros e; by intros [= <-]. Qed.

Lemma no_fnf_chosen_sheet wb sheet_name : no_fnf (chosen_sheet wb sheet_name).
Proof.
  unfold chosen_sheet. destruct sheet_name; [apply no_fnf_Ok|].
  destruct (filter _ _); [destruct (sheet_names wb)|]; intros e; by intros [= <-].
Qed.

Lemma fetch_None c r :
  fetch c r = Ok None ↔ c = None ∧ ∃ e, r = Raise e ∧ is_fnf e = true.
Proof.
  unfold fetch. destruct c as [df|]; [naive_solver|].
  destruct r as [df|[]]; naive_solver.
Qed.

Lemma fetch_Some_cached df r : fetch (Some df) r = Ok (Some df).
Proof. done. Qed.

Lemma no_fnf_fetch c r : no_fnf (fetch c r).
Proof. unfold fetch. destruct c; [by intros e|]. destruct r as [df|[]]; by intros e [= <-]. Qed.

Section SingleSource.
Variable text_to_number : string → option Z.
Local Abbreviation standardize := (_standardize_columns text_to_number).
Local Abbreviation read_2012 := (read_table_2012_2021 text_to_number).
Local Abbreviation read_2010 := (read_table_2010_2019 text_to_number).
Local Abbreviation obtain := (obtain_tables text_to_number).
Local Abbreviation merge := (merge_time_series text_to_number).
Local Abbreviation export := (export_merged_data text_to_number).

Lemma no_fnf_standardize df source_type : no_fnf (standardize df source_type).
Proof.
  rewrite standardize_unfold.
  destruct (occurrences _ _) as [|[|n]]; intros e; by intros [= <-].
Qed.

(** A loader raises [FileNotFoundError] exactly when the file is not
    there. *)
Lemma read_2012_fnf w sheet_name :
  (∃ e, read_2012 w sheet_name = Raise e ∧ is_fnf e = true)
  ↔ files w !! data_file "criminal_incidents_2012_2021" = None.
Proof.
  unfold read_table_2012_2021. destruct (files w !! _) as [wb|];
    [|split; [done|intros _; eexists; split; done]].
  split; [|done]. intros (e & He & Hfnf). exfalso.
  assert (is_fnf e = false) as Hn; [|congruence]. clear Hfnf. revert e He.
  apply no_fnf_bind; [apply no_fnf_read_excel|]. intros raw.
  apply no_fnf_bind; [apply no_fnf_standardize|]. intros std. apply no_fnf_Ok.
Qed.

Lemma read_2010_fnf w sheet_name :
  (∃ e, read_2010 w sheet_name = Raise e ∧ is_fnf e = true)
  ↔ files w !! data_file "criminal_incidents_2010_2019" = None.
Proof.
  unfold read_table_2010_2019. destruct (files w !! _) as [wb|];
    [|split; [done|intros _; eexists; split; done]].
  split; [|done]. intros (e & He & Hfnf). exfalso.
  assert (is_fnf e = false) as Hn; [|congruence]. clear Hfnf. revert e He.
  apply no_fnf_bind; [apply no_fnf_chosen_sheet|]. intros s.
  apply no_fnf_bind; [apply no_fnf_read_excel|]. intros raw.
  apply no_fnf_bind; [apply no_fnf_standardize|]. intros std. apply no_fnf_Ok.
Qed.

Lemma obtain_tables_fst w st :
  (obtain w st).1 =
    o12 ← fetch (loaded_data st !! "criminal_incidents_2012_2021") (read_2012 w "Table 01");
    o10 ← fetch (loaded_data st !! "criminal_incidents_2010_2019") (read_2010 w None);
    Ok (o12, o10).
Proof.
  rewrite obtain_tables_run.
  destruct (fetch _ (read_2012 _ _)); [|done]. cbn. by destruct (fetch _ (read_2010 _ _)).
Qed.

Lemma fetch_absent_2012 w st :
  fetch (loaded_data st !! "criminal_incidents_2012_2021") (read_2012 w "Table 01") = Ok None
  ↔ absent "criminal_incidents_2012_2021" w st.
Proof. rewrite fetch_None, read_2012_fnf. done. Qed.

Lemma fetch_absent_2010 w st :
  fetch (loaded_data st !! "criminal_incidents_2010_2019") (read_2010 w None) = Ok None
  ↔ absent "criminal_incidents_2010_2019" w st.
Proof. rewrite fetch_None, read_2010_fnf. done. Qed.

(** C3. When the March table is absent (not cached, file not there) the
    merge returns the September table: the cached one, or else the one
    read from the file, standardized and stamped. Symmetrically when the
    September table is absent. The merge raises [NoDataAvailable] if and
    only if both tables are absent. *)
Theorem merge_with_one_source w st prefer_september :
  (∀ df, absent "criminal_incidents_2010_2019" w st →
         loaded_data st !! "criminal_incidents_2012_2021" = Some df →
         (merge w prefer_september st).1 = Ok df)
  ∧ (∀ wb raw std,
       absent "criminal_incidents_2010_2019" w st →
       loaded_data st !! "criminal_incidents_2012_2021" = None →
       files w !! data_file "criminal_incidents_2012_2021" = Some wb →
       read_excel wb "Table 01" = Ok raw →
       standardize raw "2012_2021" = Ok std →
       (merge w prefer_september st).1 = Ok (stamp "CSA_2012_2021" "September" std))
  ∧ (∀ df, absent "criminal_incidents_2012_2021" w st →
           loaded_data st !! "criminal_incidents_2010_2019" = Some df →
           (merge w prefer_september st).1 = Ok df)
  ∧ (∀ wb sheet_name raw std,
       absent "criminal_incidents_2012_2021" w st →
       loaded_data st !! "criminal_incidents_2010_2019" = None →
       files w !! data_file "criminal_incidents_2010_2019" = Some wb →
       chosen_sheet wb None = Ok sheet_name →
       read_excel wb sheet_name = Ok raw →
       standardize raw "2010_2019" = Ok std →
       (merge w prefer_september st).1 = Ok (stamp "CSA_2010_2019" "March" std))
  ∧ ((merge w prefer_september st).1 = Raise NoDataAvailable
     ↔ absent "criminal_incidents_2012_2021" w st
       ∧ absent "criminal_incidents_2010_2019" w st).
Proof.
  rewrite merge_time_series_fst, obtain_tables_fst.
  split; [|split; [|split; [|split]]].
  - intros df Ha%fetch_absent_2010 Hc. by rewrite Hc, Ha.
  - intros wb raw std Ha%fetch_absent_2010 Hc Hf Hraw Hstd. rewrite Hc, Ha.
    unfold read_table_2012_2021. rewrite Hf, Hraw. cbn [mbind result_bind].
    by rewrite Hstd.
  - intros df Ha%fetch_absent_2012 Hc. by rewrite Hc, Ha.
  - intros wb s raw std Ha%fetch_absent_2012 Hc Hf Hs Hraw Hstd. rewrite Hc, Ha.
    unfold read_table_2010_2019. rewrite Hf, Hs. cbn [mbind result_bind].
    rewrite Hraw. cbn [mbind result_bind]. by rewrite Hstd.
  - rewrite <- fetch_absent_2012, <- fetch_absent_2010. split.
    + destruct (fetch _ (read_2012 _ _)) as [o12|e12] eqn:H12; cbn.
      2:{ intros [= ->]. by apply no_fnf_fetch in H12. }
      destruct (fetch _ (read_2010 _ _)) as [o10|e10] eqn:H10; cbn.
      2:{ intros [= ->]. by apply no_fnf_fetch in H10. }
      destruct o12 as [a12|], o10 as [a10|]; cbn; try done.
      intros Hm. by apply no_fnf_merge_both in Hm.
    + by intros [-> ->].
Qed.

Lemma obtain_tables_reads_only w st : reads_only st (obtain w st).2.
Proof.
  rewrite obtain_tables_run.
  set (st1 := after_fetch _ _ _ _ st).
  set (st2 := after_fetch _ _ _ _ st1).
  assert (∀ {A} evs c (r : result A) cache s,
             Forall (λ ev, is_write ev = false) evs →
             (∀ a st0, effects (cache a st0) = effects st0) →
             reads_only s (after_fetch evs c r cache s)) as Hstep.
  { intros A evs c r cache s Hevs Hc. destruct c; cbn [after_fetch];
      [apply reads_only_refl|by apply reads_only_after_load]. }
  assert (reads_only st st1) as H1
      by (by apply Hstep; [apply load_events_2012_2021_reads|]).
  assert (reads_only st1 st2) as H2
      by (by apply Hstep; [apply load_events_2010_2019_reads|]).
  destruct (fetch _ _); [|done].
  destruct (fetch _ _); cbn; eauto using reads_only_trans.
Qed.

Lemma obtain_tables_cached w st :
  is_Some (loaded_data st !! "criminal_incidents_2012_2021") →
  is_Some (loaded_data st !! "criminal_incidents_2010_2019") →
  (obtain w st).2 = st.
Proof. intros [d12 H12] [d10 H10]. rewrite obtain_tables_run, H12, H10. done. Qed.

(** C7, with the effects the code has. For an output format that is
    none of csv, excel and parquet, [export_merged_data] first runs the
    merge: the file system is accessed exactly as the merge accesses it,
    which may read the source files but writes nothing. If the merge
    succeeds the export raises [UnsupportedFormat]; if the merge raises,
    the export raises the same error; and when both tables are cached
    the state is left as it was. *)
Theorem export_unsupported_format w st output_format filename :
  ¬ supported output_format →
  let out := export w output_format filename st in
  reads_only st out.2
  ∧ out.2 = (merge w true st).2
  ∧ (∀ merged, (merge w true st).1 = Ok merged →
               out.1 = Raise (UnsupportedFormat output_format))
  ∧ (∀ e, (merge w true st).1 = Raise e → out.1 = Raise e)
  ∧ (is_Some (loaded_data st !! "criminal_incidents_2012_2021") →
     is_Some (loaded_data st !! "criminal_incidents_2010_2019") →
     out.2 = st).
Proof.
  intros Hfmt out. subst out. rewrite export_merged_data_run.
  pose proof (merge_time_series_state text_to_number w true st) as Hst.
  pose proof (obtain_tables_reads_only w st) as Hro.
  destruct (merge w true st) as [[merged|e] st'] eqn:Hm; cbn in Hst; subst st';
    cbn [fst snd]; rewrite ?decide_False by done; cbn [fst snd].
  - split; [done|]. split; [done|]. split; [done|]. split; [done|].
    apply obtain_tables_cached.
  - split; [done|]. split; [done|]. split; [done|]. split; [by intros ? [= ->]|].
    apply obtain_tables_cached.
Qed.
End SingleSource.

(** * Grouping *)

Lemma mapM_Ok_inv {A B} (f : A → result B) l l' :
  mapM f l = Ok l' → Forall2 (λ x y, f x = Ok y) l l'.
Proof.
  revert l'. induction l as [|x l IH]; intros l'.
  - intros [= <-]. constructor.
  - rewrite mapM_cons. destruct (f x) as [y|] eqn:Hx; [|done]. cbn.
    destruct (mapM f l) as [k|] eqn:Hl; [|done]. cbn. intros [= <-]. constructor; auto.
Qed.

Lemma mapM_Ok_fmap {A B} (f : A → result B) (g : A → B) l :
  (∀ x, x ∈ l → f x = Ok (g x)) → mapM f l = Ok (g <$> l).
Proof.
  intros Hfg. induction l as [|x l IH]; [done|]. rewrite mapM_cons.
  rewrite Hfg by set_solver. cbn. rewrite IH; [done|]. intros y Hy. apply Hfg. set_solver.
Qed.

Lemma check_grouper_ok cols c : occurrences c cols = 1%nat → check_grouper cols c = Ok ().
Proof. intros Hc. unfold check_grouper. by rewrite Hc. Qed.

Lemma check_grouper_inv cols c u : check_grouper cols c = Ok u → occurrences c cols = 1%nat.
Proof. unfold check_grouper. by destruct (occurrences c cols) as [|[|n]]. Qed.

Lemma groupby_inv df by_ groups :
  groupby df by_ = Ok groups →
  by_ ≠ [] ∧ Forall (λ c, occurrences c (columns df) = 1%nat) by_ ∧ groups = groups_of df by_.
Proof.
  unfold groupby. destruct by_ as [|c by_]; [done|].
  destruct (mapM _ (c :: by_)) as [u|] eqn:Hm; [|done]. cbn. intros [= <-].
  split; [done|]. split; [|done].
  apply mapM_Ok_inv in Hm. clear -Hm. induction Hm as [|x y l l' Hx Hl IH]; constructor; auto.
  by eapply check_grouper_inv.
Qed.

Lemma groupby_ok df by_ :
  (by_ ≠ []) → Forall (λ c, occurrences c (columns df) = 1%nat) by_ →
  groupby df by_ = Ok (groups_of df by_).
Proof.
  intros Hne Hby. unfold groupby. destruct by_ as [|c by_]; [done|].
  rewrite (mapM_Ok_fmap _ (λ _, tt)); [done|].
  intros x Hx. apply check_grouper_ok. rewrite Forall_forall in Hby. by apply Hby.
Qed.

Lemma length_sort_key cols by_ r : length (sort_key cols by_ r) = length by_.
Proof. unfold sort_key. by rewrite length_fmap. Qed.

Lemma elem_of_group_keys df by_ k :
  k ∈ group_keys df by_ ↔ (NaN ∉ k) ∧ ∃ r, r ∈ rows df ∧ k = sort_key (columns df) by_ r.
Proof.
  unfold group_keys.
  rewrite stable_sort_elem_of, elem_of_remove_dups, list_elem_of_filter, list_elem_of_fmap.
  naive_solver.
Qed.

Lemma NoDup_group_keys df by_ : NoDup (group_keys df by_).
Proof.
  unfold group_keys. rewrite stable_sort_Permutation. apply NoDup_remove_dups.
Qed.

Lemma filter_idem {A} (P : A → Prop) `{!∀ x, Decision (P x)} (l : list A) :
  filter P (filter P l) = filter P l.
Proof.
  induction l as [|x l IH]; [done|]. rewrite filter_cons.
  destruct (decide (P x)); [|done]. rewrite filter_cons, decide_True by done. by rewrite IH.
Qed.

(** * Sums of counts *)

Lemma wrap64_small z : - 2 ^ 63 ≤ z < 2 ^ 63 → wrap64 z = z.
Proof. intros Hz. unfold wrap64. rewrite Z.mod_small by lia. lia. Qed.

Lemma wrap64_add z s : wrap64 (z + wrap64 s) = wrap64 (z + s).
Proof.
  unfold wrap64. f_equal.
  replace (z + ((s + 2 ^ 63) mod 2 ^ 64 - 2 ^ 63) + 2 ^ 63)
    with (z + (s + 2 ^ 63) mod 2 ^ 64) by lia.
  rewrite Z.add_mod_idemp_r by lia. f_equal. lia.
Qed.

Lemma sum_list_Z_cons x l : sum_list_Z (x :: l) = x + sum_list_Z l.
Proof. done. Qed.

Lemma sum_numbers_sum_list vals : sum_numbers vals = sum_list_Z (number_of <$> vals).
Proof.
  induction vals as [|c vals IH]; [done|]. rewrite fmap_cons, sum_list_Z_cons, <- IH.
  by destruct c.
Qed.

(** What [agg_sum] returns is the sum of the numbers, as an int64. *)
Lemma agg_sum_Ok vals t : agg_sum vals = Ok t → t = wrap64 (sum_numbers vals).
Proof.
  revert t. induction vals as [|[z|s|] vals IH]; intros t; cbn.
  - by intros [= <-].
  - destruct (agg_sum vals) as [t'|]; [|done]. cbn. intros [= <-].
    by rewrite (IH t'), wrap64_add.
  - done.
  - apply IH.
Qed.

Lemma agg_sum_numeric vals :
  Forall (λ c, is_text c = false) vals → agg_sum vals = Ok (wrap64 (sum_numbers vals)).
Proof.
  induction 1 as [|c vals Hc Hvals IH]; [done|]. destruct c as [z|t|]; [|done|]; cbn.
  - by rewrite IH, <- wrap64_add.
  - done.
Qed.

Lemma sum_list_Z_abs {A} (f : A → Z) l :
  Z.abs (sum_list_Z (f <$> l)) ≤ sum_list_Z (Z.abs ∘ f <$> l).
Proof.
  induction l as [|x l IH]; [done|]. rewrite !fmap_cons, !sum_list_Z_cons. cbn. lia.
Qed.

Lemma sum_abs_filter {A} (f : A → Z) (P : A → Prop) `{!∀ x, Decision (P x)} l :
  0 ≤ sum_list_Z (Z.abs ∘ f <$> filter P l) ≤ sum_list_Z (Z.abs ∘ f <$> l).
Proof.
  induction l as [|x l IH]; [done|]. rewrite filter_cons.
  destruct (decide (P x)); rewrite !fmap_cons, !sum_list_Z_cons; cbn; lia.
Qed.

(** Within the exact range, the sum of the counts of any selection of
    rows is not changed by int64 arithmetic. *)
Lemma exact_total_filter c df (P : row → Prop) `{!∀ r, Decision (P r)} :
  exact_total c df →
  wrap64 (sum_numbers (cell_at df c <$> filter P (rows df)))
  = sum_numbers (cell_at df c <$> filter P (rows df)).
Proof.
  intros Hexact. apply wrap64_small. unfold exact_total in Hexact.
  rewrite sum_numbers_sum_list, <- list_fmap_compose.
  pose proof (sum_list_Z_abs (number_of ∘ cell_at df c) (filter P (rows df))) as Habs.
  pose proof (sum_abs_filter (number_of ∘ cell_at df c) P (rows df)) as Hle.
  unfold compose in *. assert (2 ^ 53 < 2 ^ 63) by done. lia.
Qed.

(** * The summary by area *)


(** Two requests with the same present columns have the same outcome. *)
Lemma get_lga_summary_present df cols1 cols2 :
  filter (λ c, c ∈ columns df) cols1 = filter (λ c, c ∈ columns df) cols2 →
  get_lga_summary df (Some cols1) = get_lga_summary df (Some cols2).
Proof. intros Heq. unfold get_lga_summary. cbn [from_option id]. by rewrite Heq. Qed.

Lemma check_aggregated_ok cols c :
  occurrences c cols = 1%nat → check_aggregated cols c = Ok ().
Proof. intros Hocc. unfold check_aggregated. by rewrite Hocc. Qed.

Lemma check_insert_ok names : NoDup names → check_insert names = Ok ().
Proof. intros Hnd. unfold check_insert. by rewrite decide_True. Qed.

Lemma lstrip_chars_snoc a l :
  lstrip_chars a (l ++ [a])
  = match lstrip_chars a l with [] => [] | l' => (l' ++ [a])%list end.
Proof.
  induction l as [|x l IH]; cbn.
  - by rewrite decide_True.
  - destruct (decide (x = a)); [done|]. done.
Qed.

Lemma strip_chars_snoc a l : strip_chars a (l ++ [a]) = strip_chars a l.
Proof.
  unfold strip_chars. rewrite lstrip_chars_snoc.
  destruct (lstrip_chars a l) as [|x l'] eqn:Hl; [done|].
  rewrite rev_app_distr. cbn [rev app lstrip_chars]. by rewrite decide_True.
Qed.

Lemma flatten_group_column c : flatten (c, "") = strip_underscores c.
Proof.
  unfold flatten, strip_underscores. cbn [fst snd]. f_equal.
  assert (list_ascii_of_string (c ++ "_" ++ "")
          = (list_ascii_of_string c ++ ["_"%char])%list) as ->.
  { induction c as [|a c IH]; [done|]. cbn. by rewrite <- IH. }
  apply strip_chars_snoc.
Qed.

Lemma present_once df group_cols :
  NoDup (columns df) →
  Forall (λ c, occurrences c (columns df) = 1%nat) (filter (λ c, c ∈ columns df) group_cols).
Proof.
  intros Hnd. apply Forall_forall. intros c [Hc _]%list_elem_of_filter.
  by apply occurrences_NoDup.
Qed.

(** The summary of a table that has incident counts, none of them a
    text, within the exact range: one row per group, with the key and
    the three aggregates of the group. *)
Lemma get_lga_summary_aggregates df group_cols :
  let present := filter (λ c, c ∈ columns df) group_cols in
  present ≠ [] → NoDup present →
  Forall (λ c, occurrences c (columns df) = 1%nat) present →
  occurrences "incidents_recorded" (columns df) = 1%nat →
  numeric_column "incidents_recorded" df → exact_total "incidents_recorded" df →
  get_lga_summary df (Some group_cols)
  = Ok {| summary_columns :=
            (strip_underscores <$> present)
              ++ ["incidents_recorded_sum"; "incidents_recorded_mean";
                  "incidents_recorded_count"];
          summary_rows := aggregates_row df present <$> group_keys df present |}.
Proof.
  intros present Hne Hnd Honce Hinc Hnum Hexact.
  unfold get_lga_summary. cbn [from_option id]. fold present.
  rewrite decide_True by (apply occurrences_pos; lia).
  rewrite groupby_ok by done. cbn [mbind result_bind].
  rewrite check_aggregated_ok by done. cbn [mbind result_bind].
  rewrite (mapM_Ok_fmap _ (λ g, aggregates_row df present g.1)).
  2:{ intros g (k & -> & _)%list_elem_of_fmap. cbn [fst snd].
      rewrite agg_sum_numeric.
      2:{ rewrite Forall_fmap. unfold numeric_column in Hnum. rewrite Forall_forall in Hnum.
          apply Forall_forall. intros r [_ Hr]%list_elem_of_filter. by apply Hnum. }
      cbn [mbind result_bind]. unfold aggregates_row, group_rows. cbn zeta.
      by rewrite exact_total_filter. }
  cbn [mbind result_bind]. rewrite check_insert_ok by done. cbn [mbind result_bind].
  f_equal. f_equal.
  - rewrite fmap_app, <- list_fmap_compose. f_equal.
    apply list_fmap_ext. intros i c _. apply flatten_group_column.
  - unfold groups_of. by rewrite <- list_fmap_compose.
Qed.

(** The summary of a table without incident counts: one row per group,
    with the key and the size of the group. *)
Lemma get_lga_summary_sizes df group_cols :
  let present := filter (λ c, c ∈ columns df) group_cols in
  present ≠ [] → NoDup present → "count" ∉ present →
  Forall (λ c, occurrences c (columns df) = 1%nat) present →
  "incidents_recorded" ∉ columns df →
  get_lga_summary df (Some group_cols)
  = Ok {| summary_columns := present ++ ["count"];
          summary_rows := size_row df present <$> group_keys df present |}.
Proof.
  intros present Hne Hnd Hcount Honce Hinc.
  unfold get_lga_summary. cbn [from_option id]. fold present.
  rewrite decide_False by done.
  rewrite groupby_ok by done. cbn [mbind result_bind].
  rewrite check_insert_ok.
  2:{ apply NoDup_app. split; [done|]. split; [|apply NoDup_singleton].
      intros c Hc ->%list_elem_of_singleton. done. }
  cbn [mbind result_bind]. f_equal. f_equal.
  unfold groups_of. by rewrite <- list_fmap_compose.
Qed.

Lemma Sorted_group_keys df by_ : Sorted key_le (group_keys df by_).
Proof. unfold group_keys. apply stable_sort_Sorted. apply _. Qed.

(** C10. [get_lga_summary] with a list of group columns has the outcome
    it has with the sublist of the columns present in the table, and
    removing an absent column from the request changes nothing. When a
    requested column is present, on a table with pairwise distinct
    labels and for a request that names no present column twice, the
    call succeeds: the summary has the present columns, in the order
    requested, followed by the sum, the mean and the count of
    [incidents_recorded] (the counts holding no text and adding up
    within the exact range) or, on a table without that column, by the
    size of the group; it has one row per group. The groups are the
    distinct values the rows of the table take on the present columns,
    rows with a missing value there being left out, in ascending order;
    the absent columns play no part. *)
Theorem lga_summary_drops_absent_group_columns df group_cols :
  let present := filter (λ c, c ∈ columns df) group_cols in
  let keys := group_keys df present in
  get_lga_summary df (Some group_cols) = get_lga_summary df (Some present)
  ∧ (∀ before after c,
       c ∉ columns df →
       get_lga_summary df (Some (before ++ c :: after)%list)
       = get_lga_summary df (Some (before ++ after)%list))
  ∧ (NoDup (columns df) → NoDup present → present ≠ [] →
     ("incidents_recorded" ∈ columns df →
      numeric_column "incidents_recorded" df → exact_total "incidents_recorded" df →
      get_lga_summary df (Some group_cols)
      = Ok {| summary_columns :=
                (strip_underscores <$> present)
                  ++ ["incidents_recorded_sum"; "incidents_recorded_mean";
                      "incidents_recorded_count"];
              summary_rows := aggregates_row df present <$> keys |})
     ∧ ("incidents_recorded" ∉ columns df → "count" ∉ present →
        get_lga_summary df (Some group_cols)
        = Ok {| summary_columns := present ++ ["count"];
                summary_rows := size_row df present <$> keys |}))
  ∧ NoDup keys
  ∧ Sorted key_le keys
  ∧ (∀ k, k ∈ keys ↔
          (NaN ∉ k) ∧ ∃ r, r ∈ rows df ∧ k = sort_key (columns df) present r).
Proof.
  intros present keys. split; [|split; [|split; [|split; [|split]]]].
  - apply get_lga_summary_present. subst present. by rewrite filter_idem.
  - intros before after c Hc. apply get_lga_summary_present.
    by rewrite !filter_app, filter_cons, decide_False.
  - intros Hcols Hnd Hne. pose proof (present_once df group_cols Hcols) as Honce. split.
    + intros Hinc Hnum Hexact. apply get_lga_summary_aggregates; try done.
      by apply occurrences_NoDup.
    + intros Hinc Hcount. by apply get_lga_summary_sizes.
  - apply NoDup_group_keys.
  - apply Sorted_group_keys.
  - intros k. apply elem_of_group_keys.
Qed.

(** * Trends *)

Lemma length_pct_change seen l : length (pct_change seen l) = length l.
Proof.
  revert seen. induction l as [|[g v] l IH]; intros seen; [done|]. cbn. by rewrite IH.
Qed.





Lemma Forall2_zip_with_l {A B} (f : A → B → A) (K : A → A → Prop) l k :
  (∀ x y, K x (f x y)) → length l = length k → Forall2 K l (zip_with f l k).
Proof.
  intros Hf. revert k. induction l as [|x l IH]; intros [|y k] Hlen; try done; cbn.
  constructor; [done|]. apply IH. cbn in Hlen. lia.
Qed.



(** The trend table of a table that has the three columns, counts being
    numbers or missing. *)
Lemma get_offence_trends_ok df :
  occurrences "year" (columns df) = 1%nat →
  occurrences "offence_division" (columns df) = 1%nat →
  occurrences "incidents_recorded" (columns df) = 1%nat →
  numeric_column "incidents_recorded" df →
  get_offence_trends df = Ok (trends_of df).
Proof.
  intros Hy Hd Hi Hnum. unfold get_offence_trends.
  rewrite decide_False.
  2:{ intros Hn. apply Hn, occurrences_pos. lia. }
  rewrite groupby_ok by (done || by repeat constructor). cbn [mbind result_bind].
  rewrite check_aggregated_ok by done. cbn [mbind result_bind].
  rewrite (mapM_Ok_fmap _ (trend_of_group df)); [done|].
  intros g (k & -> & _)%list_elem_of_fmap. cbn [fst snd].
  rewrite agg_sum_numeric; [done|]. rewrite Forall_fmap.
  unfold numeric_column in Hnum. rewrite Forall_forall in Hnum. apply Forall_forall.
  intros r [_ Hr]%list_elem_of_filter. by apply Hnum.
Qed.




Lemma fmap_same_trend {B} (f : trend → B) l l' :
  (∀ t t', same_trend t t' → f t = f t') → Forall2 same_trend l l' → f <$> l = f <$> l'.
Proof. intros Hf. induction 1; [done|]. cbn. f_equal; auto. Qed.

Lemma same_trend_with_change t c : same_trend t (with_change t c).
Proof. done. Qed.

Section Trends.
Variable df : DataFrame.
Local Abbreviation groups := (groups_of df ["year"; "offence_division"]).
Local Abbreviation sorted := (sorted_trends df).
Local Abbreviation trends := (trends_of df).

Lemma trends_same : Forall2 same_trend sorted trends.
Proof.
  unfold trends_of. apply Forall2_zip_with_l; [apply same_trend_with_change|].
  unfold trend_pairs. by rewrite length_pct_change, length_fmap.
Qed.









End Trends.


(** * The sample workbooks and tables *)

(** The years of the two sample tables, and the tables a fresh processor
    obtains from the sample files. *)
Lemma march_table_years : years_of march_table = year_range 2010 2019.
Proof. by_evaluation. Qed.

Lemma september_table_years : years_of september_table = year_range 2012 2021.
Proof. by_evaluation. Qed.

Lemma obtain_both_files :
  (obtain_tables decimal_literal both_files init).1
  = Ok (Some september_table, Some march_table).
Proof. vm_compute. reflexivity. Qed.

Lemma obtain_bare_files :
  (obtain_tables decimal_literal bare_files init).1
  = Ok (Some bare_table_2012, Some bare_table_2010).
Proof. vm_compute. reflexivity. Qed.

Lemma obtain_twice_named_files :
  (obtain_tables decimal_literal twice_named_files init).1
  = Ok (Some september_table, Some twice_named_table).
Proof. vm_compute. reflexivity. Qed.

(** On the sample workbooks the September-first merge covers 2010-2021,
    with 2010-2011 from the March table and 2012-2021 from the September
    table. *)
Lemma merge_prefer_september_witness :
  ∃ out, (merge_time_series decimal_literal both_files true init).1 = Ok out
         ∧ years_of out = year_range 2010 2021
         ∧ ∀ r y, r ∈ rows out → cell_at out "year" r = Num y →
             (2010 ≤ y ≤ 2011 → cell_at out "data_source" r = Str "CSA_2010_2019")
             ∧ (2012 ≤ y ≤ 2021 → cell_at out "data_source" r = Str "CSA_2012_2021").
Proof.
  destruct (merge_prefer_september decimal_literal both_files init
              september_table march_table) as (Hmain & _ & _).
  - apply reachable_init.
  - exact obtain_both_files.
  - by_evaluation.
  - by_evaluation.
  - by_evaluation.
  - by_evaluation.
  - destruct Hmain as (out & bound & Hout & _ & _ & _ & Hyears).
    + by_evaluation.
    + by_evaluation.
    + left. by_evaluation.
    + exists out. split; [exact Hout|].
      exact (Hyears march_table_years september_table_years).
Defined.

(** Two sheets with a year and no area name: both tables load, each has
    a year column with values, and the September-first merge raises
    [KeyError] at the final sort. A March sheet that names the area
    twice: the table loads with two columns [lga_name], and the merge
    raises [InvalidIndexError] at the concatenation. *)
Lemma merge_prefer_september_without_lga_name :
  reachable decimal_literal init
  ∧ (obtain_tables decimal_literal bare_files init).1
    = Ok (Some bare_table_2012, Some bare_table_2010)
  ∧ NoDup (columns bare_table_2012) ∧ NoDup (columns bare_table_2010)
  ∧ "year" ∈ columns bare_table_2012 ∧ "year" ∈ columns bare_table_2010
  ∧ years_of bare_table_2012 ≠ ∅ ∧ years_of bare_table_2010 ≠ ∅
  ∧ (merge_time_series decimal_literal bare_files true init).1 = Raise (KeyError "lga_name")
  ∧ (obtain_tables decimal_literal twice_named_files init).1
    = Ok (Some september_table, Some twice_named_table)
  ∧ "year" ∈ columns september_table ∧ "year" ∈ columns twice_named_table
  ∧ years_of september_table ≠ ∅ ∧ years_of twice_named_table ≠ ∅
  ∧ "lga_name" ∈ columns twice_named_table
  ∧ ¬ NoDup (columns twice_named_table)
  ∧ columns september_table ≠ columns twice_named_table
  ∧ ∃ msg, (merge_time_series decimal_literal twice_named_files true init).1
           = Raise (InvalidIndexError msg).
Proof.
  split; [apply reachable_init|]. split; [exact obtain_bare_files|].
  do 6 (split; [by_evaluation|]). split; [vm_compute; reflexivity|].
  split; [exact obtain_twice_named_files|].
  do 7 (split; [by_evaluation|]). eexists. vm_compute. reflexivity.
Qed.

(** On the sample workbooks the March-first merge covers 2010-2021, with
    2010-2019 from the March table and 2020-2021 from the September
    table. *)
Lemma merge_prefer_march_witness :
  ∃ out, (merge_time_series decimal_literal both_files false init).1 = Ok out
         ∧ years_of out = year_range 2010 2021
         ∧ ∀ r y, r ∈ rows out → cell_at out "year" r = Num y →
             (2010 ≤ y ≤ 2019 → cell_at out "data_source" r = Str "CSA_2010_2019")
             ∧ (2020 ≤ y ≤ 2021 → cell_at out "data_source" r = Str "CSA_2012_2021").
Proof.
  destruct (merge_prefer_march decimal_literal both_files init
              september_table march_table) as (Hmain & _ & _).
  - apply reachable_init.
  - exact obtain_both_files.
  - by_evaluation.
  - by_evaluation.
  - by_evaluation.
  - by_evaluation.
  - destruct Hmain as (out & bound & Hout & _ & _ & _ & Hyears).
    + by_evaluation.
    + by_evaluation.
    + left. by_evaluation.
    + exists out. split; [exact Hout|].
      exact (Hyears march_table_years september_table_years).
Defined.

(** The same sheets make the March-first merge raise [KeyError] and
    [InvalidIndexError]. *)
Lemma merge_prefer_march_without_lga_name :
  reachable decimal_literal init
  ∧ (obtain_tables decimal_literal bare_files init).1
    = Ok (Some bare_table_2012, Some bare_table_2010)
  ∧ NoDup (columns bare_table_2012) ∧ NoDup (columns bare_table_2010)
  ∧ "year" ∈ columns bare_table_2012 ∧ "year" ∈ columns bare_table_2010
  ∧ years_of bare_table_2012 ≠ ∅ ∧ years_of bare_table_2010 ≠ ∅
  ∧ (merge_time_series decimal_literal bare_files false init).1 = Raise (KeyError "lga_name")
  ∧ (obtain_tables decimal_literal twice_named_files init).1
    = Ok (Some september_table, Some twice_named_table)
  ∧ "year" ∈ columns september_table ∧ "year" ∈ columns twice_named_table
  ∧ years_of september_table ≠ ∅ ∧ years_of twice_named_table ≠ ∅
  ∧ "lga_name" ∈ columns twice_named_table
  ∧ ¬ NoDup (columns twice_named_table)
  ∧ columns september_table ≠ columns twice_named_table
  ∧ ∃ msg, (merge_time_series decimal_literal twice_named_files false init).1
           = Raise (InvalidIndexError msg).
Proof.
  split; [apply reachable_init|]. split; [exact obtain_bare_files|].
  do 6 (split; [by_evaluation|]). split; [vm_compute; reflexivity|].
  split; [exact obtain_twice_named_files|].
  do 7 (split; [by_evaluation|]). eexists. vm_compute. reflexivity.
Qed.

(** With one file only the merge returns the table of that file; with
    no file it raises [NoDataAvailable]. *)
Lemma merge_with_one_source_witness :
  (merge_time_series decimal_literal only_september true init).1 = Ok september_table
  ∧ (merge_time_series decimal_literal only_march true init).1 = Ok march_table
  ∧ (merge_time_series decimal_literal no_files true init).1 = Raise NoDataAvailable.
Proof.
  destruct (merge_with_one_source decimal_literal only_september init true)
    as (_ & Hsep & _ & _ & _).
  destruct (merge_with_one_source decimal_literal only_march init true)
    as (_ & _ & _ & Hmar & _).
  destruct (merge_with_one_source decimal_literal no_files init true)
    as (_ & _ & _ & _ & Hnone).
  split; [|split].
  - pose (raw := match read_excel september_workbook "Table 01" with
                 | Ok df => df
                 | Raise _ => Frame [] []
                 end).
    pose (std := match _standardize_columns decimal_literal raw "2012_2021" with
                 | Ok df => df
                 | Raise _ => Frame [] []
                 end).
    etrans; [apply (Hsep september_workbook raw std)|];
      try (split; vm_compute; reflexivity); vm_compute; reflexivity.
  - pose (raw := match read_excel march_workbook "Data" with
                 | Ok df => df
                 | Raise _ => Frame [] []
                 end).
    pose (std := match _standardize_columns decimal_literal raw "2010_2019" with
                 | Ok df => df
                 | Raise _ => Frame [] []
                 end).
    etrans; [apply (Hmar march_workbook "Data" raw std)|];
      try (split; vm_compute; reflexivity); vm_compute; reflexivity.
  - apply Hnone. split; split; vm_compute; reflexivity.
Defined.

(** The sample tables overlap on 2012-2019, and the merged rows of these
    years all come from the September table. *)
Lemma merge_one_source_per_overlap_year_witness :
  overlap_window (Some september_table, Some march_table) = year_range 2012 2019
  ∧ (∀ r y, r ∈ rows merged_prefer_september →
            cell_at merged_prefer_september "year" r = Num y →
            2012 ≤ y ≤ 2019 →
            cell_at merged_prefer_september "data_source" r = Str "CSA_2012_2021").
Proof.
  assert (overlap_window (Some september_table, Some march_table) = year_range 2012 2019)
    as Hwin by by_evaluation.
  split; [exact Hwin|].
  destruct (merge_one_source_per_overlap_year decimal_literal both_files init true
              (Some september_table, Some march_table) merged_prefer_september)
    as (Hsrc & _).
  - apply reachable_init.
  - exact obtain_both_files.
  - vm_compute. reflexivity.
  - intros r y Hr Hy Hrange. apply (Hsrc r y Hr Hy).
    rewrite Hwin. apply elem_of_year_range. exists y. split; [reflexivity|lia].
Defined.

(** The raw labels Year and LGA_NAME are renamed, the unknown label Notes
    is kept. *)
Lemma standardize_renames_mapped_columns_witness :
  ∃ df', _standardize_columns decimal_literal raw_years "2010_2019" = Ok df'
    ∧ columns df' = ["year"; "lga_name"; "Notes"].
Proof.
  destruct (standardize_renames_mapped_columns decimal_literal raw_years "2010_2019")
    as (df' & Hok & Hcols & _).
  - vm_compute. lia.
  - exists df'. split; [exact Hok|]. rewrite Hcols. reflexivity.
Defined.

(** A sheet with the columns Year and year: [year] is no key of the
    mapping, and the standardization raises [TypeError]. *)
Lemma standardize_two_year_columns_raises :
  default ∅ (COLUMN_MAPPINGS !! "2012_2021") !! "year" = None
  ∧ _standardize_columns decimal_literal two_year_columns "2012_2021"
    = Raise (TypeError "arg must be a list, tuple, 1-d array, or Series").
Proof. split; vm_compute; reflexivity. Qed.

(** The years 2015 (text), N/A (text) and 2017 (number) become 2015,
    missing and 2017. *)
Lemma year_is_numeric_after_standardization_witness :
  ∃ df', _standardize_columns decimal_literal raw_years "2010_2019" = Ok df'
    ∧ cell_at df' "year" <$> rows df' = [Num 2015; NaN; Num 2017]
    ∧ numeric_column "year" df'.
Proof.
  destruct (year_is_numeric_after_standardization decimal_literal raw_years "2010_2019")
    as (df' & Hok & _ & Hnum & _).
  - vm_compute. reflexivity.
  - exists df'. split; [exact Hok|]. split; [|exact Hnum].
    vm_compute in Hok. injection Hok as <-. vm_compute. reflexivity.
Defined.

(** A table with a [year] column and a Year column: the coercion raises
    [TypeError]. *)
Lemma standardize_year_and_Year_raises :
  "year" ∈ columns year_and_Year
  ∧ _standardize_columns decimal_literal year_and_Year "2010_2019"
    = Raise (TypeError "arg must be a list, tuple, 1-d array, or Series").
Proof. split; [by_evaluation|vm_compute; reflexivity]. Qed.

(** Exporting the sample files as xml raises [UnsupportedFormat] and
    writes nothing. *)
Lemma export_unsupported_format_witness :
  (export_merged_data decimal_literal both_files "xml" None init).1
  = Raise (UnsupportedFormat "xml")
  ∧ Forall (λ ev, is_write ev = false)
           (effects (export_merged_data decimal_literal both_files "xml" None init).2).
Proof.
  destruct (export_unsupported_format decimal_literal both_files init "xml" None)
    as ((evs & Hevs & Hro) & _ & Hfmt & _).
  - by_evaluation.
  - split.
    + apply (Hfmt merged_prefer_september). vm_compute. reflexivity.
    + rewrite Hevs. exact Hro.
Defined.

(** Exporting as xml from a fresh processor tests for and reads both
    source files before [UnsupportedFormat] is raised; without files the
    error is [NoDataAvailable]. *)
Lemma export_unsupported_format_reads_files :
  ¬ supported "xml"
  ∧ (export_merged_data decimal_literal both_files "xml" None init).1
    = Raise (UnsupportedFormat "xml")
  ∧ effects (export_merged_data decimal_literal both_files "xml" None init).2
    = [FsExists (data_file "criminal_incidents_2012_2021");
       FsRead (data_file "criminal_incidents_2012_2021");
       FsExists (data_file "criminal_incidents_2010_2019");
       FsRead (data_file "criminal_incidents_2010_2019");
       FsRead (data_file "criminal_incidents_2010_2019")]
  ∧ (export_merged_data decimal_literal no_files "xml" None init).1
    = Raise NoDataAvailable.
Proof.
  split; [by_evaluation|]. repeat split; vm_compute; reflexivity.
Qed.



(** Asking for suburb, lga_name and postcode on a table that only has
    lga_name gives the summary by lga_name: one row for Ararat, with
    107 incidents in 3 records, and one for Yarra, with 150 in 2. *)
Lemma lga_summary_drops_absent_group_columns_witness :
  get_lga_summary two_year_table (Some ["suburb"; "lga_name"; "postcode"])
  = Ok {| summary_columns :=
            ["lga_name"; "incidents_recorded_sum"; "incidents_recorded_mean";
             "incidents_recorded_count"];
          summary_rows :=
            [ [Key (Str "Ararat"); Int 107; Float (agg_mean 107 3); Int 3];
              [Key (Str "Yarra"); Int 150; Float (agg_mean 150 2); Int 2] ] |}.
Proof.
  destruct (lga_summary_drops_absent_group_columns two_year_table
              ["suburb"; "lga_name"; "postcode"]) as (_ & _ & Hok & _).
  destruct Hok as [Hagg _]; [by_evaluation..|].
  rewrite Hagg; [|by_evaluation..]. vm_compute. reflexivity.
Defined.

(** * The loaders *)

Lemma after_load_cache {A} evs (r : result A) name (f : A → DataFrame) st :
  loaded_data (after_load evs r (λ a, cached name (f a)) st)
  = match r with
    | Ok a => <[name := f a]> (loaded_data st)
    | Raise _ => loaded_data st
    end.
Proof. by destruct r. Qed.

Lemma after_load_effects {A} evs (r : result A) name (f : A → DataFrame) st :
  effects (after_load evs r (λ a, cached name (f a)) st) = (effects st ++ evs)%list.
Proof. by destruct r. Qed.

Section LoaderProperties.
Variable text_to_number : string → option Z.
Local Abbreviation standardize := (_standardize_columns text_to_number).
Local Abbreviation load_2012 := (load_criminal_incidents_2012_2021 text_to_number).
Local Abbreviation load_2010 := (load_criminal_incidents_2010_2019 text_to_number).
Local Abbreviation read_2012 := (read_table_2012_2021 text_to_number).
Local Abbreviation read_2010 := (read_table_2010_2019 text_to_number).
Local Abbreviation obtain := (obtain_tables text_to_number).
Local Abbreviation merge := (merge_time_series text_to_number).

Lemma read_2012_without_file w sheet_name :
  files w !! data_file "criminal_incidents_2012_2021" = None →
  read_2012 w sheet_name = Raise (NotFound (data_file "criminal_incidents_2012_2021")).
Proof. intros Hf. unfold read_table_2012_2021. by rewrite Hf. Qed.

Lemma read_2010_without_file w sheet_name :
  files w !! data_file "criminal_incidents_2010_2019" = None →
  read_2010 w sheet_name
  = Raise (NotFound_2010_2019 (data_file "criminal_incidents_2010_2019")).
Proof. intros Hf. unfold read_table_2010_2019. by rewrite Hf. Qed.

(** X1. Without its file a loader raises [FileNotFoundError] after the
    test of existence alone, and leaves the cache as it was; with the
    file there, whatever a loader raises is no [FileNotFoundError]. *)
Theorem load_without_file w st :
  let p12 := data_file "criminal_incidents_2012_2021" in
  let p10 := data_file "criminal_incidents_2010_2019" in
  (∀ sheet_name, files w !! p12 = None →
     load_2012 w sheet_name st = (Raise (NotFound p12), logged [FsExists p12] st))
  ∧ (∀ sheet_name e, (load_2012 w sheet_name st).1 = Raise e → is_fnf e = true →
                     files w !! p12 = None)
  ∧ (∀ sheet_name, files w !! p10 = None →
       load_2010 w sheet_name st = (Raise (NotFound_2010_2019 p10), logged [FsExists p10] st))
  ∧ (∀ sheet_name e, (load_2010 w sheet_name st).1 = Raise e → is_fnf e = true →
                     files w !! p10 = None).
Proof.
  intros p12 p10. split; [|split; [|split]].
  - intros s Hf. rewrite load_2012_run, read_2012_without_file by done.
    unfold after_load, load_events_2012_2021. fold p12. by rewrite Hf.
  - intros s e. rewrite load_2012_run. cbn [fst]. intros He Hfnf.
    apply (read_2012_fnf text_to_number w s). eauto.
  - intros s Hf. rewrite load_2010_run, read_2010_without_file by done.
    unfold after_load, load_events_2010_2019. fold p10. by rewrite Hf.
  - intros s e. rewrite load_2010_run. cbn [fst]. intros He Hfnf.
    apply (read_2010_fnf text_to_number w s). eauto.
Qed.

(** What a merge finds once the September table is cached: that table,
    when the March table is absent. *)
Lemma merge_with_cached_2012 w b st df :
  loaded_data st !! "criminal_incidents_2012_2021" = Some df →
  absent "criminal_incidents_2010_2019" w st →
  (merge w b st).1 = Ok df.
Proof.
  intros Hc Ha. rewrite merge_time_series_fst, obtain_tables_fst, Hc.
  apply (fetch_absent_2010 text_to_number) in Ha. by rewrite Ha.
Qed.

Lemma merge_with_cached_2010 w b st df :
  loaded_data st !! "criminal_incidents_2010_2019" = Some df →
  absent "criminal_incidents_2012_2021" w st →
  (merge w b st).1 = Ok df.
Proof.
  intros Hc Ha. rewrite merge_time_series_fst, obtain_tables_fst, Hc.
  apply (fetch_absent_2012 text_to_number) in Ha. by rewrite Ha.
Qed.

(** X2. [load_criminal_incidents_2012_2021] does not look at the cache:
    its outcome is the same from every state. It writes no file. When
    it raises, the cache is unchanged; when it returns a table, the
    cache holds that table under its name, the file was tested for and
    read once, and a later merge that finds no March table returns that
    table, whatever the files are by then. *)
Theorem load_updates_cache w sheet_name st :
  let k12 := "criminal_incidents_2012_2021" in
  let k10 := "criminal_incidents_2010_2019" in
  let out := load_2012 w sheet_name st in
  (∀ st', (load_2012 w sheet_name st').1 = out.1)
  ∧ reads_only st out.2
  ∧ (∀ e, out.1 = Raise e → loaded_data out.2 = loaded_data st)
  ∧ (∀ df, out.1 = Ok df →
       loaded_data out.2 = <[k12 := df]> (loaded_data st)
       ∧ effects out.2 = (effects st ++ [FsExists (data_file k12); FsRead (data_file k12)])%list
       ∧ ∀ w' b, loaded_data st !! k10 = None → files w' !! data_file k10 = None →
                 (merge w' b out.2).1 = Ok df).
Proof.
  intros k12 k10 out. subst out. rewrite load_2012_run. cbn [fst snd].
  split; [|split; [|split]].
  - intros st'. by rewrite load_2012_run.
  - apply reads_only_after_load; [apply load_events_2012_2021_reads|done].
  - intros e He. by rewrite He.
  - intros df Hdf. rewrite Hdf. cbn [after_load]. split; [done|]. split.
    + cbn. f_equal. unfold load_events_2012_2021.
      destruct (files w !! _) eqn:Hf; [done|].
      by rewrite read_2012_without_file in Hdf.
    + intros w' b Hc Hf. apply merge_with_cached_2012.
      * cbn. by rewrite lookup_insert_eq.
      * split; [|done]. cbn. by rewrite lookup_insert_ne.
Qed.
End LoaderProperties.

(** * The table a loader makes of a sheet *)

Lemma setitem_scalar_cells df c v :
  aligned df →
  Forall2 (λ r0 r, label r = label r0
             ∧ cell_at (setitem_scalar df c v) c r = v
             ∧ ∀ c', c' ≠ c → cell_at (setitem_scalar df c v) c' r = cell_at df c' r0)
          (rows df) (rows (setitem_scalar df c v)).
Proof.
  intros Hal. rewrite setitem_scalar_rows. apply Forall2_fmap_r, Forall_Forall2_diag.
  eapply Forall_impl; [exact Hal|]. intros r Hr. cbn beta in Hr.
  unfold cell_at. rewrite setitem_scalar_columns. split; [done|]. split.
  - by apply lookup_cell_assign_eq.
  - intros c' Hc'. by apply lookup_cell_assign_ne.
Qed.

Lemma stamp_cells source month std :
  aligned std →
  Forall2 (λ r0 r, label r = label r0
             ∧ cell_at (stamp source month std) "data_source" r = Str source
             ∧ cell_at (stamp source month std) "year_ending_month" r = Str month
             ∧ ∀ c, c ≠ "data_source" → c ≠ "year_ending_month" →
                    cell_at (stamp source month std) c r = cell_at std c r0)
          (rows std) (rows (stamp source month std)).
Proof.
  intros Hal. unfold stamp.
  pose proof (setitem_scalar_cells std "data_source" (Str source) Hal) as H1.
  pose proof (setitem_scalar_cells _ "year_ending_month" (Str month)
                (setitem_scalar_aligned std "data_source" (Str source) Hal)) as H2.
  revert H1 H2.
  generalize (setitem_scalar std "data_source" (Str source)). intros df1.
  generalize (setitem_scalar df1 "year_ending_month" (Str month)). intros df2 H1 H2.
  revert H2. generalize (rows df2). revert H1. generalize (rows df1).
  induction (rows std) as [|r0 l IH]; intros l1 H1 l2 H2.
  - inversion H1; subst. inversion H2; subst. constructor.
  - inversion H1 as [|? r1 ? l1' (Hl1 & Hd1 & Hk1) H1']; subst.
    inversion H2 as [|? r2 ? l2' (Hl2 & Hd2 & Hk2) H2']; subst.
    constructor; [|by eapply IH].
    split; [congruence|]. split; [by rewrite Hk2, Hd1|]. split; [done|].
    intros c Hc1 Hc2. by rewrite Hk2, Hk1.
Qed.

Lemma stamp_columns source month std :
  columns (stamp source month std)
  = union_columns (columns std) ["data_source"; "year_ending_month"].
Proof.
  unfold stamp. rewrite !setitem_scalar_columns. unfold union_columns.
  rewrite !filter_cons, filter_nil.
  destruct (decide ("data_source" ∈ columns std)) as [Hd|Hd].
  - rewrite (decide_False (P := "data_source" ∉ columns std)) by naive_solver.
    destruct (decide ("year_ending_month" ∈ columns std)) as [Hm|Hm].
    + rewrite (decide_False (P := "year_ending_month" ∉ columns std)) by naive_solver.
      by rewrite app_nil_r.
    + by rewrite (decide_True (P := "year_ending_month" ∉ columns std)).
  - rewrite (decide_True (P := "data_source" ∉ columns std)) by done.
    destruct (decide ("year_ending_month" ∈ columns std)) as [Hm|Hm].
    + rewrite (decide_False (P := "year_ending_month" ∉ columns std)) by naive_solver.
      rewrite decide_True; [done|]. apply elem_of_app. by left.
    + rewrite (decide_True (P := "year_ending_month" ∉ columns std)) by done.
      rewrite decide_False; [by rewrite <- app_assoc|].
      intros [?|[=]%list_elem_of_singleton]%elem_of_app. done.
Qed.

Lemma made_from_labels text_to_number source_type source month raw df :
  made_from text_to_number source_type source month raw df →
  label <$> rows df = label <$> rows raw.
Proof.
  intros [_ Hrows]. revert Hrows. generalize (rows df).
  induction (rows raw) as [|r0 l IH]; intros l' H; inversion H; subst.
  - done.
  - cbn. f_equal; [naive_solver|by apply IH].
Qed.

Section LoadedContent.
Variable text_to_number : string → option Z.
Local Abbreviation standardize := (_standardize_columns text_to_number).
Local Abbreviation load_2012 := (load_criminal_incidents_2012_2021 text_to_number).
Local Abbreviation load_2010 := (load_criminal_incidents_2010_2019 text_to_number).
Local Abbreviation read_2012 := (read_table_2012_2021 text_to_number).
Local Abbreviation read_2010 := (read_table_2010_2019 text_to_number).

Lemma standardize_cells raw std source_type :
  aligned raw → standardize raw source_type = Ok std →
  Forall2 (λ r0 r,
       label r = label r0
       ∧ cell_at std "year" r
         = coerce text_to_number (lookup_cell "year" (columns std) (cells r0))
       ∧ ∀ c, c ≠ "year" → cell_at std c r = lookup_cell c (columns std) (cells r0))
     (rows raw) (rows std).
Proof.
  intros Hal Hstd.
  destruct (standardize_inv text_to_number _ _ _ Hstd) as (Hcols & Hocc & Hrows).
  rewrite Hrows. case_decide as Hin.
  - apply Forall2_fmap_r, Forall_Forall2_diag, Forall_forall. intros r Hr.
    split; [done|]. unfold cell_at. split.
    + apply year_after_assign.
    + intros c Hc. unfold assign. rewrite decide_True by done. cbn [cells].
      by apply lookup_cell_set_ne.
  - apply Forall_Forall2_diag, Forall_forall. intros r Hr. split; [done|].
    unfold cell_at. split; [|done].
    by rewrite lookup_cell_absent.
Qed.

Lemma made_from_stamp raw std source_type source month :
  aligned raw → standardize raw source_type = Ok std →
  made_from text_to_number source_type source month raw (stamp source month std).
Proof.
  intros Hal Hstd.
  destruct (standardize_loaded text_to_number _ _ _ Hal Hstd) as (Hal' & _ & _).
  destruct (standardize_inv text_to_number _ _ _ Hstd) as (Hcols & _ & _).
  split; [by rewrite stamp_columns, Hcols|]. cbn zeta. rewrite <- Hcols.
  pose proof (standardize_cells _ _ _ Hal Hstd) as H1.
  pose proof (stamp_cells source month std Hal') as H2.
  revert H1 H2. generalize (stamp source month std). intros df.
  generalize (rows df). generalize (rows std).
  induction (rows raw) as [|r0 l IH]; intros l1 l2 H1 H2.
  - inversion H1; subst. inversion H2; subst. constructor.
  - inversion H1 as [|? r1 ? l1' (Hl1 & Hy1 & Hk1) H1']; subst.
    inversion H2 as [|? r2 ? l2' (Hl2 & Hd2 & Hm2 & Hk2) H2']; subst.
    constructor; [|by eapply IH].
    split; [congruence|]. split; [done|]. split; [done|]. split.
    + by rewrite Hk2.
    + intros c Hc. rewrite Hk2, Hk1; [done|..]; set_solver.
Qed.

(** X3. The table [load_criminal_incidents_2012_2021] returns for a sheet
    has the labels of the sheet under their canonical names, followed by
    [data_source] and [year_ending_month] where the sheet has no such
    column; it has one row per record of the sheet, labelled 0, 1, 2,
    ... in the order of the sheet; every row carries the two stamps, its
    year is the coercion of the year read, which is no text, and every
    other cell is the cell read. *)
Theorem load_2012_2021_keeps_the_sheet w sheet_name st wb sh df :
  files w !! data_file "criminal_incidents_2012_2021" = Some wb →
  find_sheet wb sheet_name = Some sh →
  (load_2012 w sheet_name st).1 = Ok df →
  made_from text_to_number "2012_2021" "CSA_2012_2021" "September" (frame_of_sheet sh) df
  ∧ label <$> rows df = Z.of_nat <$> seq 0 (length (body sh))
  ∧ numeric_column "year" df.
Proof.
  intros Hf Hsh. rewrite load_2012_run. cbn [fst]. intros Hdf.
  pose proof (read_table_2012_2021_loaded text_to_number _ _ _ Hdf) as Hl.
  unfold read_table_2012_2021 in Hdf. rewrite Hf in Hdf. unfold read_excel in Hdf.
  rewrite Hsh in Hdf. cbn in Hdf.
  destruct (standardize _ _) as [std|] eqn:Hstd; [|done]. cbn in Hdf. injection Hdf as <-.
  pose proof (made_from_stamp _ _ _ "CSA_2012_2021" "September"
                (aligned_frame_of_sheet sh) Hstd) as Hm.
  split; [done|]. split; [|apply Hl].
  rewrite (made_from_labels _ _ _ _ _ _ Hm).
  unfold frame_of_sheet. cbn [rows].
  rewrite fmap_imap. apply (imap_labels Z.of_nat).
Qed.

(** X6. The same for [load_criminal_incidents_2010_2019] and the sheet
    it reads, with the stamps of the March vintage. *)
Theorem load_2010_2019_keeps_the_sheet w sheet_name st wb s sh df :
  files w !! data_file "criminal_incidents_2010_2019" = Some wb →
  chosen_sheet wb sheet_name = Ok s →
  find_sheet wb s = Some sh →
  (load_2010 w sheet_name st).1 = Ok df →
  made_from text_to_number "2010_2019" "CSA_2010_2019" "March" (frame_of_sheet sh) df
  ∧ label <$> rows df = Z.of_nat <$> seq 0 (length (body sh))
  ∧ numeric_column "year" df.
Proof.
  intros Hf Hs Hsh. rewrite load_2010_run. cbn [fst]. intros Hdf.
  pose proof (read_table_2010_2019_loaded text_to_number _ _ _ Hdf) as Hl.
  unfold read_table_2010_2019 in Hdf. rewrite Hf, Hs in Hdf. cbn in Hdf.
  unfold read_excel in Hdf. rewrite Hsh in Hdf. cbn in Hdf.
  destruct (standardize _ _) as [std|] eqn:Hstd; [|done]. cbn in Hdf. injection Hdf as <-.
  pose proof (made_from_stamp _ _ _ "CSA_2010_2019" "March"
                (aligned_frame_of_sheet sh) Hstd) as Hm.
  split; [done|]. split; [|apply Hl].
  rewrite (made_from_labels _ _ _ _ _ _ Hm).
  unfold frame_of_sheet. cbn [rows].
  rewrite fmap_imap. apply (imap_labels Z.of_nat).
Qed.

Lemma chosen_sheet_first_data wb pre s post :
  sheet_names wb = (pre ++ s :: post)%list → Forall skipped_sheet pre → ¬ skipped_sheet s →
  chosen_sheet wb None = Ok s.
Proof.
  intros Hn Hpre Hs. unfold chosen_sheet. rewrite Hn, filter_app, filter_cons.
  rewrite decide_True by done.
  assert (filter (λ s0, lower s0 ∉ ["contents"; "notes"; "metadata"]) pre = []) as ->; [|done].
  clear Hn. induction Hpre as [|x l Hx _ IH]; [done|].
  rewrite filter_cons, decide_False; [done|]. intros Hx'. by apply Hx'.
Qed.

Lemma chosen_sheet_no_data wb s rest :
  sheet_names wb = s :: rest → Forall skipped_sheet (s :: rest) →
  chosen_sheet wb None = Ok s.
Proof.
  intros Hn Hall. unfold chosen_sheet. rewrite Hn.
  assert (filter (λ s0, lower s0 ∉ ["contents"; "notes"; "metadata"]) (s :: rest) = [])
    as ->; [|done].
  clear Hn. induction Hall as [|x l Hx _ IH]; [done|].
  rewrite filter_cons, decide_False; [done|]. intros Hx'. by apply Hx'.
Qed.

Lemma load_2010_chosen w st wb s :
  files w !! data_file "criminal_incidents_2010_2019" = Some wb →
  chosen_sheet wb None = Ok s →
  load_2010 w None st = load_2010 w (Some s) st.
Proof.
  intros Hf Hs. rewrite !load_2010_run.
  assert (read_2010 w None = read_2010 w (Some s)) as ->.
  { unfold read_table_2010_2019. by rewrite Hf, Hs. }
  unfold load_events_2010_2019. by rewrite Hf, Hs.
Qed.

(** X4. Without a sheet name, [load_criminal_incidents_2010_2019] reads
    the first sheet whose name, in lower case, is none of contents,
    notes and metadata; when every sheet has such a name it reads the
    first sheet. *)
Theorem load_2010_2019_default_sheet w st wb :
  files w !! data_file "criminal_incidents_2010_2019" = Some wb →
  (∀ pre s post,
     sheet_names wb = (pre ++ s :: post)%list → Forall skipped_sheet pre →
     ¬ skipped_sheet s →
     load_2010 w None st = load_2010 w (Some s) st)
  ∧ (∀ s rest,
       sheet_names wb = s :: rest → Forall skipped_sheet (s :: rest) →
       load_2010 w None st = load_2010 w (Some s) st).
Proof.
  intros Hf. split.
  - intros pre s post Hn Hpre Hs. eauto using load_2010_chosen, chosen_sheet_first_data.
  - intros s rest Hn Hall. eauto using load_2010_chosen, chosen_sheet_no_data.
Qed.

(** X5. [load_criminal_incidents_2010_2019] does not look at the cache
    and writes no file. When it raises, the cache is unchanged; when it
    returns a table, the cache holds that table under its name, the file
    was tested for and read twice (for the sheet names, then for the
    sheet), and a later merge that finds no September table returns that
    table. *)
Theorem load_2010_2019_updates_cache w sheet_name st :
  let k12 := "criminal_incidents_2012_2021" in
  let k10 := "criminal_incidents_2010_2019" in
  let out := load_2010 w sheet_name st in
  (∀ st', (load_2010 w sheet_name st').1 = out.1)
  ∧ reads_only st out.2
  ∧ (∀ e, out.1 = Raise e → loaded_data out.2 = loaded_data st)
  ∧ (∀ df, out.1 = Ok df →
       loaded_data out.2 = <[k10 := df]> (loaded_data st)
       ∧ effects out.2
         = (effects st ++ [FsExists (data_file k10); FsRead (data_file k10);
                           FsRead (data_file k10)])%list
       ∧ ∀ w' b, loaded_data st !! k12 = None → files w' !! data_file k12 = None →
                 (merge_time_series text_to_number w' b out.2).1 = Ok df).
Proof.
  intros k12 k10 out. subst out. rewrite load_2010_run. cbn [fst snd].
  split; [|split; [|split]].
  - intros st'. by rewrite load_2010_run.
  - apply reads_only_after_load; [apply load_events_2010_2019_reads|done].
  - intros e He. by rewrite He.
  - intros df Hdf. rewrite Hdf. cbn [after_load]. split; [done|]. split.
    + cbn. f_equal. unfold load_events_2010_2019.
      unfold read_table_2010_2019 in Hdf.
      destruct (files w !! _) as [wb|] eqn:Hf; [|done].
      by destruct (chosen_sheet wb sheet_name).
    + intros w' b Hc Hf. apply merge_with_cached_2010.
      * cbn. by rewrite lookup_insert_eq.
      * split; [|done]. cbn. by rewrite lookup_insert_ne.
Qed.
End LoadedContent.

(** * What a session keeps *)

Lemma export_write_reads_only st st' :
  reads_only st st' → Forall export_write (effects st) → Forall export_write (effects st').
Proof.
  intros (evs & -> & Hevs) Hst. apply Forall_app. split; [done|].
  eapply Forall_impl; [exact Hevs|]. by intros [] Hev.
Qed.

Section SessionProperties.
Variable text_to_number : string → option Z.
Local Abbreviation read_2012 := (read_table_2012_2021 text_to_number).
Local Abbreviation read_2010 := (read_table_2010_2019 text_to_number).
Local Abbreviation obtain := (obtain_tables text_to_number).
Local Abbreviation merge := (merge_time_series text_to_number).
Local Abbreviation export := (export_merged_data text_to_number).
Local Abbreviation reachable := (reachable text_to_number).

Local Abbreviation cache_from_loaders := (cache_from_loaders text_to_number).

Lemma cache_from_loaders_after_load_2012 evs w sheet_name st :
  cache_from_loaders st →
  cache_from_loaders (after_load evs (read_2012 w sheet_name)
                        (cached "criminal_incidents_2012_2021") st).
Proof.
  intros (Hdom & H12 & H10). unfold cache_from_loaders.
  rewrite (after_load_cache evs _ _ id).
  destruct (read_2012 w sheet_name) as [df|e] eqn:Hr; [|done]. cbn [id].
  split; [|split].
  - rewrite dom_insert. set_solver.
  - intros df'. rewrite lookup_insert_eq. intros [= <-]. eauto.
  - intros df'. rewrite lookup_insert_ne by done. apply H10.
Qed.

Lemma cache_from_loaders_after_load_2010 evs w sheet_name st :
  cache_from_loaders st →
  cache_from_loaders (after_load evs (read_2010 w sheet_name)
                        (cached "criminal_incidents_2010_2019") st).
Proof.
  intros (Hdom & H12 & H10). unfold cache_from_loaders.
  rewrite (after_load_cache evs _ _ id).
  destruct (read_2010 w sheet_name) as [df|e] eqn:Hr; [|done]. cbn [id].
  split; [|split].
  - rewrite dom_insert. set_solver.
  - intros df'. rewrite lookup_insert_ne by done. apply H12.
  - intros df'. rewrite lookup_insert_eq. intros [= <-]. eauto.
Qed.

Lemma cache_from_loaders_obtain w st :
  cache_from_loaders st → cache_from_loaders (obtain w st).2.
Proof.
  intros Hst. rewrite obtain_tables_run.
  set (st1 := after_fetch _ _ _ _ st).
  set (st2 := after_fetch _ _ _ _ st1).
  assert (cache_from_loaders st1) as H1.
  { subst st1. destruct (loaded_data st !! "criminal_incidents_2012_2021");
      cbn [after_fetch]; [done|]. by apply cache_from_loaders_after_load_2012. }
  assert (cache_from_loaders st2) as H2.
  { subst st2. destruct (loaded_data st !! "criminal_incidents_2010_2019");
      cbn [after_fetch]; [done|]. by apply cache_from_loaders_after_load_2010. }
  destruct (fetch _ _); [|done]. by destruct (fetch _ _).
Qed.

Lemma run_state c w st :
  cache_from_loaders st → Forall export_write (effects st) →
  cache_from_loaders (run text_to_number c w st)
  ∧ Forall export_write (effects (run text_to_number c w st)).
Proof.
  intros Hc Hw. destruct c as [s|s|b|f n]; cbn [run].
  - rewrite load_2012_run. cbn [snd]. split.
    + by apply cache_from_loaders_after_load_2012.
    + eapply export_write_reads_only; [|done].
      by apply reads_only_after_load; [apply load_events_2012_2021_reads|].
  - rewrite load_2010_run. cbn [snd]. split.
    + by apply cache_from_loaders_after_load_2010.
    + eapply export_write_reads_only; [|done].
      by apply reads_only_after_load; [apply load_events_2010_2019_reads|].
  - rewrite merge_time_series_state. split.
    + by apply cache_from_loaders_obtain.
    + eapply export_write_reads_only; [apply obtain_tables_reads_only|done].
  - rewrite export_merged_data_run.
    pose proof (merge_time_series_state text_to_number w true st) as Hm.
    pose proof (cache_from_loaders_obtain w st Hc) as Hc'.
    pose proof (export_write_reads_only _ _ (obtain_tables_reads_only text_to_number w st) Hw)
      as Hw'.
    destruct (merge w true st) as [[merged|e] st']; cbn in Hm; subst st'; [|done].
    case_decide as Hfmt; cbn [snd]; [|done]. split; [done|].
    cbn. apply Forall_app. split; [done|]. by constructor.
Qed.

Lemma reachable_state st :
  reachable st → cache_from_loaders st ∧ Forall export_write (effects st).
Proof.
  induction 1 as [|st w c _ [Hc Hw]]; [|by apply run_state].
  split; [|constructor]. split; [|split]; cbn.
  - rewrite dom_empty. set_solver.
  - intros df. by rewrite lookup_empty.
  - intros df. by rewrite lookup_empty.
Qed.

(** X7. In every state a processor reaches through its calls, the cache
    holds nothing but the two tables of the loaders, and each cached
    table is a table its loader returned for some files: its year
    column is numeric and it carries the stamp of its vintage. *)
Theorem reachable_cache_invariant st :
  reachable st →
  dom (loaded_data st)
    ⊆ ({["criminal_incidents_2012_2021"; "criminal_incidents_2010_2019"]} : gset string)
  ∧ (∀ df, loaded_data st !! "criminal_incidents_2012_2021" = Some df →
           (∃ w sheet_name, read_2012 w sheet_name = Ok df)
           ∧ loaded "CSA_2012_2021" df)
  ∧ (∀ df, loaded_data st !! "criminal_incidents_2010_2019" = Some df →
           (∃ w sheet_name, read_2010 w sheet_name = Ok df)
           ∧ loaded "CSA_2010_2019" df).
Proof.
  intros Hst. destruct (reachable_state st Hst) as [(Hdom & H12 & H10) _].
  destruct (reachable_cache_ok text_to_number st Hst) as [L12 L10].
  split; [done|]. split; intros df Hdf; split; auto.
Qed.

(** X8. Loads and merges write no file: after such a call the log is
    the log before, followed by accesses none of which is a write. So in
    every state a processor reaches through its calls, every file
    written so far was written by an export, in a supported format. *)
Theorem reachable_writes_are_exports st :
  reachable st →
  (∀ file_path output_format df,
     FsWrite file_path output_format df ∈ effects st → supported output_format)
  ∧ (∀ w c, is_export c = false → reads_only st (run text_to_number c w st)).
Proof.
  intros Hst. split.
  - intros p f df Hin. destruct (reachable_state st Hst) as [_ Hw].
    rewrite Forall_forall in Hw. apply (Hw _ Hin).
  - intros w [s|s|b|f n] Hc; [| | |done]; cbn [run].
    + rewrite load_2012_run. cbn [snd].
      by apply reads_only_after_load; [apply load_events_2012_2021_reads|].
    + rewrite load_2010_run. cbn [snd].
      by apply reads_only_after_load; [apply load_events_2010_2019_reads|].
    + rewrite merge_time_series_state. apply obtain_tables_reads_only.
Qed.
End SessionProperties.

(** * More on the merge *)

Lemma fetch_Some_inv c r df :
  fetch c r = Ok (Some df) → c = Some df ∨ (c = None ∧ r = Ok df).
Proof.
  unfold fetch. destruct c as [d|]; [naive_solver|].
  destruct r as [d|[]]; naive_solver.
Qed.

Section MergeProperties.
Variable text_to_number : string → option Z.
Local Abbreviation read_2012 := (read_table_2012_2021 text_to_number).
Local Abbreviation read_2010 := (read_table_2010_2019 text_to_number).
Local Abbreviation obtain := (obtain_tables text_to_number).
Local Abbreviation merge := (merge_time_series text_to_number).
Local Abbreviation reachable := (reachable text_to_number).

Lemma obtain_tables_caches w st df_2012 df_2010 :
  (obtain w st).1 = Ok (Some df_2012, Some df_2010) →
  loaded_data (obtain w st).2 !! "criminal_incidents_2012_2021" = Some df_2012
  ∧ loaded_data (obtain w st).2 !! "criminal_incidents_2010_2019" = Some df_2010.
Proof.
  rewrite obtain_tables_run.
  destruct (fetch _ (read_2012 _ _)) as [o12|] eqn:F12; [|done].
  destruct (fetch _ (read_2010 _ _)) as [o10|] eqn:F10; [|done].
  cbn. intros [= -> ->].
  apply fetch_Some_inv in F12 as [H12|[H12 R12]], F10 as [H10|[H10 R10]];
    rewrite ?H12, ?H10, ?R12, ?R10; cbn;
    rewrite ?lookup_insert_eq, ?lookup_insert_ne by done; cbn;
    rewrite ?lookup_insert_eq, ?lookup_insert_ne by done; done.
Qed.

Lemma merge_from_cache w b st df_2012 df_2010 :
  loaded_data st !! "criminal_incidents_2012_2021" = Some df_2012 →
  loaded_data st !! "criminal_incidents_2010_2019" = Some df_2010 →
  merge w b st = (merge_both b df_2012 df_2010, st).
Proof.
  intros H12 H10. rewrite merge_time_series_run, obtain_tables_run, H12, H10. done.
Qed.

(** X9. A merge that obtains both tables leaves both in the cache; every
    later merge, under either policy and whatever the files are by
    then, works from these two tables and accesses no file. *)
Theorem merge_caches_its_tables w st b df_2012 df_2010 :
  (obtain w st).1 = Ok (Some df_2012, Some df_2010) →
  let st' := (merge w b st).2 in
  loaded_data st' !! "criminal_incidents_2012_2021" = Some df_2012
  ∧ loaded_data st' !! "criminal_incidents_2010_2019" = Some df_2010
  ∧ ∀ w' b', merge w' b' st' = (merge_both b' df_2012 df_2010, st').
Proof.
  intros Hob st'. subst st'. rewrite merge_time_series_state.
  destruct (obtain_tables_caches _ _ _ _ Hob) as [H12 H10].
  split; [done|]. split; [done|]. intros w' b'. by apply merge_from_cache.
Qed.

Lemma merge_both_without_year b a12 a10 :
  (occurrences "year" (columns a12) ≤ 1)%nat →
  "year" ∉ columns a12 ∨ "year" ∉ columns a10 →
  merge_both b a12 a10 = Raise (KeyError "year").
Proof.
  intros Ho12 Hno. unfold merge_both, year_set, getitem.
  destruct (occurrences "year" (columns a12)) as [|[|n]] eqn:E12; [done| |lia].
  destruct Hno as [Hno|Hno].
  - apply occurrences_zero in Hno. congruence.
  - apply occurrences_zero in Hno. rewrite Hno. done.
Qed.

Lemma merge_both_no_years (b : bool) a12 a10 :
  occurrences "year" (columns a12) = 1%nat → occurrences "year" (columns a10) = 1%nat →
  (if b then years_of a12 else years_of a10) = ∅ →
  merge_both b a12 a10
  = Raise (ValueError (if b then "min() arg is an empty sequence"
                       else "max() arg is an empty sequence")).
Proof.
  intros Ho12 Ho10 Hempty. unfold merge_both.
  rewrite !year_set_unique by done. cbn [mbind result_bind].
  destruct b; rewrite Hempty; by rewrite ?py_min_empty, ?py_max_empty.
Qed.

(** X10. When both tables are obtained, the merge raises [KeyError] if
    one of them has no [year] column; [ValueError] from [min] if
    September is preferred and the September table has no year at all;
    [ValueError] from [max] if March is preferred and the March table
    has no year at all. *)
Theorem merge_needs_years w st b df_2012 df_2010 :
  reachable st →
  (obtain w st).1 = Ok (Some df_2012, Some df_2010) →
  ("year" ∉ columns df_2012 ∨ "year" ∉ columns df_2010 →
   (merge w b st).1 = Raise (KeyError "year"))
  ∧ ("year" ∈ columns df_2012 → "year" ∈ columns df_2010 → years_of df_2012 = ∅ →
     (merge w true st).1 = Raise (ValueError "min() arg is an empty sequence"))
  ∧ ("year" ∈ columns df_2012 → "year" ∈ columns df_2010 → years_of df_2010 = ∅ →
     (merge w false st).1 = Raise (ValueError "max() arg is an empty sequence")).
Proof.
  intros Hst Hob.
  destruct (merge_of_both text_to_number w st true _ _ Hst Hob) as (L12 & L10 & Ht).
  destruct (merge_of_both text_to_number w st false _ _ Hst Hob) as (_ & _ & Hf).
  assert (∀ df s, loaded s df → "year" ∈ columns df → occurrences "year" (columns df) = 1%nat)
    as Hone.
  { intros df s L Hin. apply occurrences_pos in Hin. pose proof (loaded_year_unique _ _ L). lia. }
  split; [|split].
  - intros Hno. destruct (merge_of_both text_to_number w st b _ _ Hst Hob) as (_ & _ & ->).
    apply merge_both_without_year; [apply L12|done].
  - intros H12 H10 Hempty. rewrite Ht. apply (merge_both_no_years true); eauto.
  - intros H12 H10 Hempty. rewrite Hf. apply (merge_both_no_years false); eauto.
Qed.

(** X11. The years of a merged table are numbers. With September
    preferred they are the years of the September table and the years
    of the March table below the least September year; with March
    preferred, the years of the March table and the years of the
    September table above the greatest March year. A year of the other
    table on the wrong side of the bound is not in the result. *)
Theorem merge_years w st b df_2012 df_2010 out :
  reachable st →
  (obtain w st).1 = Ok (Some df_2012, Some df_2010) →
  (merge w b st).1 = Ok out →
  ∃ bound,
    is_bound b df_2012 df_2010 bound
    ∧ (∀ x, x ∈ years_of out → ∃ y, x = Num y)
    ∧ ∀ y, Num y ∈ years_of out ↔
        if b then Num y ∈ years_of df_2012 ∨ (Num y ∈ years_of df_2010 ∧ y < bound)
        else Num y ∈ years_of df_2010 ∨ (Num y ∈ years_of df_2012 ∧ bound < y).
Proof.
  intros Hst Hob Hout.
  destruct (merge_of_both text_to_number w st b _ _ Hst Hob) as (L12 & L10 & Hm).
  rewrite Hm in Hout.
  destruct (merge_both_Ok_bound b _ _ _ (loaded_year_numeric _ _ L12)
              (loaded_year_numeric _ _ L10) Hout) as (_ & _ & bound & Hb).
  exists bound. split; [done|].
  assert (∀ bound', is_bound b df_2012 df_2010 bound' → bound' = bound) as Huniq.
  { intros bound' Hb'. destruct b; cbn in Hb, Hb';
      eauto using least_unique, greatest_unique. }
  assert (∀ x, x ∈ years_of out ↔
            x ≠ NaN ∧ ((∃ r0, r0 ∈ kept_2010 b bound df_2010 ∧ cell_at df_2010 "year" r0 = x)
                       ∨ (∃ r0, r0 ∈ kept_2012 b bound df_2012
                                ∧ cell_at df_2012 "year" r0 = x))) as Hyears.
  { intros x. rewrite (merge_both_years b _ _ _ _ L12 L10 Hout). split.
    - intros (Hx & bound' & Hb' & H). apply Huniq in Hb' as ->. done.
    - intros (Hx & H). eauto. }
  split.
  - intros x (Hx & [(r0 & Hr0 & <-)|(r0 & Hr0 & <-)])%Hyears.
    + apply elem_of_kept_2010 in Hr0 as [Hr0 _].
      apply (years_of_numeric df_2010); [apply L10|]. apply elem_of_years_of. eauto.
    + apply elem_of_kept_2012 in Hr0 as [Hr0 _].
      apply (years_of_numeric df_2012); [apply L12|]. apply elem_of_years_of. eauto.
  - intros y. rewrite Hyears. destruct b; rewrite !elem_of_years_of; cbn [kept_2010 kept_2012].
    + split.
      * intros (_ & [(r0 & [Hlt Hr0]%list_elem_of_filter & Hy)|(r0 & Hr0 & Hy)]).
        -- right. rewrite Hy in Hlt. cbn in Hlt. apply bool_decide_eq_true in Hlt.
           split; [|done]. split; [done|]. eauto.
        -- left. split; [done|]. eauto.
      * intros [(_ & r0 & Hr0 & Hy)|[(_ & r0 & Hr0 & Hy) Hlt]]; (split; [done|]).
        -- right. eauto.
        -- left. exists r0. split; [|done]. apply list_elem_of_filter. split; [|done].
           rewrite Hy. cbn. by apply bool_decide_eq_true.
    + split.
      * intros (_ & [(r0 & Hr0 & Hy)|(r0 & [Hgt Hr0]%list_elem_of_filter & Hy)]).
        -- left. split; [done|]. eauto.
        -- right. rewrite Hy in Hgt. cbn in Hgt. apply bool_decide_eq_true in Hgt.
           split; [|done]. split; [done|]. eauto.
      * intros [(_ & r0 & Hr0 & Hy)|[(_ & r0 & Hr0 & Hy) Hgt]]; (split; [done|]).
        -- left. eauto.
        -- right. exists r0. split; [|done]. apply list_elem_of_filter. split; [|done].
           rewrite Hy. cbn. by apply bool_decide_eq_true.
Qed.
End MergeProperties.

(** * More on the standardization *)

Lemma lookup_cell_at_label c cols cs i :
  (occurrences c cols ≤ 1)%nat → length cs = length cols →
  cols !! i = Some c → cs !! i = Some (lookup_cell c cols cs).
Proof.
  revert cs i. induction cols as [|l cols IH]; intros [|x cs] i Hocc Hlen Hi; try done.
  rewrite occurrences_cons in Hocc. cbn in Hlen. cbn [lookup_cell].
  destruct i as [|i]; cbn in Hi |- *.
  - injection Hi as ->. by rewrite decide_True.
  - destruct (decide (l = c)) as [->|Hne].
    + apply list_elem_of_lookup_2, occurrences_pos in Hi. lia.
    + apply IH; [lia..|done].
Qed.

Lemma zip_with_set_same_value (c : string) (v : cell) cols cs :
  length cs = length cols →
  (∀ i, cols !! i = Some c → cs !! i = Some v) →
  zip_with (λ l x, if decide (l = c) then v else x) cols cs = cs.
Proof.
  revert cs. induction cols as [|l cols IH]; intros [|x cs] Hlen Hv; try done.
  cbn. f_equal.
  - destruct (decide (l = c)) as [->|]; [|done]. by specialize (Hv 0%nat eq_refl) as [= ->].
  - apply IH; [by injection Hlen|]. intros i Hi. apply (Hv (S i) Hi).
Qed.

Section StandardizeMore.
Variable text_to_number : string → option Z.
Local Abbreviation standardize := (_standardize_columns text_to_number).

(** X12. On a table whose rows are complete and whose year, once the
    labels are canonical, holds no text, the standardization changes
    the labels only: the rows are returned as they are. *)
Theorem standardize_keeps_numeric_years df source_type :
  aligned df →
  (occurrences "year" (canonical source_type <$> columns df) ≤ 1)%nat →
  numeric_column "year" (renamed source_type df) →
  standardize df source_type = Ok (renamed source_type df).
Proof.
  intros Hal Hocc Hnum.
  destruct (standardize_ok text_to_number df source_type Hocc) as (df' & -> & Hcols & Hrows).
  f_equal. destruct df' as [cols' rows']. cbn in Hcols, Hrows. subst cols'.
  unfold renamed. f_equal. rewrite Hrows. case_decide as Hin; [|done].
  rewrite <- (list_fmap_id (rows df)) at 2. apply Forall_fmap_ext.
  unfold aligned, numeric_column in Hal, Hnum. cbn [rows renamed] in Hnum.
  rewrite Forall_forall in Hal, Hnum. apply Forall_forall. intros r Hr.
  specialize (Hal r Hr). specialize (Hnum r Hr). cbn beta in Hal, Hnum.
  rewrite (coerce_id text_to_number) by done.
  destruct r as [lab cs]. unfold assign, cell_at. cbn [cells label columns renamed] in *.
  rewrite decide_True by done. unfold id. f_equal.
  apply zip_with_set_same_value; [by rewrite length_fmap|].
  intros i Hi. apply lookup_cell_at_label; [done|by rewrite length_fmap|done].
Qed.

(** X13. A vintage identifier that has no mapping is no error: no label
    is changed, the year is coerced and the other cells are kept. *)
Theorem standardize_unknown_vintage df source_type :
  COLUMN_MAPPINGS !! source_type = None →
  (occurrences "year" (columns df) ≤ 1)%nat →
  ∃ df', standardize df source_type = Ok df'
    ∧ columns df' = columns df
    ∧ Forall2 (λ r r', label r' = label r
                 ∧ cell_at df' "year" r' = coerce text_to_number (cell_at df "year" r)
                 ∧ ∀ c, c ≠ "year" → cell_at df' c r' = cell_at df c r)
              (rows df) (rows df').
Proof.
  intros Hnone Hocc.
  assert (canonical source_type <$> columns df = columns df) as Hcan.
  { rewrite <- (list_fmap_id (columns df)) at 2. apply list_fmap_ext. intros i c _.
    unfold canonical. rewrite Hnone. cbn. by rewrite lookup_empty. }
  destruct (standardize_ok text_to_number df source_type) as (df' & Hok & Hcols & Hrows);
    [by rewrite Hcan|].
  rewrite Hcan in Hcols, Hrows. exists df'. split; [done|]. split; [done|].
  rewrite Hrows. unfold cell_at. rewrite Hcols. cbn [renamed columns]. rewrite Hcan.
  case_decide as Hin.
  - apply Forall2_fmap_r, Forall_Forall2_diag, Forall_forall. intros r _.
    split; [done|]. split.
    + apply year_after_assign.
    + intros c Hc. unfold assign. rewrite decide_True by done. cbn [cells].
      by apply lookup_cell_set_ne.
  - apply Forall_Forall2_diag, Forall_forall. intros r _. split; [done|]. split; [|done].
    by rewrite lookup_cell_absent.
Qed.
End StandardizeMore.

(** * Totals of a summary *)

Lemma sum_list_Z_add {A} (f g : A → Z) l :
  sum_list_Z ((λ x, f x + g x) <$> l) = sum_list_Z (f <$> l) + sum_list_Z (g <$> l).
Proof.
  induction l as [|x l IH]; [done|]. rewrite !fmap_cons, !sum_list_Z_cons, IH. lia.
Qed.

Lemma sum_list_Z_indicator {K} `{EqDecision K} (k0 : K) (v : Z) (ks : list K) :
  NoDup ks →
  sum_list_Z ((λ k, if decide (k0 = k) then v else 0) <$> ks)
  = if decide (k0 ∈ ks) then v else 0.
Proof.
  induction 1 as [|k ks Hk _ IH]; [done|]. rewrite fmap_cons, sum_list_Z_cons, IH.
  destruct (decide (k0 = k)) as [->|Hne].
  - rewrite decide_False by done. rewrite decide_True by constructor. lia.
  - destruct (decide (k0 ∈ ks)).
    + rewrite decide_True by (by constructor). lia.
    + rewrite decide_False; [lia|]. by intros [?|?]%elem_of_cons.
Qed.

(** Adding up group by group is adding up over the rows that fall in a
    group. *)
Lemma sum_by_key {A K} `{EqDecision K} (key : A → K) (w : A → Z) (ks : list K) (l : list A) :
  NoDup ks →
  sum_list_Z ((λ k, sum_list_Z (w <$> filter (λ x, key x = k) l)) <$> ks)
  = sum_list_Z (w <$> filter (λ x, key x ∈ ks) l).
Proof.
  intros Hks. induction l as [|x l IH].
  - rewrite filter_nil. clear Hks. induction ks as [|k ks IHk]; [done|].
    rewrite fmap_cons, sum_list_Z_cons, IHk. done.
  - rewrite (list_fmap_ext _
               (λ k, (if decide (key x = k) then w x else 0)
                     + sum_list_Z (w <$> filter (λ x0, key x0 = k) l)) ks).
    2:{ intros i k _. rewrite filter_cons. destruct (decide (key x = k)); [|lia].
        by rewrite fmap_cons, sum_list_Z_cons. }
    rewrite sum_list_Z_add, IH, sum_list_Z_indicator by done.
    rewrite filter_cons. destruct (decide (key x ∈ ks)); [|lia].
    by rewrite fmap_cons, sum_list_Z_cons.
Qed.

Lemma filter_ext_elem {A} (P Q : A → Prop) `{!∀ x, Decision (P x)} `{!∀ x, Decision (Q x)}
  (l : list A) :
  (∀ x, x ∈ l → P x ↔ Q x) → filter P l = filter Q l.
Proof.
  induction l as [|x l IH]; intros Hext; [done|]. rewrite !filter_cons.
  rewrite IH by (intros y Hy; apply Hext; by constructor).
  pose proof (Hext x ltac:(constructor)) as Hx.
  destruct (decide (P x)) as [HP|HP], (decide (Q x)) as [HQ|HQ]; naive_solver.
Qed.

Lemma agg_count_sum_list vals :
  agg_count vals = sum_list_Z ((λ c, if decide (c = NaN) then 0 else 1) <$> vals).
Proof.
  unfold agg_count, dropna. induction vals as [|c vals IH]; [done|].
  rewrite filter_cons, fmap_cons, sum_list_Z_cons, <- IH.
  destruct (decide (c = NaN)) as [->|Hc].
  - by rewrite decide_False by naive_solver.
  - rewrite decide_True by done. cbn [length]. lia.
Qed.

Lemma length_sum_list {A} (l : list A) : Z.of_nat (length l) = sum_list_Z ((λ _, 1) <$> l).
Proof.
  induction l as [|x l IH]; [done|]. rewrite fmap_cons, sum_list_Z_cons, <- IH.
  cbn [length]. lia.
Qed.

Lemma int_at_app_length ks z rest (n : nat) :
  length ks = n → int_at n ((Key <$> ks) ++ Int z :: rest) = z.
Proof.
  intros <-. unfold int_at.
  rewrite lookup_app_r by (by rewrite length_fmap).
  by rewrite length_fmap, Nat.sub_diag.
Qed.

Lemma group_key_length df by_ k : k ∈ group_keys df by_ → length k = length by_.
Proof. intros (_ & r & _ & ->)%elem_of_group_keys. apply length_sort_key. Qed.

(** Summing a weight over the groups is summing it over the rows with a
    complete key. *)
Lemma sum_over_groups df by_ (w : row → Z) :
  sum_list_Z ((λ k, sum_list_Z (w <$> group_rows df by_ k)) <$> group_keys df by_)
  = sum_list_Z (w <$> filter (complete_key df by_) (rows df)).
Proof.
  unfold group_rows.
  etrans; [apply (sum_by_key (sort_key (columns df) by_) w); apply NoDup_group_keys|].
  f_equal. f_equal. apply filter_ext_elem. intros r Hr.
  rewrite elem_of_group_keys. unfold complete_key. naive_solver.
Qed.

(** The rows of a summary start with the keys of the groups, which are
    pairwise distinct. *)
Lemma NoDup_summary_keys df by_ (f : list cell → list value) :
  (∀ k, ∃ rest, f k = ((Key <$> k) ++ rest)%list) →
  NoDup (take (length by_) <$> (f <$> group_keys df by_)).
Proof.
  intros Hf. rewrite <- list_fmap_compose.
  rewrite (list_fmap_ext _ (fmap Key) (group_keys df by_)).
  - assert (Inj (=) (=) Key) as HK by (by intros ?? [=]).
    apply (NoDup_fmap_2 (fmap Key)), NoDup_group_keys.
  - intros i k Hk%list_elem_of_lookup_2. cbn. destruct (Hf k) as [rest ->].
    rewrite take_app_length'; [done|].
    by rewrite length_fmap, (group_key_length df by_ k).
Qed.


(** X15. On a table with pairwise distinct labels, for a request that
    names a present column and no present column twice, the summary is
    returned and the group keys of its rows are pairwise distinct. With
    incident counts (no text, within the exact range), the sums of the
    groups add up to the incidents of the rows whose group key is
    complete, and the counts add up to the number of these rows that
    have an incident count; without an [incidents_recorded] column, the
    sizes add up to the number of rows whose group key is complete. *)
Theorem lga_summary_totals df group_cols :
  let present := filter (λ c, c ∈ columns df) group_cols in
  let grouped := filter (complete_key df present) (rows df) in
  let n := length present in
  NoDup (columns df) → NoDup present → present ≠ [] →
  ("incidents_recorded" ∈ columns df →
   numeric_column "incidents_recorded" df → exact_total "incidents_recorded" df →
   ∃ s, get_lga_summary df (Some group_cols) = Ok s
     ∧ NoDup (take n <$> summary_rows s)
     ∧ sum_list_Z (int_at n <$> summary_rows s)
       = sum_numbers (cell_at df "incidents_recorded" <$> grouped)
     ∧ sum_list_Z (int_at (n + 2) <$> summary_rows s)
       = Z.of_nat (length (dropna (cell_at df "incidents_recorded" <$> grouped))))
  ∧ ("incidents_recorded" ∉ columns df → "count" ∉ present →
     ∃ s, get_lga_summary df (Some group_cols) = Ok s
       ∧ NoDup (take n <$> summary_rows s)
       ∧ sum_list_Z (int_at n <$> summary_rows s) = Z.of_nat (length grouped)).
Proof.
  intros present grouped n Hcols Hnd Hne.
  pose proof (present_once df group_cols Hcols) as Honce. fold present in Honce.
  split.
  - intros Hinc Hnum Hexact. eexists. split.
    { apply get_lga_summary_aggregates; try done. by apply occurrences_NoDup. }
    fold present. cbn [summary_rows]. split; [|split].
    + apply NoDup_summary_keys. intros k. by eexists.
    + rewrite <- list_fmap_compose.
      rewrite (list_fmap_ext _
                 (λ k, sum_list_Z (number_of ∘ cell_at df "incidents_recorded"
                                     <$> group_rows df present k))
                 (group_keys df present)).
      2:{ intros i k Hk%list_elem_of_lookup_2. cbn. unfold aggregates_row. cbn zeta.
          rewrite int_at_app_length by (by apply (group_key_length df)).
          by rewrite sum_numbers_sum_list, <- list_fmap_compose. }
      rewrite sum_over_groups. fold grouped.
      by rewrite sum_numbers_sum_list, <- list_fmap_compose.
    + rewrite <- list_fmap_compose.
      rewrite (list_fmap_ext _
                 (λ k, sum_list_Z ((λ r, if decide (cell_at df "incidents_recorded" r = NaN)
                                         then 0 else 1) <$> group_rows df present k))
                 (group_keys df present)).
      2:{ intros i k Hk%list_elem_of_lookup_2. cbn. unfold aggregates_row, int_at. cbn zeta.
          rewrite lookup_app_r by (rewrite length_fmap, (group_key_length _ _ _ Hk); lia).
          rewrite length_fmap, (group_key_length _ _ _ Hk).
          replace (n + 2 - length present)%nat with 2%nat by (subst n; lia). cbn.
          by rewrite agg_count_sum_list, <- list_fmap_compose. }
      rewrite sum_over_groups. fold grouped.
      fold (agg_count (cell_at df "incidents_recorded" <$> grouped)).
      by rewrite agg_count_sum_list, <- list_fmap_compose.
  - intros Hinc Hcount. eexists. split; [by apply get_lga_summary_sizes|].
    fold present. cbn [summary_rows]. split.
    + apply NoDup_summary_keys. intros k. by eexists.
    + rewrite <- list_fmap_compose.
      rewrite (list_fmap_ext _ (λ k, sum_list_Z ((λ _, 1) <$> group_rows df present k))
                 (group_keys df present)).
      2:{ intros i k Hk%list_elem_of_lookup_2. cbn. unfold size_row.
          rewrite int_at_app_length by (by apply (group_key_length df)).
          apply length_sum_list. }
      rewrite sum_over_groups. fold grouped. by rewrite <- length_sum_list.
Qed.

(** * The export, the availability of the files, the directories *)

Section ExportProperties.
Variable text_to_number : string → option Z.
Local Abbreviation load_2012 := (load_criminal_incidents_2012_2021 text_to_number).
Local Abbreviation load_2010 := (load_criminal_incidents_2010_2019 text_to_number).
Local Abbreviation merge := (merge_time_series text_to_number).
Local Abbreviation export := (export_merged_data text_to_number).

(** X16. When the merge raises, the export raises the same error,
    whatever the format and the file name, and writes no file: the
    state is the one the merge leaves. *)
Theorem export_propagates_merge_failure w st output_format filename e :
  (merge w true st).1 = Raise e →
  export w output_format filename st = (Raise e, (merge w true st).2)
  ∧ reads_only st (export w output_format filename st).2.
Proof.
  intros He. rewrite export_merged_data_run.
  pose proof (merge_time_series_state text_to_number w true st) as Hst.
  pose proof (obtain_tables_reads_only text_to_number w st) as Hro.
  destruct (merge w true st) as [[merged|e'] st']; cbn in He, Hst; [done|].
  injection He as ->. subst st'. done.
Qed.

(** X17. When the merge succeeds, an export as csv under the default
    file name returns the path of
    criminal_incidents_extended_2010_2021.csv in the output directory,
    leaves the cache as the merge left it, and makes one write, of the
    merged table, after the accesses of the merge, none of which is a
    write. *)
Theorem export_csv_writes_the_merged_table w st merged :
  (merge w true st).1 = Ok merged →
  let output_path := joinpath OUTPUT_DIR "criminal_incidents_extended_2010_2021.csv" in
  let out := export w "csv" None st in
  out.1 = Ok output_path
  ∧ loaded_data out.2 = loaded_data (merge w true st).2
  ∧ effects out.2 = (effects (merge w true st).2 ++ [FsWrite output_path "csv" merged])%list
  ∧ Forall (λ ev, is_write ev = false)
           (drop (length (effects st)) (effects (merge w true st).2)).
Proof.
  intros Hm output_path out. subst out. rewrite export_merged_data_run.
  pose proof (merge_time_series_state text_to_number w true st) as Hst.
  destruct (obtain_tables_reads_only text_to_number w st) as (evs & Hevs & Hro).
  destruct (merge w true st) as [[merged'|e'] st']; cbn in Hm, Hst; [|done].
  injection Hm as ->. subst st'. cbn [fst snd].
  rewrite decide_True by (by_evaluation).
  cbn. split; [done|]. split; [done|]. split; [done|].
  by rewrite Hevs, drop_app_length.
Qed.
End ExportProperties.

Lemma dict_of_snoc {V} (items : list (string * V)) k v :
  dict_of (items ++ [(k, v)]) = <[k := v]> (dict_of items).
Proof. unfold dict_of. by rewrite foldl_app. Qed.

Lemma dom_dict_of {V} (items : list (string * V)) :
  dom (dict_of items) = list_to_set (items.*1).
Proof.
  induction items as [|[k v] items IH] using rev_ind.
  - unfold dict_of. cbn. by rewrite dom_empty_L.
  - rewrite dict_of_snoc, dom_insert_L, IH, fmap_app, list_to_set_app_L. cbn. set_solver.
Qed.

Lemma DATA_FILES_items_dict : DATA_FILES = list_to_map DATA_FILES_items.
Proof. reflexivity. Qed.

Lemma logged_nil st : logged [] st = st.
Proof. destruct st. unfold logged. cbn. by rewrite app_nil_r. Qed.

Lemma mapM_path_exists w (items : list (string * string)) st :
  mapM (λ item : string * string,
          present ← path_exists w item.2; mret (item.1, present)) items st
  = (Ok ((λ item : string * string,
            (item.1, bool_decide (is_Some (files w !! item.2)))) <$> items),
     logged (FsExists <$> (snd <$> items)) st).
Proof.
  revert st. induction items as [|item items IH]; intros st.
  - cbn. by rewrite logged_nil.
  - cbn [mapM fmap list_fmap].
    unfold mbind at 1. unfold M_bind at 1.
    unfold mbind at 1. unfold M_bind at 1.
    unfold path_exists at 1. unfold mbind at 1. unfold M_bind at 1. unfold log at 1.
    cbn [mret M_ret]. unfold mbind at 1. unfold M_bind at 1. rewrite IH.
    cbn [mret M_ret]. f_equal. unfold logged. cbn. by rewrite <- app_assoc.
Qed.

Lemma get_available_files_run w st :
  get_available_files w st
  = (Ok (dict_of ((λ item : string * string,
                     (item.1, bool_decide (is_Some (files w !! item.2))))
                    <$> DATA_FILES_items)),
     logged (FsExists <$> (snd <$> DATA_FILES_items)) st).
Proof.
  unfold get_available_files. unfold mbind at 1. unfold M_bind at 1.
  by rewrite mapM_path_exists.
Qed.

Section Availability.
Variable text_to_number : string → option Z.
Local Abbreviation load_2012 := (load_criminal_incidents_2012_2021 text_to_number).
Local Abbreviation load_2010 := (load_criminal_incidents_2010_2019 text_to_number).
Local Abbreviation merge := (merge_time_series text_to_number).

(** X18. [get_available_files] tests the six data files for existence,
    in the order of [DATA_FILES], and changes nothing else; it reports
    on these six names, each with the presence of its file. A loader
    raises [FileNotFoundError] exactly when its file is reported
    missing, and the merge of a fresh processor raises
    [NoDataAvailable] exactly when both source files are. *)
Theorem available_files_predict_the_loaders w st :
  ∃ available,
    get_available_files w st
    = (Ok available, logged (FsExists <$> (snd <$> DATA_FILES_items)) st)
    ∧ dom available = dom DATA_FILES
    ∧ (∀ name, name ∈ dom DATA_FILES →
               available !! name = Some (bool_decide (is_Some (files w !! data_file name))))
    ∧ (∀ sheet_name st',
         available !! "criminal_incidents_2012_2021" = Some false
         ↔ ∃ e, (load_2012 w sheet_name st').1 = Raise e ∧ is_fnf e = true)
    ∧ (∀ sheet_name st',
         available !! "criminal_incidents_2010_2019" = Some false
         ↔ ∃ e, (load_2010 w sheet_name st').1 = Raise e ∧ is_fnf e = true)
    ∧ (∀ prefer_september,
         (merge w prefer_september init).1 = Raise NoDataAvailable
         ↔ available !! "criminal_incidents_2012_2021" = Some false
           ∧ available !! "criminal_incidents_2010_2019" = Some false).
Proof.
  eexists. split; [apply get_available_files_run|].
  set (available := dict_of _).
  assert (∀ name, name ∈ dom DATA_FILES →
            available !! name = Some (bool_decide (is_Some (files w !! data_file name))))
    as Hlook.
  { intros name Hname. apply elem_of_dom in Hname as [p Hp].
    assert (name ∈ (fst <$> DATA_FILES_items)) as Hin.
    { apply list_elem_of_fmap. exists (name, p). split; [done|].
      apply elem_of_list_to_map_2. by rewrite <- DATA_FILES_items_dict. }
    unfold data_file. rewrite Hp. cbn [default from_option id].
    cbn in Hin. subst available.
    repeat (apply elem_of_cons in Hin as [->|Hin];
            [vm_compute in Hp; injection Hp as <-; reflexivity|]).
    by apply elem_of_nil in Hin. }
  assert (∀ name, name ∈ dom DATA_FILES →
            available !! name = Some false ↔ files w !! data_file name = None) as Hfalse.
  { intros name Hname. rewrite (Hlook name Hname). split.
    - intros [= Hb]. apply bool_decide_eq_false in Hb. by apply eq_None_not_Some.
    - by intros ->. }
  split; [|split; [done|split; [|split]]].
  - subst available. rewrite dom_dict_of, <- list_fmap_compose.
    rewrite DATA_FILES_items_dict, dom_list_to_map_L. done.
  - intros s st'. rewrite Hfalse by by_evaluation. rewrite load_2012_run. cbn [fst].
    symmetry. apply read_2012_fnf.
  - intros s st'. rewrite Hfalse by by_evaluation. rewrite load_2010_run. cbn [fst].
    symmetry. apply read_2010_fnf.
  - intros b. rewrite !Hfalse by by_evaluation.
    rewrite merge_time_series_fst, obtain_tables_fst. cbn [loaded_data init].
    rewrite !lookup_empty. split.
    + intros Hm. destruct (fetch None (read_table_2012_2021 _ _ _)) as [o12|e12] eqn:F12.
      2:{ cbn in Hm. injection Hm as ->. by apply no_fnf_fetch in F12. }
      destruct (fetch None (read_table_2010_2019 _ _ _)) as [o10|e10] eqn:F10.
      2:{ cbn in Hm. injection Hm as ->. by apply no_fnf_fetch in F10. }
      destruct o12 as [a12|], o10 as [a10|]; cbn in Hm; try done.
      * by apply no_fnf_merge_both in Hm.
      * apply fetch_None in F12 as [_ H12], F10 as [_ H10].
        split; [by apply (read_2012_fnf text_to_number w "Table 01")|
                by apply (read_2010_fnf text_to_number w None)].
    + intros [H12 H10].
      rewrite (read_2012_without_file text_to_number), (read_2010_without_file text_to_number)
        by done. done.
Qed.
End Availability.

(** X19. [_validate_paths] raises [FileNotFoundError] when the data
    directory does not exist; otherwise it succeeds, the paths
    afterwards are the paths before together with the output directory,
    and a second run changes nothing. *)
Theorem validate_paths_outcome existing :
  (DATA_DIR ∉ existing →
   _validate_paths existing
   = Raise (FileNotFoundError ("Data directory not found: " ++ DATA_DIR)))
  ∧ (DATA_DIR ∈ existing →
     ∃ existing',
       _validate_paths existing = Ok existing'
       ∧ existing' = {[OUTPUT_DIR]} ∪ existing
       ∧ _validate_paths existing' = Ok existing').
Proof.
  unfold _validate_paths. split.
  - intros Hno. by rewrite decide_True.
  - intros Hin. rewrite decide_False by (by intros Hno).
    destruct (decide (OUTPUT_DIR ∉ existing)) as [Hout|Hout].
    + eexists. split; [done|]. split; [done|].
      rewrite decide_False by set_solver. rewrite decide_False by set_solver. done.
    + exists existing. split; [done|]. split.
      * apply dec_stable in Hout. set_solver.
      * rewrite decide_False by (by intros Hno). by rewrite decide_False.
Qed.

(** * Totals of the trend table *)

Lemma sum_list_Z_Permutation l l' : l ≡ₚ l' → sum_list_Z l = sum_list_Z l'.
Proof.
  induction 1 as [|x l l' _ IH|x y l|l l' l'' _ IH _ IH']; rewrite ?sum_list_Z_cons;
    [done|by rewrite IH|lia|congruence].
Qed.

(** X20. On a table with pairwise distinct labels that has the columns
    [year], [offence_division] and [incidents_recorded], the counts
    holding no text and adding up within the exact range, the trend
    table is returned and its incidents add up to the incidents of the
    rows that have both a year and an offence division. *)
Theorem offence_trends_totals df :
  NoDup (columns df) →
  "year" ∈ columns df → "offence_division" ∈ columns df →
  "incidents_recorded" ∈ columns df → numeric_column "incidents_recorded" df →
  exact_total "incidents_recorded" df →
  ∃ trends,
    get_offence_trends df = Ok trends
    ∧ sum_list_Z (tr_incidents_recorded <$> trends)
      = sum_numbers (cell_at df "incidents_recorded"
                       <$> filter (complete_key df ["year"; "offence_division"]) (rows df)).
Proof.
  intros Hnd Hy Hd Hi Hnum Hexact. exists (trends_of df).
  split; [apply get_offence_trends_ok; auto using occurrences_NoDup|].
  rewrite <- (fmap_same_trend tr_incidents_recorded (sorted_trends df) (trends_of df));
    [|by intros t t' (_ & _ & ->)|apply trends_same].
  unfold sorted_trends.
  rewrite (sum_list_Z_Permutation _
             (tr_incidents_recorded <$>
                (trend_of_group df <$> groups_of df ["year"; "offence_division"]))).
  2:{ apply fmap_Permutation, stable_sort_Permutation. }
  unfold groups_of. rewrite <- !list_fmap_compose.
  rewrite (list_fmap_ext _
             (λ k, sum_list_Z (number_of ∘ cell_at df "incidents_recorded"
                                 <$> group_rows df ["year"; "offence_division"] k))
             (group_keys df ["year"; "offence_division"])).
  2:{ intros i k _. cbn. unfold group_rows. rewrite exact_total_filter by done.
      by rewrite sum_numbers_sum_list, <- list_fmap_compose. }
  rewrite sum_over_groups. by rewrite sum_numbers_sum_list, <- list_fmap_compose.
Qed.

(** * The columns of a summary *)

(** X21. On a table with pairwise distinct labels, for a request that
    names a present column and no present column twice, the columns of
    the summary are the group columns present in the table, in the
    order requested, followed by the three aggregates of
    [incidents_recorded] (the counts holding no text, within the exact
    range) or, on a table without that column and for a request that
    does not name [count], by [count]; with the aggregates, underscores
    at either end of a group column's name are stripped, and the same
    holds when [incidents_recorded] is itself a group column. Every row
    of the summary has one value per column. *)
Theorem lga_summary_columns df group_cols :
  let present := filter (λ c, c ∈ columns df) group_cols in
  NoDup (columns df) → NoDup present → present ≠ [] →
  ("incidents_recorded" ∈ columns df →
   numeric_column "incidents_recorded" df → exact_total "incidents_recorded" df →
   ∃ s, get_lga_summary df (Some group_cols) = Ok s
     ∧ summary_columns s
       = ((strip_underscores <$> present)
            ++ ["incidents_recorded_sum"; "incidents_recorded_mean";
                "incidents_recorded_count"])%list
     ∧ Forall (λ vs, length vs = length (summary_columns s)) (summary_rows s))
  ∧ ("incidents_recorded" ∉ columns df → "count" ∉ present →
     ∃ s, get_lga_summary df (Some group_cols) = Ok s
       ∧ summary_columns s = (present ++ ["count"])%list
       ∧ Forall (λ vs, length vs = length (summary_columns s)) (summary_rows s)).
Proof.
  intros present Hcols Hnd Hne.
  pose proof (present_once df group_cols Hcols) as Honce. fold present in Honce.
  split.
  - intros Hinc Hnum Hexact. eexists. split.
    { apply get_lga_summary_aggregates; try done. by apply occurrences_NoDup. }
    fold present. cbn [summary_columns summary_rows]. split; [done|].
    apply Forall_fmap, Forall_forall. intros k Hk. cbn. unfold aggregates_row. cbn zeta.
    repeat (rewrite length_fmap || rewrite length_app). cbn.
    by rewrite (group_key_length df present k).
  - intros Hinc Hcount. eexists. split; [by apply get_lga_summary_sizes|].
    fold present. cbn [summary_columns summary_rows]. split; [done|].
    apply Forall_fmap, Forall_forall. intros k Hk. cbn. unfold size_row.
    repeat (rewrite length_fmap || rewrite length_app). cbn.
    by rewrite (group_key_length df present k).
Qed.

(** * The stamps of a merged table *)

Section Stamps.
Variable text_to_number : string → option Z.
Local Abbreviation read_2012 := (read_table_2012_2021 text_to_number).
Local Abbreviation read_2010 := (read_table_2010_2019 text_to_number).
Local Abbreviation obtain := (obtain_tables text_to_number).
Local Abbreviation merge := (merge_time_series text_to_number).
Local Abbreviation reachable := (reachable text_to_number).

Lemma stamp_month source month std :
  aligned std → constant_column "year_ending_month" (Str month) (stamp source month std).
Proof.
  intros Hal. unfold stamp. apply setitem_scalar_constant.
  by apply setitem_scalar_aligned.
Qed.

Lemma read_2012_month w sheet_name df :
  read_2012 w sheet_name = Ok df → constant_column "year_ending_month" (Str "September") df.
Proof.
  unfold read_table_2012_2021. destruct (files w !! _) as [wb|]; [|done].
  unfold read_excel. destruct (find_sheet wb sheet_name) as [sh|]; [|done]. cbn.
  destruct (_standardize_columns _ _ _) as [std|] eqn:Hstd; [|done]. cbn. intros [= <-].
  apply stamp_month.
  by destruct (standardize_loaded text_to_number _ _ _ (aligned_frame_of_sheet sh) Hstd).
Qed.

Lemma read_2010_month w sheet_name df :
  read_2010 w sheet_name = Ok df → constant_column "year_ending_month" (Str "March") df.
Proof.
  unfold read_table_2010_2019. destruct (files w !! _) as [wb|]; [|done].
  destruct (chosen_sheet wb sheet_name) as [s|]; [|done]. cbn.
  unfold read_excel. destruct (find_sheet wb s) as [sh|]; [|done]. cbn.
  destruct (_standardize_columns _ _ _) as [std|] eqn:Hstd; [|done]. cbn. intros [= <-].
  apply stamp_month.
  by destruct (standardize_loaded text_to_number _ _ _ (aligned_frame_of_sheet sh) Hstd).
Qed.

Lemma obtain_tables_from_loaders w st o12 o10 :
  cache_from_loaders text_to_number st → (obtain w st).1 = Ok (o12, o10) →
  (∀ df, o12 = Some df → ∃ w' sheet_name, read_2012 w' sheet_name = Ok df)
  ∧ (∀ df, o10 = Some df → ∃ w' sheet_name, read_2010 w' sheet_name = Ok df).
Proof.
  intros (_ & H12 & H10). rewrite obtain_tables_fst.
  destruct (fetch _ (read_2012 _ _)) as [o12'|] eqn:F12; [|done].
  destruct (fetch _ (read_2010 _ _)) as [o10'|] eqn:F10; [|done].
  cbn. intros [= -> ->]. split; intros df ->.
  - apply fetch_Some_inv in F12 as [Hc|[_ Hr]]; eauto.
  - apply fetch_Some_inv in F10 as [Hc|[_ Hr]]; eauto.
Qed.

(** X22. Every row of a table merged from both sources carries the
    stamps of one vintage: CSA_2012_2021 with September, or
    CSA_2010_2019 with March. *)
Theorem merge_keeps_the_stamps_paired w st prefer_september df_2012 df_2010 out :
  reachable st →
  (obtain w st).1 = Ok (Some df_2012, Some df_2010) →
  (merge w prefer_september st).1 = Ok out →
  ∀ r, r ∈ rows out →
    (cell_at out "data_source" r = Str "CSA_2012_2021"
     ∧ cell_at out "year_ending_month" r = Str "September")
    ∨ (cell_at out "data_source" r = Str "CSA_2010_2019"
       ∧ cell_at out "year_ending_month" r = Str "March").
Proof.
  intros Hst Hob Hout r Hr.
  destruct (merge_of_both text_to_number w st prefer_september _ _ Hst Hob)
    as (L12 & L10 & Hm).
  rewrite Hm in Hout.
  destruct (reachable_state text_to_number st Hst) as [Hc _].
  destruct (obtain_tables_from_loaders w st _ _ Hc Hob) as [F12 F10].
  destruct (F12 _ eq_refl) as (w12 & s12 & R12%read_2012_month).
  destruct (F10 _ eq_refl) as (w10 & s10 & R10%read_2010_month).
  destruct (merge_both_rows _ _ _ _ (loaded_year_numeric _ _ L12)
              (loaded_year_numeric _ _ L10) Hout)
    as (bound & _ & _ & _ & _ & _ & Hfrom & _).
  destruct (Hfrom r Hr) as [(r0 & Hr0 & Hd)|(r0 & Hr0 & Hd)].
  - right. apply elem_of_kept_2010 in Hr0 as [Hr0 _].
    destruct (loaded_source _ _ L10) as [Hin Hall]. destruct R10 as [Hin' Hall'].
    rewrite Forall_forall in Hall, Hall'.
    rewrite (Hd _ Hin), (Hd _ Hin'). auto.
  - left. apply elem_of_kept_2012 in Hr0 as [Hr0 _].
    destruct (loaded_source _ _ L12) as [Hin Hall]. destruct R12 as [Hin' Hall'].
    rewrite Forall_forall in Hall, Hall'.
    rewrite (Hd _ Hin), (Hd _ Hin'). auto.
Qed.
End Stamps.

(** * The index and the order of a merged table *)

Section MergedIndex.
Variable text_to_number : string → option Z.
Local Abbreviation standardize := (_standardize_columns text_to_number).
Local Abbreviation read_2012 := (read_table_2012_2021 text_to_number).
Local Abbreviation read_2010 := (read_table_2010_2019 text_to_number).
Local Abbreviation obtain := (obtain_tables text_to_number).
Local Abbreviation merge := (merge_time_series text_to_number).
Local Abbreviation reachable := (reachable text_to_number).

(** The table a loader makes of a sheet keeps the index of the sheet,
    which is the position of the rows. *)
Lemma stamped_sheet_labels sh std source_type source month :
  standardize (frame_of_sheet sh) source_type = Ok std →
  let df := stamp source month std in
  label <$> rows df = Z.of_nat <$> seq 0 (length (rows df)).
Proof.
  intros Hstd df.
  pose proof (made_from_stamp text_to_number _ _ _ source month
                (aligned_frame_of_sheet sh) Hstd) as Hm.
  assert (label <$> rows df = Z.of_nat <$> seq 0 (length (body sh))) as Hl.
  { subst df. rewrite (made_from_labels _ _ _ _ _ _ Hm).
    unfold frame_of_sheet. cbn [rows]. rewrite fmap_imap. apply (imap_labels Z.of_nat). }
  rewrite Hl. f_equal. f_equal.
  apply (f_equal length) in Hl. by rewrite !length_fmap, length_seq in Hl.
Qed.

Lemma read_2012_labels w sheet_name df :
  read_2012 w sheet_name = Ok df →
  label <$> rows df = Z.of_nat <$> seq 0 (length (rows df)).
Proof.
  unfold read_table_2012_2021. destruct (files w !! _) as [wb|]; [|done].
  unfold read_excel. destruct (find_sheet wb sheet_name) as [sh|]; [|done]. cbn.
  destruct (standardize _ _) as [std|] eqn:Hstd; [|done]. cbn. intros [= <-].
  by eapply stamped_sheet_labels.
Qed.

Lemma read_2010_labels w sheet_name df :
  read_2010 w sheet_name = Ok df →
  label <$> rows df = Z.of_nat <$> seq 0 (length (rows df)).
Proof.
  unfold read_table_2010_2019. destruct (files w !! _) as [wb|]; [|done].
  destruct (chosen_sheet wb sheet_name) as [s|]; [|done]. cbn.
  unfold read_excel. destruct (find_sheet wb s) as [sh|]; [|done]. cbn.
  destruct (standardize _ _) as [std|] eqn:Hstd; [|done]. cbn. intros [= <-].
  by eapply stamped_sheet_labels.
Qed.

(** C8, as far as it holds. In a state reached through the processor's
    calls, the table a successful merge returns has its rows labelled
    0, 1, 2, ... in their order, whether it is built from both sources
    or is the table of a single source. Built from both sources it is
    sorted in ascending order of (year, lga_name). With a single source
    it is the table obtained for that source, in the order in which the
    loader read it: it is not sorted by the merge. *)
Theorem merge_index_and_order w st prefer_september tables out :
  reachable st →
  (obtain w st).1 = Ok tables →
  (merge w prefer_september st).1 = Ok out →
  label <$> rows out = Z.of_nat <$> seq 0 (length (rows out))
  ∧ (∀ df_2012 df_2010, tables = (Some df_2012, Some df_2010) →
       Sorted (row_le (columns out) ["year"; "lga_name"]) (rows out))
  ∧ (∀ df, tables = (Some df, None) ∨ tables = (None, Some df) → out = df).
Proof.
  intros Hst Hob Hout.
  destruct (reachable_state text_to_number st Hst) as [Hc _].
  destruct tables as [o12 o10].
  destruct (obtain_tables_from_loaders text_to_number w st _ _ Hc Hob) as [F12 F10].
  destruct o12 as [df_2012|], o10 as [df_2010|].
  - destruct (merge_of_both text_to_number w st prefer_september _ _ Hst Hob)
      as (L12 & L10 & Hm).
    rewrite Hm in Hout.
    destruct (merge_both_sorted _ _ _ _ (loaded_year_numeric _ _ L12)
                (loaded_year_numeric _ _ L10) Hout) as [Hsorted Hlabels].
    split; [done|]. split; [done|]. by intros df [[=]|[=]].
  - rewrite merge_time_series_fst, Hob in Hout. cbn in Hout. injection Hout as <-.
    destruct (F12 _ eq_refl) as (w' & s & Hr%read_2012_labels).
    split; [done|]. split; [by intros ?? [=]|]. by intros df [[= ->]|[=]].
  - rewrite merge_time_series_fst, Hob in Hout. cbn in Hout. injection Hout as <-.
    destruct (F10 _ eq_refl) as (w' & s & Hr%read_2010_labels).
    split; [done|]. split; [by intros ?? [=]|]. by intros df [[=]|[= ->]].
  - by rewrite merge_time_series_fst, Hob in Hout.
Qed.
End MergedIndex.

(** * The further properties on the samples *)

(** The March-first merge of the sample tables is sorted and its rows are
    labelled 0 to 12; the September table, merged alone, has its rows
    labelled 0 to 9. *)
Lemma merge_index_and_order_witness :
  Sorted (row_le (columns merged_prefer_march) ["year"; "lga_name"])
         (rows merged_prefer_march)
  ∧ label <$> rows merged_prefer_march = Z.of_nat <$> seq 0 13
  ∧ (merge_time_series decimal_literal only_september true init).1 = Ok september_table
  ∧ label <$> rows september_table = Z.of_nat <$> seq 0 10.
Proof.
  destruct (merge_index_and_order decimal_literal both_files init false
              (Some september_table, Some march_table) merged_prefer_march)
    as (Hlabels & Hsorted & _).
  - apply reachable_init.
  - exact obtain_both_files.
  - vm_compute. reflexivity.
  - destruct (merge_index_and_order decimal_literal only_september init true
                (Some september_table, None) september_table)
      as (Hlabels' & _ & _).
    + apply reachable_init.
    + vm_compute. reflexivity.
    + vm_compute. reflexivity.
    + split; [exact (Hsorted _ _ eq_refl)|]. split; [exact Hlabels|].
      split; [vm_compute; reflexivity|exact Hlabels'].
Defined.

(** With the September file only, the merge returns the September table
    in the order of its sheet, which starts with 2021: it is not
    sorted. *)
Lemma merge_of_one_source_not_sorted :
  (merge_time_series decimal_literal only_september true init).1 = Ok september_table
  ∧ ¬ Sorted (row_le (columns september_table) ["year"; "lga_name"])
             (rows september_table).
Proof.
  split; [vm_compute; reflexivity|].
  intros Hsorted. apply Sorted_inv in Hsorted as [_ Hhd].
  apply HdRel_inv in Hhd. revert Hhd. by_evaluation.
Qed.

Lemma load_2012_both_files :
  (load_criminal_incidents_2012_2021 decimal_literal both_files "Table 01" init).1
  = Ok september_table.
Proof. vm_compute. reflexivity. Qed.

Lemma load_2010_both_files sheet_name :
  sheet_name = None ∨ sheet_name = Some "Data" →
  (load_criminal_incidents_2010_2019 decimal_literal both_files sheet_name init).1
  = Ok march_table.
Proof. intros [->| ->]; vm_compute; reflexivity. Qed.

Lemma merge_both_files (b : bool) :
  (merge_time_series decimal_literal both_files b init).1
  = Ok (if b then merged_prefer_september else merged_prefer_march).
Proof. destruct b; vm_compute; reflexivity. Qed.

(** The September sheet, as loaded: ten rows labelled 0 to 9. *)
Lemma load_2012_2021_keeps_the_sheet_witness :
  made_from decimal_literal "2012_2021" "CSA_2012_2021" "September"
            (frame_of_sheet september_sheet) september_table
  ∧ label <$> rows september_table = Z.of_nat <$> seq 0 10.
Proof.
  destruct (load_2012_2021_keeps_the_sheet decimal_literal both_files "Table 01" init
              september_workbook september_sheet september_table) as (Hm & Hl & _).
  - vm_compute. reflexivity.
  - vm_compute. reflexivity.
  - exact load_2012_both_files.
  - split; [exact Hm|exact Hl].
Defined.

(** The March workbook has the sheets Contents, Notes and Data: the
    loader reads Data. *)
Lemma load_2010_2019_default_sheet_witness :
  load_criminal_incidents_2010_2019 decimal_literal both_files None init
  = load_criminal_incidents_2010_2019 decimal_literal both_files (Some "Data") init.
Proof.
  destruct (load_2010_2019_default_sheet decimal_literal both_files init march_workbook)
    as [Hdata _].
  - vm_compute. reflexivity.
  - apply (Hdata ["Contents"; "Notes"] "Data" []).
    + reflexivity.
    + repeat constructor; unfold skipped_sheet; by_evaluation.
    + unfold skipped_sheet. by_evaluation.
Defined.

Lemma load_2010_2019_keeps_the_sheet_witness :
  made_from decimal_literal "2010_2019" "CSA_2010_2019" "March"
            (frame_of_sheet march_sheet) march_table
  ∧ label <$> rows march_table = Z.of_nat <$> seq 0 11.
Proof.
  destruct (load_2010_2019_keeps_the_sheet decimal_literal both_files None init
              march_workbook "Data" march_sheet march_table) as (Hm & Hl & _).
  - vm_compute. reflexivity.
  - vm_compute. reflexivity.
  - vm_compute. reflexivity.
  - apply load_2010_both_files. by left.
  - split; [exact Hm|exact Hl].
Defined.

(** After a merge of the sample files the cache holds the two tables. *)
Lemma reachable_cache_invariant_witness :
  loaded_data (run decimal_literal (Merge true) both_files init)
    !! "criminal_incidents_2012_2021" = Some september_table
  ∧ loaded "CSA_2012_2021" september_table
  ∧ ∃ w sheet_name, read_table_2012_2021 decimal_literal w sheet_name = Ok september_table.
Proof.
  assert (loaded_data (run decimal_literal (Merge true) both_files init)
            !! "criminal_incidents_2012_2021" = Some september_table) as Hc
      by (vm_compute; reflexivity).
  split; [exact Hc|].
  destruct (reachable_cache_invariant decimal_literal
              (run decimal_literal (Merge true) both_files init)) as (_ & H12 & _).
  - apply reachable_run, reachable_init.
  - destruct (H12 _ Hc) as [Hfrom Hl]. split; [exact Hl|exact Hfrom].
Defined.

(** After an export as csv the log holds one write, in a supported
    format; a merge after it writes nothing. *)
Lemma reachable_writes_are_exports_witness :
  let st := run decimal_literal (Export "csv" None) both_files init in
  filter (λ ev, is_write ev = true) (effects st)
  = [FsWrite "Output_data/criminal_incidents_extended_2010_2021.csv" "csv"
             merged_prefer_september]
  ∧ supported "csv"
  ∧ reads_only st (run decimal_literal (Merge false) no_files st).
Proof.
  intros st.
  assert (effects st
          = [FsExists (data_file "criminal_incidents_2012_2021");
             FsRead (data_file "criminal_incidents_2012_2021");
             FsExists (data_file "criminal_incidents_2010_2019");
             FsRead (data_file "criminal_incidents_2010_2019");
             FsRead (data_file "criminal_incidents_2010_2019");
             FsWrite "Output_data/criminal_incidents_extended_2010_2021.csv" "csv"
                     merged_prefer_september]) as Heff
      by (vm_compute; reflexivity).
  destruct (reachable_writes_are_exports decimal_literal st) as [Hfmt Hro].
  - apply reachable_run, reachable_init.
  - split; [rewrite Heff; reflexivity|]. split.
    + apply (Hfmt "Output_data/criminal_incidents_extended_2010_2021.csv" "csv"
               merged_prefer_september).
      rewrite Heff. do 5 apply list_elem_of_further. apply list_elem_of_here.
    + apply Hro. reflexivity.
Defined.

(** After a merge of the sample files, a merge without any file still
    works, from the cache. *)
Lemma merge_caches_its_tables_witness :
  let st' := (merge_time_series decimal_literal both_files true init).2 in
  merge_time_series decimal_literal no_files false st' = (Ok merged_prefer_march, st').
Proof.
  destruct (merge_caches_its_tables decimal_literal both_files init true
              september_table march_table) as (_ & _ & Hnext).
  - exact obtain_both_files.
  - cbn zeta in *. rewrite (Hnext no_files false). f_equal.
Defined.

(** A September sheet without a year, and sheets whose years are all
    unreadable. *)
Lemma merge_needs_years_witness :
  (merge_time_series decimal_literal files_without_year true init).1 = Raise (KeyError "year")
  ∧ (merge_time_series decimal_literal files_with_blank_years true init).1
    = Raise (ValueError "min() arg is an empty sequence")
  ∧ (merge_time_series decimal_literal files_with_blank_years false init).1
    = Raise (ValueError "max() arg is an empty sequence").
Proof.
  pose (a12 := table_of (read_table_2012_2021 decimal_literal files_without_year "Table 01")).
  pose (b12 := table_of (read_table_2012_2021 decimal_literal files_with_blank_years
                           "Table 01")).
  pose (b10 := table_of (read_table_2010_2019 decimal_literal files_with_blank_years None)).
  destruct (merge_needs_years decimal_literal files_without_year init true a12 march_table)
    as (Hkey & _); [apply reachable_init|vm_compute; reflexivity|].
  destruct (merge_needs_years decimal_literal files_with_blank_years init true b12 b10)
    as (_ & Hmin & Hmax); [apply reachable_init|vm_compute; reflexivity|].
  split; [|split].
  - apply Hkey. left. by_evaluation.
  - apply Hmin; by_evaluation.
  - apply Hmax; by_evaluation.
Defined.

(** The years of the September-first merge of the samples: 2011 comes
    from the March table, below the bound 2012. *)
Lemma merge_years_witness :
  ∃ bound,
    least (years_of september_table) bound
    ∧ (Num 2011 ∈ years_of merged_prefer_september
       ↔ Num 2011 ∈ years_of september_table
         ∨ (Num 2011 ∈ years_of march_table ∧ 2011 < bound)).
Proof.
  destruct (merge_years decimal_literal both_files init true september_table march_table
              merged_prefer_september) as (bound & Hb & _ & Hy).
  - apply reachable_init.
  - exact obtain_both_files.
  - exact (merge_both_files true).
  - exists bound. split; [exact Hb|]. exact (Hy 2011).
Defined.

(** Years that are numbers already: only the labels change. *)
Lemma standardize_keeps_numeric_years_witness :
  _standardize_columns decimal_literal numeric_years "2010_2019"
  = Ok (Frame ["year"; "lga_name"] (rows numeric_years)).
Proof.
  rewrite (standardize_keeps_numeric_years decimal_literal numeric_years "2010_2019").
  - reflexivity.
  - unfold aligned. by_evaluation.
  - by_evaluation.
  - unfold numeric_column. by_evaluation.
Defined.

(** A vintage identifier without a mapping: the labels are kept. *)
Lemma standardize_unknown_vintage_witness :
  ∃ df', _standardize_columns decimal_literal raw_years "2015_2020" = Ok df'
    ∧ columns df' = ["Year"; "LGA_NAME"; "Notes"].
Proof.
  destruct (standardize_unknown_vintage decimal_literal raw_years "2015_2020")
    as (df' & Hok & Hcols & _).
  - reflexivity.
  - by_evaluation.
  - exists df'. split; [exact Hok|exact Hcols].
Defined.

(** The summary by area of the two-year table accounts for its 257
    incidents, in its five rows. *)
Lemma lga_summary_totals_witness :
  ∃ s, get_lga_summary two_year_table (Some ["suburb"; "lga_name"]) = Ok s
    ∧ sum_list_Z (int_at 1 <$> summary_rows s) = 257
    ∧ sum_list_Z (int_at 3 <$> summary_rows s) = 5.
Proof.
  destruct (lga_summary_totals two_year_table ["suburb"; "lga_name"]) as [Hagg _];
    [by_evaluation..|].
  destruct Hagg as (s & Hs & _ & Hsum & Hcount); [by_evaluation..|].
  exists s. split; [exact Hs|]. split; [exact Hsum|exact Hcount].
Defined.

(** Without files the export raises what the merge raises. *)
Lemma export_propagates_merge_failure_witness :
  (export_merged_data decimal_literal no_files "csv" None init).1 = Raise NoDataAvailable.
Proof.
  destruct (export_propagates_merge_failure decimal_literal no_files init "csv" None
              NoDataAvailable) as [-> _]; [vm_compute|]; reflexivity.
Defined.

(** The export of the sample files as csv. *)
Lemma export_csv_writes_the_merged_table_witness :
  (export_merged_data decimal_literal both_files "csv" None init).1
  = Ok "Output_data/criminal_incidents_extended_2010_2021.csv".
Proof.
  destruct (export_csv_writes_the_merged_table decimal_literal both_files init
              merged_prefer_september) as [Hpath _].
  - exact (merge_both_files true).
  - exact Hpath.
Defined.

(** The trend table of the two-year table accounts for the 250 incidents
    of the rows that have a year. *)
Lemma offence_trends_totals_witness :
  ∃ trends, get_offence_trends two_year_table = Ok trends
    ∧ sum_list_Z (tr_incidents_recorded <$> trends) = 250.
Proof.
  destruct (offence_trends_totals two_year_table) as (trends & Hok & Hsum);
    [by_evaluation..|].
  exists trends. split; [exact Hok|exact Hsum].
Defined.

(** The columns of the summary of the two-year table by incident count:
    the group column, then the three aggregates. *)
Lemma lga_summary_columns_witness :
  ∃ s, get_lga_summary two_year_table (Some ["incidents_recorded"; "postcode"]) = Ok s
    ∧ summary_columns s
      = ["incidents_recorded"; "incidents_recorded_sum"; "incidents_recorded_mean";
         "incidents_recorded_count"]
    ∧ Forall (λ vs, length vs = 4%nat) (summary_rows s).
Proof.
  destruct (lga_summary_columns two_year_table ["incidents_recorded"; "postcode"])
    as [Hagg _]; [by_evaluation..|].
  destruct Hagg as (s & Hs & Hcols & Hrows); [by_evaluation..|].
  exists s. split; [exact Hs|]. split; [exact Hcols|].
  rewrite Hcols in Hrows. exact Hrows.
Defined.

(** Every row of the September-first merge of the samples carries the
    stamps of one vintage. *)
Lemma merge_keeps_the_stamps_paired_witness :
  Forall (λ r,
            (cell_at merged_prefer_september "data_source" r = Str "CSA_2012_2021"
             ∧ cell_at merged_prefer_september "year_ending_month" r = Str "September")
            ∨ (cell_at merged_prefer_september "data_source" r = Str "CSA_2010_2019"
               ∧ cell_at merged_prefer_september "year_ending_month" r = Str "March"))
         (rows merged_prefer_september).
Proof.
  apply Forall_forall.
  apply (merge_keeps_the_stamps_paired decimal_literal both_files init true
           september_table march_table merged_prefer_september).
  - apply reachable_init.
  - exact obtain_both_files.
  - exact (merge_both_files true).
Defined.
